(** * Kikapu Naturals synthetic data generator: a shallow embedding

    The development follows [kikapu.py].  Part I holds the definitions:
    binary64 arithmetic as Python exposes it, the small pieces of the
    [datetime] and [random] modules the script calls, the record types of the
    four tables and the methods of [KikapuDataGenerator].  Part II holds the
    lemmas and the theorems about them. *)

From Stdlib Require Import ZArith QArith Qround Qabs Qpower Qreduction.
From Stdlib Require Import Lia Lqa List Bool String Ascii DecimalString.
From Stdlib Require Floats Uint63 DecimalPos DecimalZ.
Import ListNotations.

Set Implicit Arguments.

(* ===================================================================== *)
(** * Part I.  Definitions                                                *)
(* ===================================================================== *)

(** ** Binary64 arithmetic

    A Python [float] is an IEEE-754 binary64 number.  A finite one is a
    dyadic rational [m * 2^e] with [|m| < 2^53] and [-1074 <= e]; it is
    modelled by its exact value in [Q].  Every arithmetic operation returns
    the exact result rounded to nearest, ties to even ([rne]).  The exponent
    range is not bounded above: every quantity of this program is far below
    [2^1024], the only place where binary64 differs. *)

Definition float := Q.

Definition pow2 (e : Z) : Q := (2 ^ e)%Q.

(** Nearest integer, ties to even (C's [rint], Python's [round(x)]). *)
Definition rint (q : Q) : Z :=
  let f := Qfloor q in
  match Qcompare (q - inject_Z f) (1 # 2) with
  | Lt => f
  | Gt => (f + 1)%Z
  | Eq => if Z.even f then f else (f + 1)%Z
  end.

(** [ilog2 q] is the integer [k] with [2^k <= q < 2^(k+1)], for [0 < q]. *)
Definition ilog2 (q : Q) : Z :=
  let k := (Z.log2 (Qnum q) - Z.log2 (Zpos (Qden q)))%Z in
  if Qle_bool (pow2 k) q then k else (k - 1)%Z.

(** Exponent of the binary64 grid around [q]: 53 significant bits, and the
    subnormal spacing [2^-1074] below [2^-1022]. *)
Definition fexp (q : Q) : Z := Z.max (ilog2 (Qabs q) - 52) (-1074).

Definition rne (q : Q) : float :=
  let e := fexp q in
  Qred (inject_Z (rint (q / pow2 e)) * pow2 e).

(** The values a binary64 variable can hold. *)
Definition is_float (x : Q) : Prop :=
  exists m e : Z,
    x == inject_Z m * pow2 e /\ (Z.abs m <= 2 ^ 53)%Z /\ (-1074 <= e)%Z.

Definition fadd (x y : float) : float := rne (x + y).
Definition fsub (x y : float) : float := rne (x - y).
Definition fmul (x y : float) : float := rne (x * y).
Definition fdiv (x y : float) : float := rne (x / y).

(** [float(n)] for a Python [int], as every mixed operation converts it. *)
Definition of_int (n : Z) : float := rne (inject_Z n).

(** A decimal literal such as [18.99], read as [1899 / 100]. *)
Definition literal (n : Z) (d : positive) : float := rne (n # d).

(** [int / int], Python's true division: correctly rounded. *)
Definition int_truediv (a b : Z) : float := rne (inject_Z a / inject_Z b).

Definition flt (x y : Q) : bool :=
  match Qcompare x y with Lt => true | _ => false end.

(** [sum(xs)] over floats: Python starts from the [int] 0 and adds from the
    left. *)
Definition py_sum (xs : list float) : float :=
  fold_left fadd xs (of_int 0).

(** ** [round(x, ndigits)]

    The builtin on a [float] is correctly rounded: the exact value of [x] is
    rounded to [ndigits] decimals, ties to even, and the decimal result is
    converted back to the nearest binary64.  A [numpy.float64] rounds by
    [rint(x * 10**n) / 10**n] instead, in binary64 throughout.  Values read
    from the pandas product table are [numpy.float64]; the functions below
    take the rounding as a parameter and both are provided. *)

Class Rounding := round_ : float -> Z -> float.

Definition builtin_round : Rounding := fun x ndigits =>
  let p := inject_Z (10 ^ ndigits) in
  rne (inject_Z (rint (x * p)) / p).

Definition numpy_round : Rounding := fun x ndigits =>
  let p := of_int (10 ^ ndigits) in
  fdiv (inject_Z (rint (fmul x p))) p.

(** ** Exceptions and the state of the interpreter

    The script draws every random number from the module-level generator of
    [random]; that generator's state is the only state threaded through the
    methods.  [inl] is a raised exception. *)

Inductive exn : Type :=
| ValueError
| OverflowError
| IndexError.

Definition M (S A : Type) : Type := S -> exn + (A * S).

Definition ret {S A} (a : A) : M S A := fun s => inr (a, s).

Definition bind {S A B} (m : M S A) (f : A -> M S B) : M S B :=
  fun s => match m s with
           | inl e => inl e
           | inr (a, s') => f a s'
           end.

Definition raise {S A} (e : exn) : M S A := fun _ => inl e.

Definition lift {S A} (r : exn + A) : M S A :=
  fun s => match r with inl e => inl e | inr a => inr (a, s) end.

Declare Scope monad_scope.
Delimit Scope monad_scope with monad.
Notation "x <- m ;; k" := (bind m (fun x => k))
  (at level 61, m at next level, right associativity) : monad_scope.
Notation "' pat <- m ;; k" := (bind m (fun x => match x with pat => k end))
  (at level 61, pat pattern, m at next level, right associativity) : monad_scope.
Open Scope monad_scope.

(** [for x in xs: acc = body(acc, x)] *)
Fixpoint foldM {S A B} (body : B -> A -> M S B) (xs : list A) (acc : B) : M S B :=
  match xs with
  | [] => ret acc
  | x :: xs' => acc' <- body acc x ;; foldM body xs' acc'
  end.

(** [for x in xs: out.append(body(x))] *)
Fixpoint mapM {S A B} (body : A -> M S B) (xs : list A) : M S (list B) :=
  match xs with
  | [] => ret []
  | x :: xs' => y <- body x ;; ys <- mapM body xs' ;; ret (y :: ys)
  end.

(** [range(lo, hi)] *)
Definition py_range (lo hi : Z) : list Z :=
  map (fun k => (lo + Z.of_nat k)%Z) (seq 0 (Z.to_nat (hi - lo))).

(** [xs[i]]: a negative index counts from the end, anything else outside the
    list raises [IndexError]. *)
Definition py_index {A} (xs : list A) (i : Z) : exn + A :=
  let n := Z.of_nat (List.length xs) in
  let j := if (i <? 0)%Z then (i + n)%Z else i in
  if ((0 <=? j) && (j <? n))%Z
  then match nth_error xs (Z.to_nat j) with
       | Some a => inr a
       | None => inl IndexError
       end
  else inl IndexError.

(** ** The [random] module

    The Mersenne Twister is not part of the repository; it is an interface.
    [random53] is the 53-bit integer behind [random.random()], [randbelow n]
    is the library's [_randbelow(n)], each returning the next state. *)

Class PyRandom (rng : Type) := {
  seed : Z -> rng;
  random53 : rng -> Z * rng;
  random53_range : forall g, (0 <= fst (random53 g) < 2 ^ 53)%Z;
  randbelow : Z -> rng -> Z * rng;
  randbelow_range : forall n g, (0 < n)%Z -> (0 <= fst (randbelow n g) < n)%Z
}.

Section Random.
Context {rng : Type} `{PyRandom rng}.

(** [random.random()]: a multiple of [2^-53] in [[0, 1)]. *)
Definition random : M rng float :=
  fun g => let (k, g') := random53 g in inr (Qred (k # (2 ^ 53)), g').

(** [random.randint(a, b)]: uniform in [[a, b]]; an empty range raises. *)
Definition randint (a b : Z) : M rng Z :=
  fun g => if (a <=? b)%Z
           then let (r, g') := randbelow (b - a + 1) g in inr ((a + r)%Z, g')
           else inl ValueError.

End Random.

(** ** [datetime] and [timedelta]

    A naive [datetime] is a number of microseconds since 0001-01-01T00:00:00
    and a [timedelta] a signed number of microseconds; both types have a
    bounded range and leaving it raises [OverflowError]. *)

Definition datetime := Z.
Definition timedelta := Z.
(** A calendar date as its proleptic Gregorian ordinal ([date.toordinal()]);
    the text ['%Y-%m-%d'] stored in the tables is a one-to-one rendering of
    it, so [strptime] of [strftime] is the midnight of the same day. *)
Definition date := Z.

Definition US_PER_DAY : Z := 86400 * 1000000.
Definition MAXORDINAL : Z := 3652059.
Definition MAX_DELTA_DAYS : Z := 999999999.

Definition is_leap (y : Z) : bool :=
  ((y mod 4 =? 0) && (negb (y mod 100 =? 0) || (y mod 400 =? 0)))%Z.

Definition days_before_year (y : Z) : Z :=
  let y1 := (y - 1)%Z in (y1 * 365 + y1 / 4 - y1 / 100 + y1 / 400)%Z.

Definition days_before_month (y m : Z) : Z :=
  (nth (Z.to_nat (m - 1)) [0; 31; 59; 90; 120; 151; 181; 212; 243; 273; 304; 334] 0
   + (if (2 <? m) && is_leap y then 1 else 0))%Z.

Definition ymd2ord (y m d : Z) : date :=
  (days_before_year y + days_before_month y m + d)%Z.

(** [datetime(y, m, d)] *)
Definition mk_datetime (y m d : Z) : datetime := ((ymd2ord y m d - 1) * US_PER_DAY)%Z.

Definition valid_datetime (t : Z) : bool :=
  ((0 <=? t) && (t <? MAXORDINAL * US_PER_DAY))%Z.

Definition valid_timedelta (d : Z) : bool :=
  ((- MAX_DELTA_DAYS * US_PER_DAY <=? d) && (d <? (MAX_DELTA_DAYS + 1) * US_PER_DAY))%Z.

(** [a - b] on two datetimes. *)
Definition datetime_sub (a b : datetime) : timedelta := (a - b)%Z.

(** [delta.days]: the normalised day field, a floor division. *)
Definition td_days (d : timedelta) : Z := (d / US_PER_DAY)%Z.

(** [timedelta(days=n)] for an [int]. *)
Definition timedelta_of_int_days (n : Z) : exn + timedelta :=
  let d := (n * US_PER_DAY)%Z in
  if valid_timedelta d then inr d else inl OverflowError.

(** [timedelta(days=x)] for a [float]: the value in microseconds, rounded to
    the nearest microsecond, ties to even. *)
Definition timedelta_of_days (x : float) : exn + timedelta :=
  let d := rint (x * inject_Z US_PER_DAY) in
  if valid_timedelta d then inr d else inl OverflowError.

(** [t + d] *)
Definition datetime_add (t : datetime) (d : timedelta) : exn + datetime :=
  let r := (t + d)%Z in
  if valid_datetime r then inr r else inl OverflowError.

(** [t.strftime('%Y-%m-%d')] and [datetime.strptime(s, '%Y-%m-%d')] *)
Definition strftime (t : datetime) : date := (t / US_PER_DAY + 1)%Z.
Definition strptime (d : date) : datetime := ((d - 1) * US_PER_DAY)%Z.

(** ** Text of identifiers: [f"{n:0{w}d}"] for a non-negative [n]. *)

Definition str_of_int (n : Z) : string := NilZero.string_of_int (Z.to_int n).

Fixpoint zeros (k : nat) : string :=
  match k with
  | O => EmptyString
  | S k' => String "0" (zeros k')
  end.

Definition fmt_0d (width : nat) (n : Z) : string :=
  let s := str_of_int n in
  (zeros (width - String.length s) ++ s)%string.

(** ** The four tables *)

Module Product.
Record t := mk {
  product_id : string;
  category : string;
  name : string;
  unit_price : float;
  avg_cogs : float;
  active_since : string
}.
End Product.

Module Customer.
Record t := mk {
  customer_id : string;
  segment : string;
  acquisition_date : option date;
  channel : option string;
  country : string;
  status : string;
  company_name : option string;
  account_tier : option string
}.
End Customer.

Module Order.
Record t := mk {
  order_id : string;
  customer_id : string;
  order_date : option date;
  subtotal : float;
  discount_percent : Z;
  discount_amount : float;
  revenue : float;
  total_cogs : option float;
  profit : option float;
  num_items : Z
}.
End Order.

(** The monetary columns [cogs] and [profit] of a line item are typed like
    the nullable columns of an order, so that their never being null is a
    statement about the code and not about the type. *)
Module LineItem.
Record t := mk {
  line_item_id : string;
  order_id : string;
  customer_id : string;
  product_id : string;
  product_name : string;
  category : string;
  quantity : Z;
  unit_price : float;
  subtotal : float;
  discount_amount : float;
  revenue : float;
  cogs : option float;
  profit : option float;
  order_date : option date
}.
End LineItem.

(** The attributes of a [KikapuDataGenerator] instance ([None] until the
    corresponding method has run). *)
Record KikapuDataGenerator := mkGenerator {
  products : option (list Product.t);
  customers : option (list Customer.t);
  orders : option (list Order.t);
  order_line_items : option (list LineItem.t)
}.

(** [KikapuDataGenerator.__init__] *)
Definition init : KikapuDataGenerator := mkGenerator None None None None.

(** ** [weighted_random] (lines 24-32) *)

(** The [for] loop: [Some i] when it returns from inside, [None] when it
    runs off the end of [weights]. *)
Fixpoint weighted_walk (i : Z) (rand : float) (weights : list Z) : option Z :=
  match weights with
  | [] => None
  | weight :: rest =>
      if flt rand (inject_Z weight) then Some i
      else weighted_walk (i + 1) (fsub rand (of_int weight)) rest
  end.

(** The body after the draw: [rand = random.random() * total]. *)
Definition weighted_pick (weights : list Z) (u : float) : Z :=
  let total := fold_left Z.add weights 0%Z in
  let rand := fmul u (of_int total) in
  match weighted_walk 0 rand weights with
  | Some i => i
  | None => (Z.of_nat (List.length weights) - 1)%Z
  end.

(** ** [random_date] (lines 34-38), after the draw [u = random.random()] *)
Definition random_date_at (start_date end_date : datetime) (u : float) : exn + datetime :=
  let delta := datetime_sub end_date start_date in
  let random_days := fmul u (of_int (td_days delta)) in
  match timedelta_of_days random_days with
  | inl e => inl e
  | inr td => datetime_add start_date td
  end.

(** ** [generate_products] (lines 40-68) *)
Definition products_data : list Product.t :=
  [ Product.mk "P001" "Beverage" "Organic Green Tea" (literal 1899 100) (literal 850 100) "2021-03-01";
    Product.mk "P002" "Beverage" "Herbal Wellness Blend" (literal 2299 100) (literal 1020 100) "2021-06-15";
    Product.mk "P003" "Snack" "Superfood Energy Bars" (literal 2499 100) (literal 1200 100) "2021-01-10";
    Product.mk "P004" "Snack" "Organic Trail Mix" (literal 1599 100) (literal 780 100) "2021-08-01";
    Product.mk "P005" "Supplement" "Vitamin D3 Gummies" (literal 2999 100) (literal 1450 100) "2022-01-01";
    Product.mk "P006" "Supplement" "Probiotic Blend" (literal 3499 100) (literal 1680 100) "2022-03-15";
    Product.mk "P007" "Personal Care" "Natural Face Serum" (literal 3999 100) (literal 1800 100) "2022-06-01";
    Product.mk "P008" "Personal Care" "Organic Body Lotion" (literal 2699 100) (literal 1250 100) "2022-08-10";
    Product.mk "P009" "Beverage" "Detox Tea Collection" (literal 3299 100) (literal 1500 100) "2023-01-05";
    Product.mk "P010" "Snack" "Keto-Friendly Crackers" (literal 1999 100) (literal 950 100) "2023-04-20" ]%string.

Definition generate_products (self : KikapuDataGenerator)
  : list Product.t * KikapuDataGenerator :=
  (products_data,
   mkGenerator (Some products_data) (customers self) (orders self) (order_line_items self)).

(** ** The order arithmetic (lines 191-205 and 231-236)

    [selected_products] is the list of [(product, quantity)] pairs of one
    order.  The values below are the local variables of the loop body before
    any rounding. *)

Definition selection := list (Product.t * Z).

Definition item_subtotal (item : Product.t * Z) : float :=
  fmul (Product.unit_price (fst item)) (of_int (snd item)).

Definition item_cogs (item : Product.t * Z) : float :=
  fmul (Product.avg_cogs (fst item)) (of_int (snd item)).

Definition order_subtotal (selected_products : selection) : float :=
  py_sum (map item_subtotal selected_products).

Definition order_discount_amount (selected_products : selection) (discount_percent : Z) : float :=
  fmul (order_subtotal selected_products) (int_truediv discount_percent 100).

Definition order_revenue (selected_products : selection) (discount_percent : Z) : float :=
  fsub (order_subtotal selected_products)
       (order_discount_amount selected_products discount_percent).

Definition order_total_cogs (selected_products : selection) : float :=
  py_sum (map item_cogs selected_products).

Definition order_profit (selected_products : selection) (discount_percent : Z) : float :=
  fsub (order_revenue selected_products discount_percent)
       (order_total_cogs selected_products).

Definition item_discount (selected_products : selection) (discount_percent : Z)
  (item : Product.t * Z) : float :=
  fmul (fdiv (item_subtotal item) (order_subtotal selected_products))
       (order_discount_amount selected_products discount_percent).

Definition item_revenue (selected_products : selection) (discount_percent : Z)
  (item : Product.t * Z) : float :=
  fsub (item_subtotal item) (item_discount selected_products discount_percent item).

Definition item_profit (selected_products : selection) (discount_percent : Z)
  (item : Product.t * Z) : float :=
  fsub (item_revenue selected_products discount_percent item) (item_cogs item).

(** [enumerate(xs, 1)] *)
Definition enumerate1 {A} (xs : list A) : list (Z * A) :=
  combine (py_range 1 (Z.of_nat (List.length xs) + 1)) xs.

Section Records.
Context {R : Rounding}.

(** The order record (lines 208-226): [u_date] and [u_cogs] are the two
    draws of the data-quality block. *)
Definition make_order (order_id : Z) (customer_id : string) (order_date : datetime)
  (selected_products : selection) (discount_percent : Z) (u_date u_cogs : float)
  : Order.t :=
  let null_cogs := flt u_cogs (literal 3 100) in
  Order.mk
    ("ORD" ++ fmt_0d 7 order_id)
    customer_id
    (if flt u_date (literal 5 1000) then None else Some (strftime order_date))
    (round_ (order_subtotal selected_products) 2)
    discount_percent
    (round_ (order_discount_amount selected_products discount_percent) 2)
    (round_ (order_revenue selected_products discount_percent) 2)
    (if null_cogs then None else Some (round_ (order_total_cogs selected_products) 2))
    (if null_cogs then None
     else Some (round_ (order_profit selected_products discount_percent) 2))
    (Z.of_nat (List.length selected_products)).

(** One line item (lines 232-253). *)
Definition make_line_item (order_id : Z) (customer_id : string) (order : Order.t)
  (selected_products : selection) (discount_percent : Z)
  (entry : Z * (Product.t * Z)) : LineItem.t :=
  let '(item_idx, item) := entry in
  LineItem.mk
    ("LI" ++ fmt_0d 7 order_id ++ "_" ++ str_of_int item_idx)
    (Order.order_id order)
    customer_id
    (Product.product_id (fst item))
    (Product.name (fst item))
    (Product.category (fst item))
    (snd item)
    (Product.unit_price (fst item))
    (round_ (item_subtotal item) 2)
    (round_ (item_discount selected_products discount_percent item) 2)
    (round_ (item_revenue selected_products discount_percent item) 2)
    (Some (round_ (item_cogs item) 2))
    (Some (round_ (item_profit selected_products discount_percent item) 2))
    (Order.order_date order).

Definition make_line_items (order_id : Z) (customer_id : string) (order : Order.t)
  (selected_products : selection) (discount_percent : Z) : list LineItem.t :=
  map (make_line_item order_id customer_id order selected_products discount_percent)
      (enumerate1 selected_products).

End Records.

(** ** The generator methods *)

Definition channels : list string :=
  ["Paid Ads"; "Organic Social"; "Email"; "Referral"; "SEO"; "Sales"]%string.
Definition countries : list string := ["US"; "UK"; "CA"; "AU"; "DE"]%string.
Definition statuses : list string := ["Active"; "Churned"; "At Risk"]%string.
Definition account_tiers : list string := ["Enterprise"; "Mid-Market"; "SMB"]%string.

(** Accumulated output of [generate_orders]: [orders_data],
    [line_items_data] and the running [order_id]. *)
Definition order_acc : Type := list Order.t * list LineItem.t * Z.

Record Datasets := mkDatasets {
  ds_products : option (list Product.t);
  ds_customers : option (list Customer.t);
  ds_orders : option (list Order.t);
  ds_order_line_items : option (list LineItem.t)
}.

Section Generation.
Context {rng : Type} `{PyRandom rng} {R : Rounding}.

Definition weighted_random (weights : list Z) : M rng Z :=
  u <- random ;;
  ret (weighted_pick weights u).

Definition random_date (start_date end_date : datetime) : M rng datetime :=
  u <- random ;;
  lift (random_date_at start_date end_date u).

(** One iteration of the D2C loop (lines 83-115). *)
Definition d2c_customer (start_date end_date : datetime) (i : Z) : M rng Customer.t :=
  acq_date <- random_date start_date end_date ;;
  let days_since_acq := td_days (datetime_sub end_date acq_date) in
  si <- weighted_random
          (if (days_since_acq <? 90)%Z then [80; 15; 5]
           else if (days_since_acq <? 365)%Z then [60; 30; 10]
           else [40; 50; 10])%Z ;;
  status <- lift (py_index statuses si) ;;
  ci <- weighted_random [30; 25; 15; 12; 15; 3]%Z ;;
  channel <- lift (py_index channels ci) ;;
  ki <- weighted_random [50; 20; 15; 10; 5]%Z ;;
  country <- lift (py_index countries ki) ;;
  u_date <- random ;;
  u_channel <- random ;;
  ret (Customer.mk
         ("C" ++ fmt_0d 6 i)
         "D2C"
         (if flt u_date (literal 2 100) then None else Some (strftime acq_date))
         (if flt u_channel (literal 1 100) then None else Some channel)
         country
         status
         None
         None).

(** One iteration of the B2B loop (lines 119-133). *)
Definition b2b_customer (end_date : datetime) (i : Z) : M rng Customer.t :=
  acq_date <- random_date (mk_datetime 2021 6 1) end_date ;;
  ki <- weighted_random [40; 30; 15; 10; 5]%Z ;;
  country <- lift (py_index countries ki) ;;
  ti <- weighted_random [20; 50; 30]%Z ;;
  tier <- lift (py_index account_tiers ti) ;;
  ret (Customer.mk
         ("B" ++ fmt_0d 5 i)
         "B2B"
         (Some (strftime acq_date))
         (Some "Sales"%string)
         country
         "Active"
         (Some ("Business Customer " ++ str_of_int i)%string)
         (Some tier)).

Definition generate_customers (self : KikapuDataGenerator) (num_d2c num_b2b : Z)
  : M rng (list Customer.t * KikapuDataGenerator) :=
  let start_date := mk_datetime 2022 1 1 in
  let end_date := mk_datetime 2024 11 30 in
  d2c <- mapM (d2c_customer start_date end_date) (py_range 1 (num_d2c + 1)) ;;
  b2b <- mapM (b2b_customer end_date) (py_range 1 (num_b2b + 1)) ;;
  let customers_data := (d2c ++ b2b)%list in
  ret (customers_data,
       mkGenerator (products self) (Some customers_data) (orders self)
                   (order_line_items self)).

(** Lines 187-189: one product and its quantity. *)
Definition select_product (catalog : list Product.t) (is_b2b : bool)
  : M rng (Product.t * Z) :=
  k <- randint 0 (Z.of_nat (List.length catalog) - 1) ;;
  product <- lift (py_index catalog k) ;;
  quantity <- (if is_b2b then randint 10 60 else randint 1 3) ;;
  ret (product, quantity).

(** One iteration of the order loop (lines 177-257). *)
Definition generate_order (catalog : list Product.t) (customer : Customer.t)
  (is_b2b : bool) (acq_date end_date : datetime) (acc : order_acc)
  : M rng order_acc :=
  let '(orders_data, line_items_data, order_id) := acc in
  let days_since_acq := td_days (datetime_sub end_date acq_date) in
  span <- lift (timedelta_of_int_days (Z.min days_since_acq 730)) ;;
  upper <- lift (datetime_add acq_date span) ;;
  order_date <- random_date acq_date upper ;;
  num_products <- (if is_b2b then randint 3 8 else randint 1 3) ;;
  selected_products <- mapM (fun _ => select_product catalog is_b2b)
                            (py_range 0 num_products) ;;
  di <- weighted_random (if is_b2b then [20; 30; 30; 15; 5] else [70; 25; 5])%Z ;;
  discount_percent <- lift (py_index (if is_b2b then [0; 5; 10; 15; 20]
                                      else [0; 10; 15])%Z di) ;;
  u_date <- random ;;
  u_cogs <- random ;;
  let order := make_order order_id (Customer.customer_id customer) order_date
                          selected_products discount_percent u_date u_cogs in
  let items := make_line_items order_id (Customer.customer_id customer) order
                               selected_products discount_percent in
  ret ((orders_data ++ [order])%list, (line_items_data ++ items)%list,
       (order_id + 1)%Z).

(** The acquisition date used for the date arithmetic (lines 159-162). *)
Definition parse_acquisition_date (customer : Customer.t) : datetime :=
  match Customer.acquisition_date customer with
  | None => mk_datetime 2023 1 1
  | Some d => strptime d
  end.

(** One iteration of the customer loop (lines 152-257). *)
Definition customer_orders (catalog : list Product.t) (end_date : datetime)
  (acc : order_acc) (customer : Customer.t) : M rng order_acc :=
  let is_b2b := String.eqb (Customer.segment customer) "B2B" in
  let acq_date := parse_acquisition_date customer in
  num_orders <-
    (if is_b2b then randint 12 36
     else if String.eqb (Customer.status customer) "Active" then randint 2 10
     else if String.eqb (Customer.status customer) "Churned" then randint 1 3
     else randint 2 7) ;;
  foldM (fun acc _ => generate_order catalog customer is_b2b acq_date end_date acc)
        (py_range 0 num_orders) acc.

Definition generate_orders (self : KikapuDataGenerator)
  : M rng ((list Order.t * list LineItem.t) * KikapuDataGenerator) :=
  match customers self, products self with
  | Some customer_table, Some catalog =>
      ' (orders_data, line_items_data, _) <-
          foldM (customer_orders catalog (mk_datetime 2024 11 30))
                customer_table ([], [], 1%Z) ;;
      ret ((orders_data, line_items_data),
           mkGenerator (products self) (customers self) (Some orders_data)
                       (Some line_items_data))
  | _, _ => raise ValueError
  end.

(** [generate_all] with the two customer counts exposed (the method itself
    calls [generate_customers()] with its defaults); the summary statistics
    it prints are not part of the tables and are left out. *)
Definition generate_all_with (self : KikapuDataGenerator) (num_d2c num_b2b : Z)
  : M rng (Datasets * KikapuDataGenerator) :=
  let '(_, self1) := generate_products self in
  ' (_, self2) <- generate_customers self1 num_d2c num_b2b ;;
  ' (_, self3) <- generate_orders self2 ;;
  ret (mkDatasets (products self3) (customers self3) (orders self3)
                  (order_line_items self3), self3).

Definition generate_all (self : KikapuDataGenerator)
  : M rng (Datasets * KikapuDataGenerator) :=
  generate_all_with self 50000 200.

(** The script (lines 388-396): seed the module generator, build a fresh
    [KikapuDataGenerator], generate.  [ambient] is whatever state the
    module generator was in before [random.seed]. *)
Definition run (seed_value num_d2c num_b2b : Z) (ambient : rng) : exn + Datasets :=
  match generate_all_with init num_d2c num_b2b (seed seed_value) with
  | inl e => inl e
  | inr ((datasets, _), _) => inr datasets
  end.

Definition main (ambient : rng) : exn + Datasets := run 42 50000 200 ambient.

End Generation.

(** ** The methods that read the tables

    The tables are [pandas] data frames.  A [DataFrame] built from an empty
    list of rows has no columns, and selecting a column it does not have
    raises [KeyError]; [Series.sum] on a column of floats is the library's
    and is an interface here.  Texts are byte strings in UTF-8. *)

Inductive error : Type :=
| Raised (e : exn)
| KeyError (column : string)
| AssertionError.

(** [df[name]] *)
Definition column {Row A : Type} (name : string) (field : Row -> A) (table : list Row)
  : error + list A :=
  match table with
  | [] => inl (KeyError name)
  | _ :: _ => inr (map field table)
  end.

(** [series.isna().sum()] *)
Definition isna_sum {A : Type} (col : list (option A)) : Z :=
  Z.of_nat (List.length (filter (fun v => match v with None => true | Some _ => false end) col)).

(** [len(df[df[name] == value])] on a column of texts *)
Definition count_equal {Row : Type} (name : string) (field : Row -> string) (value : string)
  (table : list Row) : error + Z :=
  match column name field table with
  | inl e => inl e
  | inr col => inr (Z.of_nat (List.length (filter (fun s => String.eqb s value) col)))
  end.

Class Pandas := series_sum : list float -> float.

Definition bind_error {A B : Type} (r : error + A) (f : A -> error + B) : error + B :=
  match r with
  | inl e => inl e
  | inr a => f a
  end.

(** Methods that may raise any of [error]. *)
Definition ME (S A : Type) : Type := S -> error + (A * S).

Definition retE {S A} (a : A) : ME S A := fun s => inr (a, s).

Definition bindE {S A B} (m : ME S A) (f : A -> ME S B) : ME S B :=
  fun s => match m s with
           | inl e => inl e
           | inr (a, s') => f a s'
           end.

Definition of_M {S A} (m : M S A) : ME S A :=
  fun s => match m s with
           | inl e => inl (Raised e)
           | inr r => inr r
           end.

Definition liftE {S A} (r : error + A) : ME S A :=
  fun s => match r with inl e => inl e | inr a => inr (a, s) end.

(** *** [generate_all] with its statistics (lines 267-316) *)

Record Stats := mkStats {
  total_customers : Z;
  d2c_customers : Z;
  b2b_customers : Z;
  total_orders : Z;
  total_line_items : Z;
  total_revenue : float;
  date_range : string * string
}.

(** Lines 276-293: the statistics of the tables the generator holds. *)
Definition statistics `{Pandas} (self : KikapuDataGenerator) : error + Stats :=
  let total_customers :=
    match customers self with Some t => Z.of_nat (List.length t) | None => 0%Z end in
  bind_error (match customers self with
              | Some t => count_equal "segment" Customer.segment "D2C" t
              | None => inr 0%Z
              end) (fun d2c_customers =>
  bind_error (match customers self with
              | Some t => count_equal "segment" Customer.segment "B2B" t
              | None => inr 0%Z
              end) (fun b2b_customers =>
  let total_orders :=
    match orders self with Some t => Z.of_nat (List.length t) | None => 0%Z end in
  let total_line_items :=
    match order_line_items self with Some t => Z.of_nat (List.length t) | None => 0%Z end in
  bind_error (match orders self with
              | Some t => bind_error (column "revenue" Order.revenue t)
                                     (fun col => inr (series_sum col))
              | None => inr 0%Q
              end) (fun total_revenue =>
  inr (mkStats total_customers d2c_customers b2b_customers total_orders
               total_line_items total_revenue ("2022-01-01", "2024-11-30")%string)))).

Section Reports.
Context {rng : Type} `{PyRandom rng} {R : Rounding} `{Pandas}.

(** [generate_all]: the three generation methods, then the statistics; the
    returned dictionary holds the four tables and ['stats']. *)
Definition generate_all_stats (self : KikapuDataGenerator)
  : ME rng ((Datasets * Stats) * KikapuDataGenerator) :=
  bindE (of_M (generate_all self)) (fun out =>
  bindE (liftE (statistics (snd out))) (fun stats =>
  retE ((fst out, stats), snd out))).

End Reports.

(** *** [get_data_quality_report] (lines 348-380) *)

Definition newline : string := String "010"%char EmptyString.

(** The bullet U+2022. *)
Definition bullet : string :=
  String "226"%char (String "128"%char (String "162"%char EmptyString)).

(** [s * n] *)
Fixpoint str_mul (s : string) (n : nat) : string :=
  match n with
  | O => EmptyString
  | S n' => (s ++ str_mul s n')%string
  end.

(** [f"{x:.2f}"] for a non-negative [x]: the exact value rounded to two
    decimals, ties to even. *)
Definition fmt_2f (x : float) : string :=
  let n := rint (x * 100) in
  (str_of_int (n / 100) ++ "." ++ fmt_0d 2 (n mod 100))%string.

(** [count / n * 100] for a count of [numpy.int64] and an [int]. *)
Definition percentage (count n : Z) : float :=
  fmul (fdiv (of_int count) (of_int n)) (of_int 100).

(** One line of the report, in its two pieces. *)
Definition report_line (label : string) (count n : Z) : string :=
  ("  " ++ bullet ++ " " ++ label ++ ": " ++ str_of_int count ++ " "
   ++ "(" ++ fmt_2f (percentage count n) ++ "%)" ++ newline)%string.

Definition render_report (missing_acq_dates missing_channels n_customers
                          missing_order_dates missing_cogs n_orders : Z) : string :=
  (newline ++ str_mul "=" 60 ++ newline
   ++ "Data Quality Report" ++ newline
   ++ str_mul "=" 60 ++ newline ++ newline
   ++ "CUSTOMERS:" ++ newline
   ++ report_line "Missing acquisition dates" missing_acq_dates n_customers
   ++ report_line "Missing channels" missing_channels n_customers ++ newline
   ++ "ORDERS:" ++ newline
   ++ report_line "Missing order dates" missing_order_dates n_orders
   ++ report_line "Missing COGS" missing_cogs n_orders ++ newline
   ++ "NOTE: These data quality issues are intentional and reflect" ++ newline
   ++ "real-world fragmented data scenarios." ++ newline
   ++ str_mul "=" 60 ++ newline)%string.

Definition get_data_quality_report (self : KikapuDataGenerator) : error + string :=
  match customers self, orders self with
  | Some customer_table, Some orders_table =>
      bind_error (column "acquisition_date" Customer.acquisition_date customer_table)
        (fun acquisition_dates =>
      let missing_acq_dates := isna_sum acquisition_dates in
      bind_error (column "channel" Customer.channel customer_table) (fun channels =>
      let missing_channels := isna_sum channels in
      let n_customers := Z.of_nat (List.length customer_table) in
      bind_error (column "order_date" Order.order_date orders_table) (fun order_dates =>
      let missing_order_dates := isna_sum order_dates in
      bind_error (column "total_cogs" Order.total_cogs orders_table) (fun cogs =>
      let missing_cogs := isna_sum cogs in
      let n_orders := Z.of_nat (List.length orders_table) in
      inr (render_report missing_acq_dates missing_channels n_customers
                         missing_order_dates missing_cogs n_orders)))))
  | _, _ => inr "No data generated yet"%string
  end.

(** *** [save_to_csv] (lines 318-346)

    The file system is outside the repository: the method is given whether
    the directory exists and returns the operations it performs, in order;
    what is printed is left out. *)

Inductive table : Type :=
| ProductsTable (rows : list Product.t)
| CustomersTable (rows : list Customer.t)
| OrdersTable (rows : list Order.t)
| LineItemsTable (rows : list LineItem.t).

Inductive operation : Type :=
| Makedirs (path : string)
| ToCsv (path : string) (frame : table).

Section Saving.
Context {rng : Type} `{PyRandom rng} {R : Rounding} `{Pandas}.

Definition save_to_csv (self : KikapuDataGenerator) (output_dir : string)
  (dir_exists : bool) : ME rng (list operation * KikapuDataGenerator) :=
  bindE (match products self, customers self, orders self, order_line_items self with
         | Some _, Some _, Some _, Some _ => retE self
         | _, _, _, _ => bindE (generate_all_stats self) (fun out => retE (snd out))
         end) (fun self =>
  match products self, customers self, orders self, order_line_items self with
  | Some products_table, Some customer_table, Some orders_table, Some line_items_table =>
      retE ((if dir_exists then [] else [Makedirs output_dir])
            ++ [ ToCsv (output_dir ++ "/kikapu_products.csv") (ProductsTable products_table);
                 ToCsv (output_dir ++ "/kikapu_customers.csv") (CustomersTable customer_table);
                 ToCsv (output_dir ++ "/kikapu_orders.csv") (OrdersTable orders_table);
                 ToCsv (output_dir ++ "/kikapu_order_line_items.csv")
                       (LineItemsTable line_items_table) ],
            self)%list
  | _, _, _, _ => fun _ => inl AssertionError
  end).

(** The script (lines 388-399): seed, generate, save. *)
Definition script (ambient : rng) (dir_exists : bool)
  : error + ((Datasets * Stats) * list operation) :=
  match generate_all_stats init (seed 42) with
  | inl e => inl e
  | inr (datasets, generator, g) =>
      match save_to_csv generator "./kikapu_data" dir_exists g with
      | inl e => inl e
      | inr ((operations, _), _) => inr (datasets, operations)
      end
  end.

End Saving.

(** ** A scripted generator

    The draws are read off a list, reduced into the range the interface
    promises; an exhausted list keeps answering 0.  It drives the methods
    along a chosen path. *)

Definition scripted_random53 (g : list Z) : Z * list Z :=
  match g with
  | [] => (0, [])
  | k :: g' => (k mod 2 ^ 53, g')
  end%Z.

Definition scripted_randbelow (n : Z) (g : list Z) : Z * list Z :=
  match g with
  | [] => (0, [])
  | r :: g' => (r mod n, g')
  end%Z.

(* ===================================================================== *)
(** * Vocabulary of the statements                                        *)
(* ===================================================================== *)

(** ** Weighted selection *)

Definition sumZ (xs : list Z) : Z := fold_right Z.add 0%Z xs.
Definition prefix_sum (weights : list Z) (i : Z) : Z := sumZ (firstn (Z.to_nat i) weights).
Definition weight_at (weights : list Z) (i : Z) : Z := nth (Z.to_nat i) weights 0%Z.
Definition is_draw (u : Q) : Prop := exists k : Z, (0 <= k < 2 ^ 53)%Z /\ u == k # (2 ^ 53).
Definition draw_value (weights : list Z) (u : float) : float :=
  fmul u (of_int (fold_left Z.add weights 0%Z)).
Definition selected_by_prefix (weights : list Z) (r : float) (i : Z) : Prop :=
  (0 <= i < Z.of_nat (List.length weights))%Z /\
  (inject_Z (prefix_sum weights i) <= r
     < inject_Z (prefix_sum weights i + weight_at weights i)).

(** ** Runs of the methods *)

(** [returns m Q]: from every state [m] returns normally, with a value
    satisfying [Q]. *)
Definition returns {S A} (m : M S A) (Q : A -> Prop) : Prop :=
  forall s, exists a s', m s = inr (a, s') /\ Q a.

Definition END_DATE : datetime := mk_datetime 2024 11 30.

(** A customer row as [generate_customers] writes it: the acquisition date
    is missing or lies in the acquisition window. *)
Definition customer_ok (customer : Customer.t) : Prop :=
  match Customer.acquisition_date customer with
  | None => True
  | Some d => (ymd2ord 2021 6 1 <= d <= ymd2ord 2024 11 30)%Z
  end.

Definition is_b2b_customer (customer : Customer.t) : bool :=
  String.eqb (Customer.segment customer) "B2B".

Definition valid_item (catalog : list Product.t) (is_b2b : bool)
  (item : Product.t * Z) : Prop :=
  In (fst item) catalog /\
  (if is_b2b then 10 <= snd item <= 60 else 1 <= snd item <= 3)%Z.

Definition valid_selection (catalog : list Product.t) (is_b2b : bool)
  (selected_products : selection) : Prop :=
  Forall (valid_item catalog is_b2b) selected_products /\
  (if is_b2b then 3 <= Z.of_nat (List.length selected_products) <= 8
   else 1 <= Z.of_nat (List.length selected_products) <= 3)%Z.

Definition valid_discount (is_b2b : bool) (discount_percent : Z) : Prop :=
  In discount_percent (if is_b2b then [0; 5; 10; 15; 20] else [0; 10; 15])%Z.

(** The window [random_date] is called with for an order of [customer]. *)
Definition in_sampling_window (customer : Customer.t) (order_date : datetime) : Prop :=
  let acq_date := parse_acquisition_date customer in
  let days_since_acq := td_days (datetime_sub END_DATE acq_date) in
  (acq_date <= order_date <= acq_date + Z.min days_since_acq 730 * US_PER_DAY)%Z.

(** One pass through the order loop: the order appended to [orders_data]
    and the line items appended to [line_items_data], with the draws they
    were computed from. *)
Record order_draws := mkDraws {
  dr_customer : Customer.t;
  dr_order_id : Z;
  dr_order_date : datetime;
  dr_selected : selection;
  dr_discount_percent : Z;
  dr_u_date : float;
  dr_u_cogs : float
}.

Section Emitted.
Context {R : Rounding}.

Definition order_of (d : order_draws) : Order.t :=
  make_order (dr_order_id d) (Customer.customer_id (dr_customer d)) (dr_order_date d)
             (dr_selected d) (dr_discount_percent d) (dr_u_date d) (dr_u_cogs d).

Definition line_items_of (d : order_draws) : list LineItem.t :=
  make_line_items (dr_order_id d) (Customer.customer_id (dr_customer d)) (order_of d)
                  (dr_selected d) (dr_discount_percent d).

Definition valid_draws (catalog : list Product.t) (d : order_draws) : Prop :=
  let is_b2b := is_b2b_customer (dr_customer d) in
  valid_selection catalog is_b2b (dr_selected d) /\
  valid_discount is_b2b (dr_discount_percent d) /\
  is_draw (dr_u_date d) /\ is_draw (dr_u_cogs d) /\
  in_sampling_window (dr_customer d) (dr_order_date d).

(** The two tables are the orders and the line items of a list of passes. *)
Definition tables_of (ds : list order_draws) : list Order.t * list LineItem.t :=
  (map order_of ds, List.concat (map line_items_of ds)).

(** What the accumulated tables are after any number of passes. *)
Definition acc_ok (catalog : list Product.t) (customer_table : list Customer.t)
  (acc : order_acc) : Prop :=
  exists ds : list order_draws,
    (fst (fst acc), snd (fst acc)) = tables_of ds /\
    Forall (fun d => valid_draws catalog d /\ In (dr_customer d) customer_table) ds.

End Emitted.

(** What a complete run leaves in the four tables. *)
Definition generated {R : Rounding} (datasets : Datasets) : Prop :=
  exists (customer_table : list Customer.t) (ds : list order_draws),
    ds_products datasets = Some products_data /\
    ds_customers datasets = Some customer_table /\
    ds_orders datasets = Some (map order_of ds) /\
    ds_order_line_items datasets = Some (List.concat (map line_items_of ds)) /\
    Forall customer_ok customer_table /\
    Forall (fun d => valid_draws products_data d /\ In (dr_customer d) customer_table) ds.

(** The claim of the specification about the persisted fields of an order:
    the stored revenue is the rounded difference of the stored subtotal and
    the stored discount, and the stored profit the rounded difference of the
    stored revenue and the stored cost. *)
Definition persisted_equations {R : Rounding} (o : Order.t) : Prop :=
  (Order.revenue o == round_ (fsub (Order.subtotal o) (Order.discount_amount o)) 2)%Q /\
  (forall c p : float,
      Order.total_cogs o = Some c -> Order.profit o = Some p ->
      (p == round_ (fsub (Order.revenue o) c) 2)%Q).

Definition first_order (r : exn + Datasets) : option Order.t :=
  match r with
  | inr datasets =>
      match ds_orders datasets with
      | Some (o :: _) => Some o
      | _ => None
      end
  | inl _ => None
  end.

(** The line items of an order: the rows of the line-item table that carry
    its [order_id]. *)
Definition line_items_for (r : exn + Datasets) (o : Order.t) : list LineItem.t :=
  match r with
  | inr datasets =>
      match ds_order_line_items datasets with
      | Some rows => filter (fun li => String.eqb (LineItem.order_id li) (Order.order_id o)) rows
      | None => []
      end
  | inl _ => []
  end.


Definition c5_weights : list Z := [1; 2 ^ 53 + 4; 8]%Z.
Definition c5_draw : Z := (2 ^ 53 - 8)%Z.

(** ** Sums over the line items of an order *)

Definition Qsum (xs : list Q) : Q := fold_right Qplus 0%Q xs.

(** [len(xs)] as a rational. *)
Definition lenQ {A} (xs : list A) : Q := inject_Z (Z.of_nat (List.length xs)).

Definition cogs_value (li : LineItem.t) : Q :=
  match LineItem.cogs li with Some c => c | None => 0%Q end.

(** The claim of the specification on the sums over the line items of an
    order, with the tolerance [tol] on each field. *)
Definition sums_reproduce (tol : Q) (o : Order.t) (rows : list LineItem.t) : Prop :=
  (Qabs (Qsum (map LineItem.subtotal rows) - Order.subtotal o) <= tol)%Q /\
  (Qabs (Qsum (map LineItem.revenue rows) - Order.revenue o) <= tol)%Q /\
  (forall c, Order.total_cogs o = Some c ->
             (Qabs (Qsum (map cogs_value rows) - c) <= tol)%Q).

(** A rounding to two decimals stays within half a cent, up to the error of
    the binary representation. *)
Definition round_close (R : Rounding) : Prop :=
  forall x : float, (Qabs x <= 8388608)%Q ->
    (Qabs (round_ x 2 - x) <= (1 # 200) + (1 # 536870912))%Q.

(** ** The layout of the tables *)

Open Scope Z_scope.

(** The number written by a string of decimal digits. *)
Definition digits_value (s : string) : option Z :=
  option_map Z.of_int (NilZero.int_of_string s).

(** A D2C row as the [i]-th pass of the first loop of [generate_customers]
    writes it. *)
Definition d2c_row (i : Z) (c : Customer.t) : Prop :=
  Customer.customer_id c = ("C" ++ fmt_0d 6 i)%string /\
  Customer.segment c = "D2C"%string /\
  match Customer.acquisition_date c with
  | None => True
  | Some d => ymd2ord 2022 1 1 <= d <= ymd2ord 2024 11 30
  end /\
  match Customer.channel c with
  | None => True
  | Some ch => In ch channels
  end /\
  In (Customer.country c) countries /\
  In (Customer.status c) statuses /\
  Customer.company_name c = None /\
  Customer.account_tier c = None.

(** A B2B row as the [i]-th pass of the second loop writes it. *)
Definition b2b_row (i : Z) (c : Customer.t) : Prop :=
  Customer.customer_id c = ("B" ++ fmt_0d 5 i)%string /\
  Customer.segment c = "B2B"%string /\
  (exists d, Customer.acquisition_date c = Some d /\
             ymd2ord 2021 6 1 <= d <= ymd2ord 2024 11 30) /\
  Customer.channel c = Some "Sales"%string /\
  In (Customer.country c) countries /\
  Customer.status c = "Active"%string /\
  Customer.company_name c = Some ("Business Customer " ++ str_of_int i)%string /\
  (exists tier, Customer.account_tier c = Some tier /\ In tier account_tiers).

(** The customer table of [generate_customers(num_d2c, num_b2b)]: the D2C
    rows of [range(1, num_d2c + 1)], then the B2B rows of
    [range(1, num_b2b + 1)]. *)
Definition customers_layout (num_d2c num_b2b : Z) (table : list Customer.t) : Prop :=
  exists d2c b2b,
    table = (d2c ++ b2b)%list /\
    Forall2 d2c_row (py_range 1 (num_d2c + 1)) d2c /\
    Forall2 b2b_row (py_range 1 (num_b2b + 1)) b2b.

(** The number of orders the order loop draws for a customer (lines
    165-173). *)
Definition orders_in_range (c : Customer.t) (n : Z) : Prop :=
  if is_b2b_customer c then 12 <= n <= 36
  else if String.eqb (Customer.status c) "Active" then 2 <= n <= 10
  else if String.eqb (Customer.status c) "Churned" then 1 <= n <= 3
  else 2 <= n <= 7.

(** The passes of the order loop for one customer. *)
Definition block_ok (catalog : list Product.t) (c : Customer.t)
  (block : list order_draws) : Prop :=
  orders_in_range c (Z.of_nat (List.length block)) /\
  Forall (fun d => dr_customer d = c /\ valid_draws catalog d) block.

(** The passes carry the consecutive values of the counter [order_id]. *)
Definition numbered (first : Z) (ds : list order_draws) : Prop :=
  map dr_order_id ds = py_range first (first + Z.of_nat (List.length ds)).

(** All passes of [generate_orders]: one block per row of the customer
    table, in the order of the table, numbered from 1. *)
Definition orders_layout (catalog : list Product.t) (table : list Customer.t)
  (ds : list order_draws) : Prop :=
  exists blocks,
    ds = List.concat blocks /\ Forall2 (block_ok catalog) table blocks /\ numbered 1 ds.

(** What a complete run leaves in the four tables, with the layout of the
    customer table and of the passes of the order loop. *)
Definition generated_layout {R : Rounding} (num_d2c num_b2b : Z) (datasets : Datasets) : Prop :=
  exists (customer_table : list Customer.t) (ds : list order_draws),
    ds_products datasets = Some products_data /\
    ds_customers datasets = Some customer_table /\
    ds_orders datasets = Some (map order_of ds) /\
    ds_order_line_items datasets = Some (List.concat (map line_items_of ds)) /\
    customers_layout num_d2c num_b2b customer_table /\
    orders_layout products_data customer_table ds.

(** A text without the separator ['_'] of the line-item identifiers. *)
Fixpoint no_separator (s : string) : Prop :=
  match s with
  | EmptyString => True
  | String a s' => a <> "_"%char /\ no_separator s'
  end.

(** [f"LI{order_id:07d}_{item_idx}"] *)
Definition line_item_id_of (order_id item_idx : Z) : string :=
  ("LI" ++ fmt_0d 7 order_id ++ "_" ++ str_of_int item_idx)%string.

(** The state of the three accumulators of [generate_orders] after the
    passes [ds]. *)
Definition acc_after {R : Rounding} (ds : list order_draws) (acc : order_acc) : Prop :=
  (fst (fst acc), snd (fst acc)) = tables_of ds /\
  snd acc = 1 + Z.of_nat (List.length ds).

(** A rounding to two decimals that is monotone and leaves 0 and 1 as they
    are. *)
Definition round_steady (R : Rounding) : Prop :=
  (forall x y : float, (x <= y)%Q -> (round_ x 2 <= round_ y 2)%Q) /\
  (round_ 0%Q 2 == 0)%Q /\ (round_ 1%Q 2 == 1)%Q.

(** The order of the stored amounts of an order. *)
Definition amounts_ordered (o : Order.t) : Prop :=
  (1 <= Order.subtotal o)%Q /\
  (0 <= Order.discount_amount o <= Order.subtotal o)%Q /\
  (1 <= Order.revenue o <= Order.subtotal o)%Q /\
  (forall c, Order.total_cogs o = Some c -> (1 <= c <= Order.revenue o)%Q) /\
  (forall p, Order.profit o = Some p -> (1 <= p <= Order.revenue o)%Q).

Definition profit_value (li : LineItem.t) : Q :=
  match LineItem.profit li with Some p => p | None => 0%Q end.

(** The sums of the allocated discounts and of the profits of the line
    items of an order against the order's own fields, with the tolerance
    [tol]. *)
Definition allocations_reproduce (tol : Q) (o : Order.t) (rows : list LineItem.t) : Prop :=
  (Qabs (Qsum (map LineItem.discount_amount rows) - Order.discount_amount o) <= tol)%Q /\
  (forall p, Order.profit o = Some p ->
             (Qabs (Qsum (map profit_value rows) - p) <= tol)%Q).

(** The range of the stored subtotal of an order of a B2B customer, and of
    any other customer. *)
Definition subtotal_in_segment_range (is_b2b : bool) (o : Order.t) : Prop :=
  if is_b2b
  then ((44999 # 100) <= Order.subtotal o <= (1920001 # 100))%Q
  else ((1499 # 100) <= Order.subtotal o <= (36001 # 100))%Q.

(** The order of the stored amounts of a line item. *)
Definition line_amounts_ordered (li : LineItem.t) : Prop :=
  (1 <= LineItem.subtotal li)%Q /\
  (0 <= LineItem.discount_amount li <= LineItem.subtotal li)%Q /\
  (1 <= LineItem.revenue li <= LineItem.subtotal li)%Q /\
  (exists c, LineItem.cogs li = Some c /\ (1 <= c <= LineItem.revenue li)%Q) /\
  (exists p, LineItem.profit li = Some p /\ (1 <= p <= LineItem.revenue li)%Q).

Close Scope Z_scope.

(* ===================================================================== *)
(** * Part II.  Lemmas and theorems                                       *)
(* ===================================================================== *)

(** ** Rounding to an integer *)

Lemma rint_bounds q :
  inject_Z (rint q) - (1 # 2) <= q <= inject_Z (rint q) + (1 # 2).
Proof.
  unfold rint.
  pose proof (Qfloor_le q) as Hlo. pose proof (Qlt_floor q) as Hhi.
  rewrite inject_Z_plus in Hhi. change (inject_Z 1) with 1 in Hhi.
  destruct (Qcompare_spec (q - inject_Z (Qfloor q)) (1 # 2)) as [E|L|G];
    [destruct (Z.even (Qfloor q)) | | ];
    rewrite ?inject_Z_plus; change (inject_Z 1) with 1; lra.
Qed.

Lemma rint_mono x y : x <= y -> (rint x <= rint y)%Z.
Proof.
  intros Hxy. pose proof (Qfloor_resp_le _ _ Hxy) as Hf.
  destruct (Z.eq_dec (Qfloor x) (Qfloor y)) as [E|N].
  - unfold rint. rewrite <- E.
    destruct (Qcompare_spec (x - inject_Z (Qfloor x)) (1 # 2)) as [E1|L1|G1];
      destruct (Qcompare_spec (y - inject_Z (Qfloor x)) (1 # 2)) as [E2|L2|G2];
      try destruct (Z.even (Qfloor x)); try lia; exfalso; lra.
  - assert (Hlt : (Qfloor x + 1 <= Qfloor y)%Z) by lia.
    assert (Hx : (rint x <= Qfloor x + 1)%Z).
    { unfold rint. destruct (Qcompare _ _); try destruct (Z.even _); lia. }
    assert (Hy : (Qfloor y <= rint y)%Z).
    { unfold rint. destruct (Qcompare _ _); try destruct (Z.even _); lia. }
    lia.
Qed.

Lemma rint_comp x y : x == y -> rint x = rint y.
Proof.
  intros E. apply Z.le_antisymm; apply rint_mono; rewrite E; apply Qle_refl.
Qed.

#[global] Instance rint_Proper : Proper (Qeq ==> eq) rint.
Proof. intros x y E. now apply rint_comp. Qed.

Lemma rint_Z n : rint (inject_Z n) = n.
Proof.
  unfold rint. rewrite Qfloor_Z.
  destruct (Qcompare_spec (inject_Z n - inject_Z n) (1 # 2)) as [E|L|G];
    try reflexivity; exfalso; lra.
Qed.

(** The integer strictly within one half of [q] is the rounding of [q]. *)
Lemma rint_near q n :
  inject_Z n - (1 # 2) < q < inject_Z n + (1 # 2) -> rint q = n.
Proof.
  intros [Hlo Hhi]. pose proof (rint_bounds q) as [Blo Bhi].
  assert (H1 : inject_Z (rint q) < inject_Z n + 1) by lra.
  assert (H2 : inject_Z n < inject_Z (rint q) + 1) by lra.
  change 1 with (inject_Z 1) in H1, H2. rewrite <- inject_Z_plus in H1, H2.
  rewrite <- Zlt_Qlt in H1, H2. lia.
Qed.


(** ** Powers of two and the binary logarithm *)

Lemma pow2_pos e : 0 < pow2 e.
Proof. apply Qpower_0_lt. reflexivity. Qed.

Lemma pow2_add a b : pow2 (a + b) == pow2 a * pow2 b.
Proof. apply Qpower_plus. discriminate. Qed.

Lemma pow2_le a b : (a <= b)%Z -> pow2 a <= pow2 b.
Proof. intros. apply Qpower_le_compat_l; [assumption | discriminate]. Qed.

Lemma pow2_lt a b : (a < b)%Z -> pow2 a < pow2 b.
Proof. intros. apply Qpower_lt_compat_l; [assumption | reflexivity]. Qed.

Lemma pow2_lt_inv a b : pow2 a < pow2 b -> (a < b)%Z.
Proof. intros. apply Qpower_lt_compat_l_inv with (q := 2); [assumption | reflexivity]. Qed.

Lemma pow2_Z e : (0 <= e)%Z -> pow2 e == inject_Z (2 ^ e).
Proof. intros. unfold pow2. now rewrite Zpower_Qpower. Qed.

Lemma pow2_sub a b : pow2 (a - b) == pow2 a / pow2 b.
Proof.
  assert (E : pow2 a == pow2 (a - b) * pow2 b).
  { rewrite <- pow2_add. now replace (a - b + b)%Z with a by ring. }
  rewrite E. field. apply Qnot_eq_sym, Qlt_not_eq, pow2_pos.
Qed.

Lemma pow2_succ a : pow2 (a + 1) == 2 * pow2 a.
Proof. rewrite pow2_add. change (pow2 1) with 2. ring. Qed.

Lemma ilog2_spec q : 0 < q -> pow2 (ilog2 q) <= q < pow2 (ilog2 q + 1).
Proof.
  intros Hq. destruct q as [n d].
  assert (Hn : (0 < n)%Z) by (unfold Qlt in Hq; simpl in Hq; lia).
  unfold ilog2. cbn [Qnum Qden].
  destruct (Z.log2_spec n Hn) as [Hn1 Hn2].
  destruct (Z.log2_spec (Zpos d) (Pos2Z.is_pos d)) as [Hd1 Hd2].
  set (a := Z.log2 n) in *. set (b := Z.log2 (Zpos d)) in *.
  assert (Ha : (0 <= a)%Z) by apply Z.log2_nonneg.
  assert (Hb : (0 <= b)%Z) by apply Z.log2_nonneg.
  assert (En : n # d == inject_Z n / inject_Z (Zpos d)) by apply Qmake_Qdiv.
  assert (Hdpos : 0 < inject_Z (Zpos d)) by reflexivity.
  assert (Qn1 : pow2 a <= inject_Z n) by (rewrite pow2_Z by lia; now rewrite <- Zle_Qle).
  assert (Qn2 : inject_Z n < pow2 (a + 1)).
  { rewrite pow2_Z by lia. rewrite <- Zlt_Qlt. now rewrite Z.add_1_r. }
  assert (Qd1 : pow2 b <= inject_Z (Zpos d)) by (rewrite pow2_Z by lia; now rewrite <- Zle_Qle).
  assert (Qd2 : inject_Z (Zpos d) < pow2 (b + 1)).
  { rewrite pow2_Z by lia. rewrite <- Zlt_Qlt. now rewrite Z.add_1_r. }
  pose proof (pow2_pos b) as Pb. pose proof (pow2_pos (a - b)) as Pab.
  pose proof (pow2_pos (a - b - 1)) as Pab1.
  (* q < 2^(a-b+1) and 2^(a-b-1) < q *)
  assert (Up : n # d < pow2 (a - b + 1)).
  { rewrite En. apply Qlt_shift_div_r; [assumption|].
    apply Qlt_le_trans with (pow2 (a + 1)); [assumption|].
    replace (a + 1)%Z with ((a - b + 1) + b)%Z by ring. rewrite pow2_add.
    apply Qmult_le_l; [apply pow2_pos | assumption]. }
  assert (Lo : pow2 (a - b - 1) < n # d).
  { rewrite En. apply Qlt_shift_div_l; [assumption|].
    apply Qlt_le_trans with (pow2 a); [|assumption].
    replace a with ((a - b - 1) + (b + 1))%Z at 2 by ring. rewrite pow2_add.
    apply Qmult_lt_l; [apply pow2_pos | assumption]. }
  destruct (Qle_bool (pow2 (a - b)) (n # d)) eqn:Hc.
  - apply Qle_bool_iff in Hc. split; assumption.
  - split.
    + apply Qlt_le_weak. assumption.
    + replace (a - b - 1 + 1)%Z with (a - b)%Z by ring.
      apply Qnot_le_lt. intro Hle. apply Qle_bool_iff in Hle. congruence.
Qed.

Lemma ilog2_unique q k : pow2 k <= q < pow2 (k + 1) -> ilog2 q = k.
Proof.
  intros [Hlo Hhi].
  assert (Hq : 0 < q) by (eapply Qlt_le_trans; [apply pow2_pos | eassumption]).
  destruct (ilog2_spec Hq) as [Slo Shi].
  assert (H1 : (ilog2 q < k + 1)%Z).
  { apply pow2_lt_inv. eapply Qle_lt_trans; eassumption. }
  assert (H2 : (k < ilog2 q + 1)%Z).
  { apply pow2_lt_inv. eapply Qle_lt_trans; eassumption. }
  lia.
Qed.

Lemma ilog2_mono x y : 0 < x -> x <= y -> (ilog2 x <= ilog2 y)%Z.
Proof.
  intros Hx Hxy.
  assert (Hy : 0 < y) by (eapply Qlt_le_trans; eassumption).
  destruct (ilog2_spec Hx) as [Xlo _]. destruct (ilog2_spec Hy) as [_ Yhi].
  assert (H1 : (ilog2 x < ilog2 y + 1)%Z).
  { apply pow2_lt_inv. eapply Qle_lt_trans; [eassumption|].
    eapply Qle_lt_trans; eassumption. }
  lia.
Qed.

Lemma ilog2_comp x y : 0 < x -> x == y -> ilog2 x = ilog2 y.
Proof.
  intros Hx E. symmetry. apply ilog2_unique. destruct (ilog2_spec Hx) as [Lo Hi].
  split; lra.
Qed.

(** ** Rounding to binary64 *)

Lemma rne_eq q : rne q == inject_Z (rint (q / pow2 (fexp q))) * pow2 (fexp q).
Proof. unfold rne. apply Qred_correct. Qed.

Lemma Qabs_pos_lt q : ~ q == 0 -> 0 < Qabs q.
Proof.
  intros Hq. apply Qabs_case; intros Hs.
  - destruct (Qlt_le_dec 0 q); [assumption | exfalso; apply Hq; lra].
  - destruct (Qlt_le_dec q 0); [lra | exfalso; apply Hq; lra].
Qed.

Lemma fexp_ge q : (-1074 <= fexp q)%Z.
Proof. unfold fexp. lia. Qed.

Lemma fexp_comp x y : ~ x == 0 -> x == y -> fexp x = fexp y.
Proof.
  intros Hx E. unfold fexp. f_equal. f_equal.
  apply ilog2_comp; [now apply Qabs_pos_lt | now rewrite E].
Qed.

(** The scaled value has at most 53 bits, and at least 53 above the
    subnormal range. *)
Lemma scaled_lt q : ~ q == 0 -> Qabs q / pow2 (fexp q) < pow2 53.
Proof.
  intros Hq. destruct (ilog2_spec (Qabs_pos_lt Hq)) as [_ Hi].
  apply Qlt_shift_div_r; [apply pow2_pos|].
  eapply Qlt_le_trans; [eassumption|].
  rewrite <- pow2_add. apply pow2_le. unfold fexp. lia.
Qed.

Lemma scaled_ge q : ~ q == 0 -> (-1074 < fexp q)%Z -> pow2 52 <= Qabs q / pow2 (fexp q).
Proof.
  intros Hq He. destruct (ilog2_spec (Qabs_pos_lt Hq)) as [Lo _].
  apply Qle_shift_div_l; [apply pow2_pos|].
  eapply Qle_trans; [|eassumption].
  rewrite <- pow2_add. apply pow2_le. unfold fexp in *. lia.
Qed.

Lemma scaled_zero q e : q == 0 -> inject_Z (rint (q / pow2 e)) * pow2 e == 0.
Proof.
  intros E.
  assert (E' : q / pow2 e == inject_Z 0).
  { unfold Qdiv. transitivity (0 * / pow2 e); [|reflexivity].
    apply Qmult_comp; [exact E | reflexivity]. }
  rewrite (rint_comp E'), rint_Z. change (inject_Z 0) with 0. ring.
Qed.

Lemma rne_zero q : q == 0 -> rne q == 0.
Proof. intros E. rewrite rne_eq. now apply scaled_zero. Qed.

Lemma rne_comp x y : x == y -> rne x = rne y.
Proof.
  intros E. unfold rne. apply Qred_complete.
  destruct (Qeq_dec x 0) as [Z|NZ].
  - assert (Zy : y == 0) by (rewrite <- E; exact Z).
    rewrite (scaled_zero _ Z), (scaled_zero _ Zy). reflexivity.
  - rewrite <- (fexp_comp NZ E).
    assert (E' : x / pow2 (fexp x) == y / pow2 (fexp x)).
    { unfold Qdiv. apply Qmult_comp; [exact E | reflexivity]. }
    now rewrite (rint_comp E').
Qed.

#[global] Instance rne_Proper : Proper (Qeq ==> Qeq) rne.
Proof. intros x y E. now rewrite (rne_comp E). Qed.

Lemma rne_nonneg x : 0 <= x -> 0 <= rne x.
Proof.
  intros Hx. rewrite rne_eq. apply Qmult_le_0_compat; [|apply Qlt_le_weak, pow2_pos].
  change 0 with (inject_Z 0). rewrite <- Zle_Qle. rewrite <- (rint_Z 0).
  apply rint_mono. change (inject_Z 0) with 0.
  apply Qle_shift_div_l; [apply pow2_pos|]. lra.
Qed.

Lemma rne_nonpos x : x <= 0 -> rne x <= 0.
Proof.
  intros Hx. rewrite rne_eq.
  assert (Hm : (rint (x / pow2 (fexp x)) <= 0)%Z).
  { rewrite <- (rint_Z 0). apply rint_mono. change (inject_Z 0) with 0.
    apply Qle_shift_div_r; [apply pow2_pos|]. lra. }
  rewrite Zle_Qle in Hm. change (inject_Z 0) with 0 in Hm.
  pose proof (pow2_pos (fexp x)). nra.
Qed.

Lemma rne_mono_pos x y : 0 < x -> x <= y -> rne x <= rne y.
Proof.
  intros Hx Hxy. assert (Hy : 0 < y) by lra.
  assert (Nx : ~ x == 0) by lra. assert (Ny : ~ y == 0) by lra.
  assert (Ax : Qabs x == x) by (apply Qabs_pos; lra).
  assert (Ay : Qabs y == y) by (apply Qabs_pos; lra).
  assert (Hle : (fexp x <= fexp y)%Z).
  { unfold fexp. apply Z.max_le_compat_r. apply Z.sub_le_mono_r.
    rewrite (ilog2_comp (Qabs_pos_lt Nx) Ax).
    assert (Hay : 0 < Qabs y) by now apply Qabs_pos_lt.
    rewrite (ilog2_comp Hay Ay). now apply ilog2_mono. }
  rewrite 2 rne_eq.
  destruct (Z.eq_dec (fexp x) (fexp y)) as [E|N].
  - rewrite E. apply Qmult_le_compat_r; [|apply Qlt_le_weak, pow2_pos].
    rewrite <- Zle_Qle. apply rint_mono.
    apply Qmult_le_compat_r; [assumption|].
    apply Qlt_le_weak, Qinv_lt_0_compat, pow2_pos.
  - assert (Hlt : (fexp x < fexp y)%Z) by lia.
    pose proof (scaled_lt Nx) as Sx. rewrite Ax in Sx.
    assert (Gy : (-1074 < fexp y)%Z) by (pose proof (fexp_ge x); lia).
    pose proof (scaled_ge Ny Gy) as Sy. rewrite Ay in Sy.
    assert (Mx : (rint (x / pow2 (fexp x)) <= 2 ^ 53)%Z).
    { rewrite <- (rint_Z (2 ^ 53)). apply rint_mono.
      rewrite <- pow2_Z by lia. now apply Qlt_le_weak. }
    assert (My : (2 ^ 52 <= rint (y / pow2 (fexp y)))%Z).
    { rewrite <- (rint_Z (2 ^ 52)). apply rint_mono.
      rewrite <- pow2_Z by lia. assumption. }
    rewrite Zle_Qle in Mx, My. rewrite <- !pow2_Z in Mx, My by lia.
    apply Qle_trans with (pow2 53 * pow2 (fexp x)).
    { apply Qmult_le_compat_r; [assumption | apply Qlt_le_weak, pow2_pos]. }
    apply Qle_trans with (pow2 52 * pow2 (fexp y)).
    { rewrite <- 2 pow2_add. apply pow2_le. lia. }
    apply Qmult_le_compat_r; [assumption | apply Qlt_le_weak, pow2_pos].
Qed.

Lemma rne_mono_neg x y : y < 0 -> x <= y -> rne x <= rne y.
Proof.
  intros Hy Hxy. assert (Hx : x < 0) by lra.
  assert (Nx : ~ x == 0) by lra. assert (Ny : ~ y == 0) by lra.
  assert (Ax : Qabs x == - x) by (apply Qabs_neg; lra).
  assert (Ay : Qabs y == - y) by (apply Qabs_neg; lra).
  assert (Hle : (fexp y <= fexp x)%Z).
  { unfold fexp. apply Z.max_le_compat_r. apply Z.sub_le_mono_r.
    apply ilog2_mono; [now apply Qabs_pos_lt | lra]. }
  rewrite 2 rne_eq.
  destruct (Z.eq_dec (fexp x) (fexp y)) as [E|N].
  - rewrite E. apply Qmult_le_compat_r; [|apply Qlt_le_weak, pow2_pos].
    rewrite <- Zle_Qle. apply rint_mono.
    apply Qmult_le_compat_r; [assumption|].
    apply Qlt_le_weak, Qinv_lt_0_compat, pow2_pos.
  - assert (Hlt : (fexp y < fexp x)%Z) by lia.
    pose proof (scaled_lt Ny) as Sy. rewrite Ay in Sy.
    assert (Gx : (-1074 < fexp x)%Z) by (pose proof (fexp_ge y); lia).
    pose proof (scaled_ge Nx Gx) as Sx. rewrite Ax in Sx.
    assert (Sy' : - pow2 53 <= y / pow2 (fexp y)).
    { assert (T : - y / pow2 (fexp y) == - (y / pow2 (fexp y))) by (unfold Qdiv; ring).
      lra. }
    assert (Sx' : x / pow2 (fexp x) <= - pow2 52).
    { assert (T : - x / pow2 (fexp x) == - (x / pow2 (fexp x))) by (unfold Qdiv; ring).
      lra. }
    assert (My : (- 2 ^ 53 <= rint (y / pow2 (fexp y)))%Z).
    { rewrite <- (rint_Z (- 2 ^ 53)). apply rint_mono.
      rewrite inject_Z_opp, <- pow2_Z by lia. assumption. }
    assert (Mx : (rint (x / pow2 (fexp x)) <= - 2 ^ 52)%Z).
    { rewrite <- (rint_Z (- 2 ^ 52)). apply rint_mono.
      rewrite inject_Z_opp, <- pow2_Z by lia. assumption. }
    rewrite Zle_Qle in Mx, My. rewrite inject_Z_opp, <- !pow2_Z in Mx, My by lia.
    apply Qle_trans with (- pow2 52 * pow2 (fexp x)).
    { apply Qmult_le_compat_r; [assumption | apply Qlt_le_weak, pow2_pos]. }
    apply Qle_trans with (- pow2 53 * pow2 (fexp y)).
    { assert (T : pow2 53 * pow2 (fexp y) <= pow2 52 * pow2 (fexp x)).
      { rewrite <- 2 pow2_add. apply pow2_le. lia. }
      lra. }
    apply Qmult_le_compat_r; [assumption | apply Qlt_le_weak, pow2_pos].
Qed.

Theorem rne_mono x y : x <= y -> rne x <= rne y.
Proof.
  intros Hxy. destruct (Qlt_le_dec 0 x) as [Px|Nx].
  - now apply rne_mono_pos.
  - destruct (Qlt_le_dec y 0) as [Ny|Py].
    + now apply rne_mono_neg.
    + apply Qle_trans with 0; [now apply rne_nonpos | now apply rne_nonneg].
Qed.

(** ** Representable values *)

Lemma is_float_comp x y : x == y -> is_float x -> is_float y.
Proof.
  intros E (m & e & Hx & Hm & He). exists m, e. split; [|tauto].
  rewrite <- E. exact Hx.
Qed.

(** A representation with fewer than 54 bits can be chosen. *)
Lemma is_float_norm x :
  is_float x ->
  exists m e : Z, x == inject_Z m * pow2 e /\ (Z.abs m < 2 ^ 53)%Z /\ (-1074 <= e)%Z.
Proof.
  intros (m & e & Hx & Hm & He).
  destruct (Z.eq_dec (Z.abs m) (2 ^ 53)) as [E|N].
  - exists (Z.sgn m), (e + 53)%Z. split; [|split; [|lia]].
    + assert (Em : m = (Z.sgn m * 2 ^ 53)%Z) by (destruct m; simpl in *; lia).
      rewrite Hx, pow2_add, (@pow2_Z 53%Z) by lia.
      rewrite Em at 1. rewrite inject_Z_mult. ring.
    + destruct m; simpl; lia.
  - exists m, e. repeat split; trivial; lia.
Qed.

Lemma inject_Z_sub a b : inject_Z (a - b) = inject_Z a - inject_Z b.
Proof. unfold Z.sub. now rewrite inject_Z_plus, inject_Z_opp. Qed.

Lemma Qabs_inject_Z m : Qabs (inject_Z m) == inject_Z (Z.abs m).
Proof. unfold Qabs, inject_Z. reflexivity. Qed.

Theorem rne_id x : is_float x -> rne x == x.
Proof.
  intros Hf. destruct (Qeq_dec x 0) as [Z|NZ].
  { rewrite (rne_zero Z). symmetry. exact Z. }
  destruct (is_float_norm Hf) as (m & e & Hx & Hm & He).
  assert (Hfe : (fexp x <= e)%Z).
  { destruct (ilog2_spec (Qabs_pos_lt NZ)) as [Lo _].
    assert (Hlt : Qabs x < pow2 (53 + e)).
    { rewrite Hx, Qabs_Qmult, Qabs_inject_Z, pow2_add, (@pow2_Z 53%Z) by lia.
      rewrite (Qabs_pos (pow2 e)) by apply Qlt_le_weak, pow2_pos.
      apply Qmult_lt_compat_r; [apply pow2_pos|]. now rewrite <- Zlt_Qlt. }
    assert (H1 : (ilog2 (Qabs x) < 53 + e)%Z).
    { apply pow2_lt_inv. eapply Qle_lt_trans; eassumption. }
    unfold fexp. lia. }
  rewrite rne_eq. set (f := fexp x) in *. clearbody f.
  assert (Es : x / pow2 f == inject_Z (m * 2 ^ (e - f))).
  { rewrite inject_Z_mult, <- pow2_Z by lia. rewrite pow2_sub, Hx.
    field. apply Qnot_eq_sym, Qlt_not_eq, pow2_pos. }
  rewrite (rint_comp Es), rint_Z, <- Es.
  field. apply Qnot_eq_sym, Qlt_not_eq, pow2_pos.
Qed.

Lemma scaled_abs_le q : (Z.abs (rint (q / pow2 (fexp q))) <= 2 ^ 53)%Z.
Proof.
  destruct (Qeq_dec q 0) as [Z|NZ].
  - assert (E' : q / pow2 (fexp q) == inject_Z 0).
    { unfold Qdiv. transitivity (0 * / pow2 (fexp q)); [|reflexivity].
      apply Qmult_comp; [exact Z | reflexivity]. }
    rewrite (rint_comp E'), rint_Z. simpl. lia.
  - pose proof (scaled_lt NZ) as S.
    assert (T : Qabs q / pow2 (fexp q) == Qabs (q / pow2 (fexp q))).
    { unfold Qdiv. rewrite Qabs_Qmult, Qabs_Qinv.
      now rewrite (Qabs_pos (pow2 (fexp q))) by apply Qlt_le_weak, pow2_pos. }
    rewrite T in S. apply Qabs_Qlt_condition in S. destruct S as [S1 S2].
    assert (U : (rint (q / pow2 (fexp q)) <= 2 ^ 53)%Z).
    { rewrite <- (rint_Z (2 ^ 53)). apply rint_mono.
      rewrite <- pow2_Z by lia. now apply Qlt_le_weak. }
    assert (L : (- 2 ^ 53 <= rint (q / pow2 (fexp q)))%Z).
    { rewrite <- (rint_Z (- 2 ^ 53)). apply rint_mono.
      rewrite inject_Z_opp, <- pow2_Z by lia. now apply Qlt_le_weak. }
    lia.
Qed.

Theorem rne_is_float x : is_float (rne x).
Proof.
  exists (rint (x / pow2 (fexp x))), (fexp x).
  split; [apply rne_eq | split; [apply scaled_abs_le | apply fexp_ge]].
Qed.

Lemma is_float_Z n : (Z.abs n <= 2 ^ 53)%Z -> is_float (inject_Z n).
Proof.
  intros Hn. exists n, 0%Z. repeat split; trivial; try lia.
  change (pow2 0) with 1. ring.
Qed.

Lemma rne_Z n : (Z.abs n <= 2 ^ 53)%Z -> rne (inject_Z n) == inject_Z n.
Proof. intros. now apply rne_id, is_float_Z. Qed.

Lemma of_int_exact n : (Z.abs n <= 2 ^ 53)%Z -> of_int n == inject_Z n.
Proof. apply rne_Z. Qed.

(** Subtracting an integer from a float that is at least as large, below
    [2^53], is exact. *)
Lemma is_float_sub_int x w :
  is_float x -> (0 <= w)%Z -> inject_Z w <= x -> x <= inject_Z (2 ^ 53) ->
  is_float (x - inject_Z w).
Proof.
  intros Hf Hw Hwx Hx.
  destruct (is_float_norm Hf) as (m & e & Ex & Hm & He).
  destruct (Z_le_gt_dec e 0) as [Le|Gt].
  - exists (m - w * 2 ^ (- e))%Z, e. split; [|split; [|assumption]].
    + rewrite Ex, inject_Z_sub, inject_Z_mult, <- pow2_Z by lia.
      assert (P : pow2 (- e) * pow2 e == 1).
      { rewrite <- pow2_add. now replace (- e + e)%Z with 0%Z by ring. }
      transitivity (inject_Z m * pow2 e - inject_Z w * (pow2 (- e) * pow2 e)); [|ring].
      rewrite P. ring.
    + assert (Hm0 : (0 <= m - w * 2 ^ (- e))%Z).
      { rewrite Zle_Qle. rewrite inject_Z_sub, inject_Z_mult, <- pow2_Z by lia.
        change (inject_Z 0) with 0.
        assert (P : 0 <= (inject_Z m - inject_Z w * pow2 (- e)) * pow2 e).
        { assert (Q1 : pow2 (- e) * pow2 e == 1).
          { rewrite <- pow2_add. now replace (- e + e)%Z with 0%Z by ring. }
          assert (Q2 : (inject_Z m - inject_Z w * pow2 (- e)) * pow2 e
                       == inject_Z m * pow2 e - inject_Z w * (pow2 (- e) * pow2 e)) by ring.
          rewrite Q2, Q1. lra. }
        pose proof (pow2_pos e). 
        destruct (Qlt_le_dec (inject_Z m - inject_Z w * pow2 (- e)) 0) as [Neg|Pos];
          [exfalso; nra | lra]. }
      assert (Hp : (0 <= w * 2 ^ (- e))%Z) by (apply Z.mul_nonneg_nonneg; [lia | apply Z.pow_nonneg; lia]).
      lia.
  - assert (Ei : x - inject_Z w == inject_Z (m * 2 ^ e - w)).
    { rewrite Ex, inject_Z_sub, inject_Z_mult, <- pow2_Z by lia. ring. }
    apply (is_float_comp (Qeq_sym _ _ Ei)). apply is_float_Z.
    assert (B1 : (0 <= m * 2 ^ e - w)%Z).
    { rewrite Zle_Qle. rewrite <- Ei. change (inject_Z 0) with 0. lra. }
    assert (B2 : (m * 2 ^ e - w <= 2 ^ 53)%Z).
    { rewrite Zle_Qle. rewrite <- Ei.
      assert (0 <= inject_Z w) by (change 0 with (inject_Z 0); now rewrite <- Zle_Qle). lra. }
    lia.
Qed.

(** The rounding error is at most half the grid spacing. *)
Lemma rne_error x : Qabs (rne x - x) <= pow2 (fexp x) * (1 # 2).
Proof.
  pose proof (rint_bounds (x / pow2 (fexp x))) as [Lo Hi].
  pose proof (pow2_pos (fexp x)) as P.
  assert (Ex : x == (x / pow2 (fexp x)) * pow2 (fexp x)).
  { field. apply Qnot_eq_sym, Qlt_not_eq, pow2_pos. }
  apply Qabs_Qle_condition. rewrite rne_eq.
  set (s := x / pow2 (fexp x)) in *. set (p := pow2 (fexp x)) in *.
  set (r := inject_Z (rint s)) in *.
  clearbody s p r. split.
  - assert (T : 0 <= (r + (1 # 2) - s) * p) by (apply Qmult_le_0_compat; lra).
    nra.
  - assert (T : 0 <= (s - (r - (1 # 2))) * p) by (apply Qmult_le_0_compat; lra).
    nra.
Qed.

Lemma fexp_le x k : ~ x == 0 -> Qabs x < pow2 (k + 1) -> (-1074 <= k - 52)%Z ->
  (fexp x <= k - 52)%Z.
Proof.
  intros NZ Hlt Hk. destruct (ilog2_spec (Qabs_pos_lt NZ)) as [Lo _].
  assert (H1 : (ilog2 (Qabs x) < k + 1)%Z).
  { apply pow2_lt_inv. eapply Qle_lt_trans; eassumption. }
  unfold fexp. lia.
Qed.

Lemma rne_error_le x k : Qabs x < pow2 (k + 1) -> (-1074 <= k - 52)%Z ->
  Qabs (rne x - x) <= pow2 (k - 53).
Proof.
  intros Hlt Hk. destruct (Qeq_dec x 0) as [Z|NZ].
  - rewrite (rne_zero Z), Z. apply Qlt_le_weak, pow2_pos.
  - eapply Qle_trans; [apply rne_error|].
    pose proof (pow2_le (@fexp_le x k NZ Hlt Hk)) as Hp.
    replace (k - 52)%Z with (k - 53 + 1)%Z in Hp by ring.
    rewrite pow2_succ in Hp. lra.
Qed.

(** ** [weighted_random] *)

Lemma flt_lt x y : flt x y = true <-> x < y.
Proof.
  unfold flt. rewrite Qlt_alt. destruct (Qcompare x y); split; congruence.
Qed.

Lemma flt_ge x y : flt x y = false <-> y <= x.
Proof.
  split; intros H.
  - apply Qnot_lt_le. intro L. apply flt_lt in L. congruence.
  - destruct (flt x y) eqn:E; [|reflexivity]. apply flt_lt in E. lra.
Qed.

Lemma fold_left_add xs a : fold_left Z.add xs a = (a + sumZ xs)%Z.
Proof.
  revert a. induction xs as [|x xs IH]; intros a; simpl.
  - lia.
  - rewrite IH. unfold sumZ. simpl. lia.
Qed.

Lemma sumZ_cons w ws : sumZ (w :: ws) = (w + sumZ ws)%Z.
Proof. reflexivity. Qed.

Lemma sumZ_nonneg xs : Forall (fun w => 0 <= w)%Z xs -> (0 <= sumZ xs)%Z.
Proof. induction 1; simpl; lia. Qed.

Lemma draw_bounds u : is_draw u -> 0 <= u /\ u <= 1 - pow2 (-53).
Proof.
  intros (k & Hk & E). rewrite E. change (pow2 (-53)) with (1 # 2 ^ 53).
  unfold Qle, Qminus, Qplus, Qopp. cbn [Qnum Qden].
  split; [lia|]. 
  change (Z.pos (1 * 2 ^ 53)) with (2 ^ 53)%Z. change (Z.pos (2 ^ 53)) with (2 ^ 53)%Z.
  nia.
Qed.

(** A draw times an integer [total] is rounded to a float strictly below
    [total]. *)
Lemma rne_mul_lt u T :
  is_draw u -> (0 < T <= 2 ^ 53)%Z -> rne (u * inject_Z T) < inject_Z T.
Proof.
  intros Hu HT. destruct (draw_bounds Hu) as [U0 U1].
  destruct (Z.log2_spec T (proj1 HT)) as [L1 L2].
  assert (HL : (0 <= Z.log2 T)%Z) by apply Z.log2_nonneg.
  set (L := Z.log2 T) in *. clearbody L.
  assert (Q1 : pow2 L <= inject_Z T) by (rewrite pow2_Z by lia; now rewrite <- Zle_Qle).
  assert (Q2 : inject_Z T < pow2 (L + 1)).
  { rewrite pow2_Z by lia. rewrite <- Zlt_Qlt. now rewrite Z.add_1_r. }
  assert (HL53 : (L <= 53)%Z).
  { assert (pow2 L < pow2 54).
    { eapply Qle_lt_trans; [exact Q1|]. rewrite (@pow2_Z 54%Z) by lia.
      rewrite <- Zlt_Qlt. lia. }
    assert (L < 54)%Z by now apply pow2_lt_inv. lia. }
  assert (Tpos : 0 < inject_Z T) by (change 0 with (inject_Z 0); rewrite <- Zlt_Qlt; lia).
  set (z := u * inject_Z T).
  assert (Z0 : 0 <= z) by (apply Qmult_le_0_compat; lra).
  assert (Z1 : z <= inject_Z T - inject_Z T * pow2 (-53)).
  { unfold z. assert (u * inject_Z T <= (1 - pow2 (-53)) * inject_Z T).
    { apply Qmult_le_compat_r; lra. }
    lra. }
  assert (Az : Qabs z == z) by (apply Qabs_pos; exact Z0).
  pose proof (pow2_pos (-53)) as P53.
  assert (S1 : pow2 (L - 53) == pow2 L * pow2 (-53)).
  { rewrite <- pow2_add. now replace (L + -53)%Z with (L - 53)%Z by ring. }
  assert (S2 : pow2 (L - 53) == 2 * pow2 (L - 54)).
  { rewrite <- pow2_succ. now replace (L - 54 + 1)%Z with (L - 53)%Z by ring. }
  pose proof (pow2_pos (L - 54)) as P54.
  destruct (Z_le_gt_dec T (2 ^ L)) as [Le|Gt].
  - (* total is a power of two *)
    assert (ET : inject_Z T == pow2 L).
    { rewrite pow2_Z by lia. assert (T = 2 ^ L)%Z by lia. now subst. }
    assert (Hlt : Qabs z < pow2 (L - 1 + 1)).
    { rewrite Az. replace (L - 1 + 1)%Z with L by ring.
      assert (0 < inject_Z T * pow2 (-53)) by (apply Qmult_lt_0_compat; lra). lra. }
    assert (Hk : (-1074 <= L - 1 - 52)%Z) by lia.
    pose proof (@rne_error_le z (L - 1) Hlt Hk) as E.
    replace (L - 1 - 53)%Z with (L - 54)%Z in E by ring.
    apply Qabs_Qle_condition in E. destruct E as [_ E].
    assert (T53 : inject_Z T * pow2 (-53) == 2 * pow2 (L - 54)).
    { rewrite ET, <- S1. exact S2. }
    lra.
  - assert (Hlt : Qabs z < pow2 (L + 1)).
    { rewrite Az.
      assert (0 < inject_Z T * pow2 (-53)) by (apply Qmult_lt_0_compat; lra). lra. }
    assert (Hk : (-1074 <= L - 52)%Z) by lia.
    pose proof (@rne_error_le z L Hlt Hk) as E.
    apply Qabs_Qle_condition in E. destruct E as [_ E].
    assert (TL : pow2 L < inject_Z T).
    { rewrite pow2_Z by lia. rewrite <- Zlt_Qlt. lia. }
    assert (T53 : pow2 L * pow2 (-53) < inject_Z T * pow2 (-53)).
    { apply Qmult_lt_compat_r; assumption. }
    lra.
Qed.

(** One step of the walk: when the draw is not below the weight, the
    subtraction is exact. *)
Lemma fsub_int_exact rand w :
  is_float rand -> (0 <= w)%Z -> inject_Z w <= rand -> rand <= inject_Z (2 ^ 53) ->
  fsub rand (of_int w) == rand - inject_Z w.
Proof.
  intros Hf Hw Hle Hhi. unfold fsub.
  assert (Hw53 : (Z.abs w <= 2 ^ 53)%Z).
  { rewrite Z.abs_eq by assumption. rewrite Zle_Qle. lra. }
  assert (E : rand - of_int w == rand - inject_Z w).
  { rewrite (@of_int_exact w Hw53). reflexivity. }
  rewrite (rne_comp E). apply rne_id. now apply is_float_sub_int.
Qed.




Lemma weighted_walk_spec weights :
  forall (i0 : Z) (rand : float),
    Forall (fun w => 0 <= w)%Z weights ->
    (sumZ weights <= 2 ^ 53)%Z ->
    is_float rand ->
    (0 <= rand < inject_Z (sumZ weights)) ->
    exists j : nat,
      (j < List.length weights)%nat /\
      weighted_walk i0 rand weights = Some (i0 + Z.of_nat j)%Z /\
      (inject_Z (sumZ (firstn j weights)) <= rand
        < inject_Z (sumZ (firstn j weights) + nth j weights 0%Z)).
Proof.
  induction weights as [|w rest IH]; intros i0 rand Hnn Hsum Hf [R0 R1].
  - simpl in R1. exfalso. change (inject_Z 0) with 0 in R1. lra.
  - inversion Hnn as [|? ? Hw Hrest]; subst.
    pose proof (sumZ_nonneg Hrest) as Hrs. rewrite sumZ_cons in Hsum, R1.
    simpl weighted_walk. destruct (flt rand (inject_Z w)) eqn:Hc.
    + apply flt_lt in Hc. exists 0%nat. simpl. repeat split; try lia.
      * f_equal. lia.
      * exact R0.
      * exact Hc.
    + apply flt_ge in Hc.
      assert (Hhi : rand <= inject_Z (2 ^ 53)).
      { apply Qle_trans with (inject_Z (w + sumZ rest)); [lra|].
        rewrite <- Zle_Qle. exact Hsum. }
      pose proof (fsub_int_exact Hf Hw Hc Hhi) as Ex.
      assert (Hf' : is_float (fsub rand (of_int w))) by apply rne_is_float.
      rewrite inject_Z_plus in R1.
      assert (Hr' : 0 <= fsub rand (of_int w) < inject_Z (sumZ rest)) by (rewrite Ex; lra).
      destruct (IH (i0 + 1)%Z _ Hrest ltac:(lia) Hf' Hr') as (j & Hj & Hwalk & B0 & B1).
      exists (S j). split; [simpl; lia|]. split.
      * rewrite Hwalk. f_equal. lia.
      * rewrite firstn_cons, sumZ_cons. cbn [nth].
        rewrite Ex in B0, B1. rewrite !inject_Z_plus in *. lra.
Qed.

Lemma random_draw k : (0 <= k < 2 ^ 53)%Z -> is_draw (Qred (k # 2 ^ 53)).
Proof. intros Hk. exists k. split; [exact Hk | apply Qred_correct]. Qed.

Lemma draw_value_bounds weights u :
  Forall (fun w => 0 <= w)%Z weights -> (0 < sumZ weights <= 2 ^ 53)%Z -> is_draw u ->
  is_float (draw_value weights u) /\
  0 <= draw_value weights u < inject_Z (sumZ weights).
Proof.
  intros Hnn Hsum Hu. unfold draw_value. rewrite fold_left_add, Z.add_0_l.
  assert (Habs : (Z.abs (sumZ weights) <= 2 ^ 53)%Z) by lia.
  assert (E : u * of_int (sumZ weights) == u * inject_Z (sumZ weights)).
  { rewrite (@of_int_exact _ Habs). reflexivity. }
  unfold fmul. rewrite (rne_comp E). split; [apply rne_is_float|]. split.
  - apply rne_nonneg. destruct (draw_bounds Hu) as [U0 _].
    apply Qmult_le_0_compat; [exact U0|].
    change 0 with (inject_Z 0). rewrite <- Zle_Qle. lia.
  - apply rne_mul_lt; assumption.
Qed.


Lemma weighted_pick_selected weights u :
  Forall (fun w => 0 <= w)%Z weights -> (0 < sumZ weights <= 2 ^ 53)%Z -> is_draw u ->
  selected_by_prefix weights (draw_value weights u) (weighted_pick weights u).
Proof.
  intros Hnn Hsum Hu.
  destruct (draw_value_bounds Hnn Hsum Hu) as [Hf Hr].
  destruct (@weighted_walk_spec weights 0%Z _ Hnn (proj2 Hsum) Hf Hr)
    as (j & Hj & Hwalk & B).
  unfold weighted_pick. fold (draw_value weights u). rewrite Hwalk.
  unfold selected_by_prefix, prefix_sum, weight_at.
  rewrite Z.add_0_l, Nat2Z.id. split; [lia | exact B].
Qed.

Lemma weighted_walk_zero weights :
  forall (i0 : Z) (rand : float),
    rand == 0 -> Forall (fun w => w = 0%Z) weights ->
    weighted_walk i0 rand weights = None.
Proof.
  induction weights as [|w rest IH]; intros i0 rand Hr Hz; [reflexivity|].
  inversion Hz as [|? ? Hw Hrest]; subst. simpl.
  assert (Hc : flt rand (inject_Z 0) = false).
  { apply flt_ge. change (inject_Z 0) with 0. lra. }
  rewrite Hc. apply IH; [|assumption].
  unfold fsub, of_int. apply rne_zero.
  rewrite (@rne_zero (inject_Z 0)) by reflexivity. lra.
Qed.

Lemma sumZ_zero weights : Forall (fun w => w = 0%Z) weights -> sumZ weights = 0%Z.
Proof. induction 1; [reflexivity|]. rewrite sumZ_cons. lia. Qed.

Lemma weighted_pick_zero weights u :
  Forall (fun w => w = 0%Z) weights ->
  weighted_pick weights u = (Z.of_nat (List.length weights) - 1)%Z.
Proof.
  intros Hz. unfold weighted_pick.
  rewrite weighted_walk_zero; [reflexivity | | assumption].
  rewrite fold_left_add, (sumZ_zero Hz). unfold fmul, of_int. apply rne_zero.
  rewrite (@rne_zero (inject_Z (0 + 0))) by reflexivity. ring.
Qed.

Section WeightedRandom.
Context {rng : Type} `{PyRandom rng}.

Lemma random_run (g : rng) :
  exists u, is_draw u /\ random g = inr (u, snd (random53 g)).
Proof.
  unfold random. pose proof (random53_range g) as Hk.
  destruct (random53 g) as [k g']. simpl in *.
  exists (Qred (k # 2 ^ 53)). split; [now apply random_draw | reflexivity].
Qed.

Lemma weighted_random_run (weights : list Z) (g : rng) :
  exists u, is_draw u /\
    weighted_random weights g = inr (weighted_pick weights u, snd (random53 g)).
Proof.
  destruct (random_run g) as (u & Hu & Hr). exists u. split; [assumption|].
  unfold weighted_random, bind. rewrite Hr. reflexivity.
Qed.

End WeightedRandom.

(** ** [random_date] *)

Lemma draw_unit u : is_draw u -> 0 <= u <= 1.
Proof.
  intros Hu. destruct (draw_bounds Hu) as [U0 U1].
  pose proof (pow2_pos (-53)). split; lra.
Qed.

(** The float product of a draw and an integer stays between 0 and the
    integer. *)
Lemma fmul_draw_nonneg u n :
  0 <= u <= 1 -> (0 <= n <= 2 ^ 53)%Z ->
  0 <= fmul u (of_int n) <= inject_Z n.
Proof.
  intros [U0 U1] Hn. unfold fmul.
  assert (Habs : (Z.abs n <= 2 ^ 53)%Z) by lia.
  assert (E : u * of_int n == u * inject_Z n).
  { rewrite (@of_int_exact n Habs). reflexivity. }
  rewrite (rne_comp E).
  assert (N0 : 0 <= inject_Z n) by (change 0 with (inject_Z 0); rewrite <- Zle_Qle; lia).
  split.
  - apply rne_nonneg. now apply Qmult_le_0_compat.
  - rewrite <- (@rne_Z n Habs) at 2. apply rne_mono.
    assert (u * inject_Z n <= 1 * inject_Z n) by (apply Qmult_le_compat_r; assumption).
    lra.
Qed.

Lemma fmul_draw_nonpos u n :
  0 <= u <= 1 -> (- 2 ^ 53 <= n <= 0)%Z ->
  inject_Z n <= fmul u (of_int n) <= 0.
Proof.
  intros [U0 U1] Hn. unfold fmul.
  assert (Habs : (Z.abs n <= 2 ^ 53)%Z) by lia.
  assert (E : u * of_int n == u * inject_Z n).
  { rewrite (@of_int_exact n Habs). reflexivity. }
  rewrite (rne_comp E).
  assert (N0 : inject_Z n <= 0) by (change 0 with (inject_Z 0); rewrite <- Zle_Qle; lia).
  assert (P : 0 <= u * (- inject_Z n)) by (apply Qmult_le_0_compat; lra).
  assert (P' : 0 <= (1 - u) * (- inject_Z n)) by (apply Qmult_le_0_compat; lra).
  split.
  - rewrite <- (@rne_Z n Habs) at 1. apply rne_mono. lra.
  - apply rne_nonpos. lra.
Qed.

Lemma rint_scale_nonneg x n :
  0 <= x <= inject_Z n ->
  (0 <= rint (x * inject_Z US_PER_DAY) <= n * US_PER_DAY)%Z.
Proof.
  intros [X0 X1].
  assert (U : 0 <= inject_Z US_PER_DAY) by discriminate.
  split.
  - rewrite <- (rint_Z 0). apply rint_mono. change (inject_Z 0) with 0.
    now apply Qmult_le_0_compat.
  - rewrite <- (rint_Z (n * US_PER_DAY)). apply rint_mono.
    rewrite inject_Z_mult. now apply Qmult_le_compat_r.
Qed.

Lemma rint_scale_nonpos x n :
  inject_Z n <= x <= 0 ->
  (n * US_PER_DAY <= rint (x * inject_Z US_PER_DAY) <= 0)%Z.
Proof.
  intros [X0 X1].
  assert (U : 0 <= inject_Z US_PER_DAY) by discriminate.
  split.
  - rewrite <- (rint_Z (n * US_PER_DAY)). apply rint_mono.
    rewrite inject_Z_mult. now apply Qmult_le_compat_r.
  - rewrite <- (rint_Z 0). apply rint_mono. change (inject_Z 0) with 0.
    assert (0 <= (- x) * inject_Z US_PER_DAY) by (apply Qmult_le_0_compat; lra).
    lra.
Qed.

Lemma valid_datetime_iff t :
  valid_datetime t = true <-> (0 <= t < MAXORDINAL * US_PER_DAY)%Z.
Proof. unfold valid_datetime. rewrite andb_true_iff, Z.leb_le, Z.ltb_lt. tauto. Qed.

Lemma valid_timedelta_iff d :
  valid_timedelta d = true <->
  (- MAX_DELTA_DAYS * US_PER_DAY <= d < (MAX_DELTA_DAYS + 1) * US_PER_DAY)%Z.
Proof. unfold valid_timedelta. rewrite andb_true_iff, Z.leb_le, Z.ltb_lt. tauto. Qed.

Lemma td_days_spec d :
  (td_days d * US_PER_DAY <= d < td_days d * US_PER_DAY + US_PER_DAY)%Z.
Proof.
  unfold td_days.
  pose proof (Z.div_mod d US_PER_DAY ltac:(discriminate)) as E.
  pose proof (Z.mod_pos_bound d US_PER_DAY ltac:(reflexivity)) as B.
  lia.
Qed.

(** What [random_date] does, for any two instants and any draw: the offset
    in microseconds lies between 0 and the whole days of the span. *)
Lemma random_date_at_spec start_date end_date u :
  valid_datetime start_date = true -> valid_datetime end_date = true ->
  is_draw u ->
  let span := (td_days (datetime_sub end_date start_date) * US_PER_DAY)%Z in
  exists off : Z,
    (Z.min 0 span <= off <= Z.max 0 span)%Z /\
    random_date_at start_date end_date u = datetime_add start_date off.
Proof.
  intros Hs He Hu span.
  apply valid_datetime_iff in Hs, He.
  pose proof (td_days_spec (datetime_sub end_date start_date)) as Hd.
  unfold datetime_sub in *. set (n := td_days (end_date - start_date)%Z) in *.
  assert (Hn : (- MAXORDINAL <= n <= MAXORDINAL)%Z).
  { unfold MAXORDINAL, US_PER_DAY in *. lia. }
  pose proof (draw_unit Hu) as Hu1.
  unfold random_date_at, datetime_sub. fold n.
  set (x := fmul u (of_int n)).
  assert (Hoff : (Z.min 0 span <= rint (x * inject_Z US_PER_DAY) <= Z.max 0 span)%Z).
  { destruct (Z_le_gt_dec 0 n) as [P|N].
    - assert (B : (0 <= n <= 2 ^ 53)%Z) by (unfold MAXORDINAL in Hn; lia).
      pose proof (rint_scale_nonneg (fmul_draw_nonneg Hu1 B)) as R.
      fold x in R. unfold span. unfold US_PER_DAY in *. lia.
    - assert (B : (- 2 ^ 53 <= n <= 0)%Z) by (unfold MAXORDINAL in Hn; lia).
      pose proof (rint_scale_nonpos (fmul_draw_nonpos Hu1 B)) as R.
      fold x in R. unfold span. unfold US_PER_DAY in *. lia. }
  exists (rint (x * inject_Z US_PER_DAY)). split; [exact Hoff|].
  unfold timedelta_of_days.
  assert (V : valid_timedelta (rint (x * inject_Z US_PER_DAY)) = true).
  { apply valid_timedelta_iff. unfold span, MAX_DELTA_DAYS, MAXORDINAL, US_PER_DAY in *. lia. }
  rewrite V. reflexivity.
Qed.

(** ** Reasoning about the methods *)

Lemma returns_ret {S A} (a : A) (Q : A -> Prop) : Q a -> returns (@ret S A a) Q.
Proof. intros H s. exists a, s. split; [reflexivity | exact H]. Qed.

Lemma returns_bind {S A B} (m : M S A) (f : A -> M S B) (P : A -> Prop) (Q : B -> Prop) :
  returns m P -> (forall a, P a -> returns (f a) Q) -> returns (bind m f) Q.
Proof.
  intros Hm Hf s. destruct (Hm s) as (a & s1 & E & Pa).
  destruct (Hf a Pa s1) as (b & s2 & E2 & Qb).
  exists b, s2. unfold bind. rewrite E. split; assumption.
Qed.

Lemma returns_weaken {S A} (m : M S A) (P Q : A -> Prop) :
  returns m P -> (forall a, P a -> Q a) -> returns m Q.
Proof.
  intros Hm HPQ s. destruct (Hm s) as (a & s1 & E & Pa). exists a, s1. auto.
Qed.

Lemma returns_lift {S A} (r : exn + A) (a : A) (Q : A -> Prop) :
  r = inr a -> Q a -> returns (@lift S A r) Q.
Proof. intros E H s. exists a, s. unfold lift. rewrite E. auto. Qed.

Lemma returns_lift_eq {S A} (r : exn + A) (a : A) :
  r = inr a -> returns (@lift S A r) (eq a).
Proof. intros E. now apply returns_lift with a. Qed.

Lemma returns_mapM {S A B} (body : A -> M S B) (P : B -> Prop) (xs : list A) :
  (forall x, In x xs -> returns (body x) P) -> returns (mapM body xs) (Forall P).
Proof.
  induction xs as [|x xs IH]; intros Hb.
  - apply returns_ret. constructor.
  - simpl. eapply returns_bind; [apply Hb; now left|]. intros y Py.
    eapply returns_bind; [apply IH; intros; apply Hb; now right|]. intros ys Pys.
    apply returns_ret. now constructor.
Qed.

Lemma returns_mapM_length {S A B} (body : A -> M S B) (P : B -> Prop) (xs : list A) :
  (forall x, In x xs -> returns (body x) P) ->
  returns (mapM body xs) (fun ys => Forall P ys /\ List.length ys = List.length xs).
Proof.
  induction xs as [|x xs IH]; intros Hb.
  - apply returns_ret. split; [constructor | reflexivity].
  - simpl mapM. eapply returns_bind; [apply Hb; now left|]. intros y Py.
    eapply returns_bind; [apply IH; intros; apply Hb; now right|]. intros ys [Pys L].
    apply returns_ret. split; [now constructor | simpl; now rewrite L].
Qed.

Lemma returns_foldM {S A B} (body : B -> A -> M S B) (I : B -> Prop) (xs : list A) :
  (forall acc x, In x xs -> I acc -> returns (body acc x) I) ->
  forall acc, I acc -> returns (foldM body xs acc) I.
Proof.
  induction xs as [|x xs IH]; intros Hb acc Hacc.
  - now apply returns_ret.
  - simpl. eapply returns_bind; [apply Hb; [now left | exact Hacc]|].
    intros acc' Hacc'. apply IH; [|exact Hacc'].
    intros a y Hy. apply Hb. now right.
Qed.

Lemma py_range_length lo hi : List.length (py_range lo hi) = Z.to_nat (hi - lo).
Proof. unfold py_range. now rewrite length_map, length_seq. Qed.

Lemma py_index_in {A} (xs : list A) (i : Z) :
  (0 <= i < Z.of_nat (List.length xs))%Z ->
  exists a, py_index xs i = inr a /\ In a xs.
Proof.
  intros Hi. unfold py_index.
  assert (E1 : (i <? 0)%Z = false) by (apply Z.ltb_ge; lia).
  rewrite E1.
  assert (E2 : ((0 <=? i) && (i <? Z.of_nat (List.length xs)))%Z = true).
  { apply andb_true_iff. rewrite Z.leb_le, Z.ltb_lt. lia. }
  rewrite E2.
  destruct (nth_error xs (Z.to_nat i)) as [a|] eqn:E.
  - exists a. split; [reflexivity | eapply nth_error_In; eassumption].
  - apply nth_error_None in E. lia.
Qed.

Section Specs.
Context {rng : Type} `{PyRandom rng}.

Lemma returns_random : returns random is_draw.
Proof.
  intros g. destruct (random_run g) as (u & Hu & E). exists u, (snd (random53 g)). auto.
Qed.

Lemma returns_randint a b :
  (a <= b)%Z -> returns (randint a b) (fun r => a <= r <= b)%Z.
Proof.
  intros Hab g. unfold randint.
  assert (E : (a <=? b)%Z = true) by now apply Z.leb_le.
  rewrite E. pose proof (@randbelow_range _ _ (b - a + 1)%Z g ltac:(lia)) as Hr.
  destruct (randbelow (b - a + 1) g) as [r g']. simpl in Hr.
  exists (a + r)%Z, g'. split; [reflexivity | lia].
Qed.

(** On a table of non-negative weights with a positive total the selector
    returns a position of the table. *)
Lemma returns_weighted_random weights :
  Forall (fun w => 0 <= w)%Z weights -> (0 < sumZ weights <= 2 ^ 53)%Z ->
  returns (weighted_random weights)
          (fun i => 0 <= i < Z.of_nat (List.length weights))%Z.
Proof.
  intros Hnn Hsum g. destruct (weighted_random_run weights g) as (u & Hu & E).
  exists (weighted_pick weights u), (snd (random53 g)). split; [exact E|].
  exact (proj1 (weighted_pick_selected Hnn Hsum Hu)).
Qed.

Lemma returns_random_date start_date end_date :
  valid_datetime start_date = true -> valid_datetime end_date = true ->
  (start_date <= end_date)%Z ->
  returns (random_date start_date end_date)
          (fun t => start_date <= t
                    <= start_date + td_days (datetime_sub end_date start_date) * US_PER_DAY)%Z.
Proof.
  intros Vs Ve Hle g. destruct (random_run g) as (u & Hu & E).
  destruct (@random_date_at_spec start_date end_date u Vs Ve Hu) as (off & Hoff & Hr).
  pose proof (td_days_spec (datetime_sub end_date start_date)) as Hd.
  unfold datetime_sub in *.
  assert (Hn : (0 <= td_days (end_date - start_date))%Z).
  { unfold td_days. apply Z.div_pos; [lia | reflexivity]. }
  assert (Hspan : (0 <= td_days (end_date - start_date) * US_PER_DAY)%Z).
  { apply Z.mul_nonneg_nonneg; [exact Hn | discriminate]. }
  assert (V : valid_datetime (start_date + off) = true).
  { apply valid_datetime_iff. apply valid_datetime_iff in Vs, Ve. lia. }
  exists (start_date + off)%Z, (snd (random53 g)). split.
  - unfold random_date, bind. rewrite E. unfold lift. rewrite Hr.
    unfold datetime_add. rewrite V. reflexivity.
  - lia.
Qed.

End Specs.

Open Scope Z_scope.

(** ** The order loop *)

Lemma END_DATE_eq : END_DATE = (739219 * US_PER_DAY)%Z.
Proof. reflexivity. Qed.

Lemma parse_acquisition_date_eq customer :
  customer_ok customer ->
  exists a : Z, (737941 <= a <= 739219)%Z /\
                parse_acquisition_date customer = (a * US_PER_DAY)%Z.
Proof.
  unfold customer_ok, parse_acquisition_date.
  destruct (Customer.acquisition_date customer) as [d|]; intros Hd.
  - exists (d - 1)%Z. change (ymd2ord 2021 6 1) with 737942%Z in Hd.
    change (ymd2ord 2024 11 30) with 739220%Z in Hd.
    split; [lia | reflexivity].
  - exists 738520%Z. split; [lia | reflexivity].
Qed.

Lemma td_days_mul k : td_days (k * US_PER_DAY) = k.
Proof. unfold td_days. apply Z.div_mul. discriminate. Qed.

(** The window of an order of a well-formed customer: the arguments of
    [random_date] are valid and in order. *)
Lemma window_facts customer :
  customer_ok customer ->
  let acq_date := parse_acquisition_date customer in
  let n := Z.min (td_days (datetime_sub END_DATE acq_date)) 730 in
  timedelta_of_int_days n = inr (n * US_PER_DAY)%Z /\
  datetime_add acq_date (n * US_PER_DAY) = inr (acq_date + n * US_PER_DAY)%Z /\
  valid_datetime acq_date = true /\
  valid_datetime (acq_date + n * US_PER_DAY) = true /\
  (0 <= n)%Z /\
  (acq_date + n * US_PER_DAY <= END_DATE)%Z /\
  td_days (datetime_sub (acq_date + n * US_PER_DAY) acq_date) = n.
Proof.
  intros Hok. destruct (@parse_acquisition_date_eq customer Hok) as (a & Ha & Ea).
  cbv zeta. rewrite Ea, END_DATE_eq. unfold datetime_sub.
  replace (739219 * US_PER_DAY - a * US_PER_DAY)%Z with ((739219 - a) * US_PER_DAY)%Z by ring.
  rewrite td_days_mul. set (n := Z.min (739219 - a) 730).
  assert (Hn : (0 <= n <= 730)%Z) by (unfold n; lia).
  assert (Hn' : (n <= 739219 - a)%Z) by (unfold n; lia).
  assert (V1 : valid_timedelta (n * US_PER_DAY) = true).
  { apply valid_timedelta_iff. unfold MAX_DELTA_DAYS, US_PER_DAY. lia. }
  assert (V2 : valid_datetime (a * US_PER_DAY) = true).
  { apply valid_datetime_iff. unfold MAXORDINAL, US_PER_DAY. lia. }
  assert (V3 : valid_datetime (a * US_PER_DAY + n * US_PER_DAY) = true).
  { apply valid_datetime_iff. unfold MAXORDINAL, US_PER_DAY. lia. }
  unfold timedelta_of_int_days, datetime_add. rewrite V1, V3.
  repeat split; trivial; try lia.
  - unfold US_PER_DAY. lia.
  - replace (a * US_PER_DAY + n * US_PER_DAY - a * US_PER_DAY)%Z with (n * US_PER_DAY)%Z by ring.
    apply td_days_mul.
Qed.

Section OrderLoop.
Context {rng : Type} `{PyRandom rng} {R : Rounding}.

Lemma returns_select_product catalog is_b2b :
  catalog <> [] ->
  returns (select_product catalog is_b2b) (valid_item catalog is_b2b).
Proof.
  intros Hne. unfold select_product.
  assert (Hlen : (0 < Z.of_nat (List.length catalog))%Z).
  { destruct catalog; [congruence | simpl; lia]. }
  eapply returns_bind; [apply returns_randint; lia|]. intros k Hk; cbv beta in Hk.
  destruct (@py_index_in _ catalog k ltac:(lia)) as (p & Ep & Hp).
  eapply returns_bind; [apply (returns_lift_eq Ep)|]. intros ? <-.
  destruct is_b2b.
  - eapply returns_bind; [apply returns_randint; lia|]. intros q Hq; cbv beta in Hq.
    apply returns_ret. split; [exact Hp | exact Hq].
  - eapply returns_bind; [apply returns_randint; lia|]. intros q Hq; cbv beta in Hq.
    apply returns_ret. split; [exact Hp | exact Hq].
Qed.

Lemma tables_of_snoc ds d :
  tables_of (ds ++ [d]) =
  ((fst (tables_of ds) ++ [order_of d])%list, (snd (tables_of ds) ++ line_items_of d)%list).
Proof.
  unfold tables_of. simpl. rewrite !map_app, concat_app. simpl.
  now rewrite app_nil_r.
Qed.

Lemma generate_order_spec catalog customer_table customer acc :
  catalog <> [] -> customer_ok customer -> In customer customer_table ->
  acc_ok catalog customer_table acc ->
  returns (generate_order catalog customer (is_b2b_customer customer)
                          (parse_acquisition_date customer) END_DATE acc)
          (acc_ok catalog customer_table).
Proof.
  intros Hne Hok Hin (ds & Etab & Hds). destruct acc as [[orders_data line_items_data] order_id].
  simpl in Etab.
  destruct (@window_facts customer Hok) as (W1 & W2 & V1 & V2 & Hn & Hend & Hdays).
  unfold generate_order.
  set (acq := parse_acquisition_date customer) in *.
  set (n := Z.min (td_days (datetime_sub END_DATE acq)) 730) in *.
  eapply returns_bind; [apply (returns_lift_eq W1)|].
  intros ? <-.
  eapply returns_bind; [apply (returns_lift_eq W2)|].
  intros ? <-.
  eapply returns_bind.
  { apply returns_random_date; [exact V1 | exact V2 |].
    assert (0 <= n * US_PER_DAY)%Z by (apply Z.mul_nonneg_nonneg; [exact Hn | discriminate]).
    lia. }
  intros order_date Hdate; cbv beta in Hdate. rewrite Hdays in Hdate.
  assert (Hsel : returns
            (num_products <- (if is_b2b_customer customer then randint 3 8 else randint 1 3) ;;
             mapM (fun _ : Z => select_product catalog (is_b2b_customer customer))
                  (py_range 0 num_products))
            (valid_selection catalog (is_b2b_customer customer))).
  { unfold valid_selection. destruct (is_b2b_customer customer).
    - eapply returns_bind; [apply returns_randint; lia|]. intros k Hk; cbv beta in Hk.
      eapply returns_weaken.
      + apply returns_mapM_length. intros. now apply returns_select_product.
      + intros sel [Hf Hl]. split; [exact Hf|]. rewrite Hl, py_range_length. lia.
    - eapply returns_bind; [apply returns_randint; lia|]. intros k Hk; cbv beta in Hk.
      eapply returns_weaken.
      + apply returns_mapM_length. intros. now apply returns_select_product.
      + intros sel [Hf Hl]. split; [exact Hf|]. rewrite Hl, py_range_length. lia. }
  assert (Hdisc : returns
            (di <- weighted_random (if is_b2b_customer customer
                                    then [20; 30; 30; 15; 5] else [70; 25; 5])%Z ;;
             lift (py_index (if is_b2b_customer customer then [0; 5; 10; 15; 20]
                             else [0; 10; 15])%Z di))
            (valid_discount (is_b2b_customer customer))).
  { unfold valid_discount. destruct (is_b2b_customer customer).
    - eapply returns_bind.
      { apply returns_weighted_random; [repeat constructor; lia | simpl; lia]. }
      intros di Hdi; cbv beta in Hdi. destruct (@py_index_in _ [0; 5; 10; 15; 20]%Z di Hdi) as (p & Ep & Hp).
      apply (returns_lift _ Ep Hp).
    - eapply returns_bind.
      { apply returns_weighted_random; [repeat constructor; lia | simpl; lia]. }
      intros di Hdi; cbv beta in Hdi. destruct (@py_index_in _ [0; 10; 15]%Z di Hdi) as (p & Ep & Hp).
      apply (returns_lift _ Ep Hp). }
  intros g.
  destruct (Hsel g) as (sel & g1 & Esel & Psel).
  unfold bind in Esel |- *.
  destruct ((if is_b2b_customer customer then randint 3 8 else randint 1 3) g)
    as [e|[k gk]] eqn:Ek; [discriminate|].
  rewrite Esel.
  destruct (Hdisc g1) as (pct & g2 & Edisc & Ppct). unfold bind in Edisc.
  destruct (weighted_random (if is_b2b_customer customer
                             then [20; 30; 30; 15; 5] else [70; 25; 5])%Z g1)
    as [e|[di gd]] eqn:Edi; [discriminate|].
  rewrite Edisc.
  destruct (returns_random g2) as (u1 & g3 & E1 & D1). rewrite E1.
  destruct (returns_random g3) as (u2 & g4 & E2 & D2). rewrite E2.
  eexists. eexists. split; [reflexivity|].
  exists (ds ++ [mkDraws customer order_id order_date sel pct u1 u2])%list.
  split.
  - rewrite tables_of_snoc, <- Etab. reflexivity.
  - apply Forall_app. split; [exact Hds|]. constructor; [|constructor].
    split; [|exact Hin]. unfold valid_draws.
    cbn [dr_customer dr_selected dr_discount_percent dr_u_date dr_u_cogs dr_order_date].
    split; [exact Psel|]. split; [exact Ppct|]. split; [exact D1|]. split; [exact D2|].
    unfold in_sampling_window. cbv zeta. fold acq. fold n. lia.
Qed.

End OrderLoop.

Section Pipeline.
Context {rng : Type} `{PyRandom rng} {R : Rounding}.

Lemma customer_orders_spec catalog customer_table customer acc :
  catalog <> [] -> customer_ok customer -> In customer customer_table ->
  acc_ok catalog customer_table acc ->
  returns (customer_orders catalog END_DATE acc customer)
          (acc_ok catalog customer_table).
Proof.
  intros Hne Hok Hin Hacc. unfold customer_orders.
  fold (is_b2b_customer customer).
  assert (Hn : returns
            (if is_b2b_customer customer then randint 12 36
             else if String.eqb (Customer.status customer) "Active" then randint 2 10
             else if String.eqb (Customer.status customer) "Churned" then randint 1 3
             else randint 2 7)
            (fun _ => True)).
  { destruct (is_b2b_customer customer);
      [|destruct (String.eqb (Customer.status customer) "Active");
        [|destruct (String.eqb (Customer.status customer) "Churned")]];
      (eapply returns_weaken; [apply returns_randint; lia | trivial]). }
  eapply returns_bind; [exact Hn|]. intros num_orders _.
  apply returns_foldM; [|exact Hacc].
  intros acc' x _ Hacc'. now apply generate_order_spec.
Qed.

Lemma generate_orders_spec self customer_table catalog :
  customers self = Some customer_table -> products self = Some catalog ->
  catalog <> [] -> Forall customer_ok customer_table ->
  returns (generate_orders self)
          (fun out =>
             exists ds,
               fst out = tables_of ds /\
               Forall (fun d => valid_draws catalog d /\ In (dr_customer d) customer_table) ds /\
               snd out = mkGenerator (products self) (customers self)
                                     (Some (fst (fst out))) (Some (snd (fst out)))).
Proof.
  intros Ec Ep Hne Hok. unfold generate_orders. rewrite Ec, Ep.
  eapply returns_bind.
  - apply (@returns_foldM _ _ _ (customer_orders catalog (mk_datetime 2024 11 30))
                          (acc_ok catalog customer_table)).
    + intros acc c Hc Hacc. apply customer_orders_spec; trivial.
      exact (proj1 (Forall_forall _ _) Hok c Hc).
    + exists []. split; [reflexivity | constructor].
  - intros [[orders_data line_items_data] order_id] (ds & Etab & Hds).
    apply returns_ret. exists ds. simpl in *. auto.
Qed.

Lemma strftime_bounds t lo hi :
  (lo * US_PER_DAY <= t <= hi * US_PER_DAY)%Z -> (lo + 1 <= strftime t <= hi + 1)%Z.
Proof.
  intros [L U]. unfold strftime.
  assert (lo <= t / US_PER_DAY)%Z by (apply Z.div_le_lower_bound; [reflexivity | lia]).
  assert (t / US_PER_DAY <= hi)%Z.
  { rewrite <- (Z.div_mul hi US_PER_DAY) by discriminate.
    apply Z.div_le_mono; [reflexivity | lia]. }
  lia.
Qed.

Lemma returns_acquisition (start_day : Z) :
  (737941 <= start_day <= 739219)%Z ->
  returns (random_date (start_day * US_PER_DAY) END_DATE)
          (fun t => valid_datetime t = true /\ 737942 <= strftime t <= 739220)%Z.
Proof.
  intros Hs. eapply returns_weaken.
  - apply returns_random_date.
    + apply valid_datetime_iff. unfold MAXORDINAL, US_PER_DAY. lia.
    + reflexivity.
    + rewrite END_DATE_eq. unfold US_PER_DAY. lia.
  - cbv beta. intros t Ht.
    pose proof (td_days_spec (datetime_sub END_DATE (start_day * US_PER_DAY))) as Hd.
    unfold datetime_sub in *. rewrite END_DATE_eq in *.
    assert (B : (737941 * US_PER_DAY <= t <= 739219 * US_PER_DAY)%Z).
    { unfold US_PER_DAY in *. lia. }
    split.
    + apply valid_datetime_iff. unfold MAXORDINAL, US_PER_DAY in *. lia.
    + pose proof (strftime_bounds _ _ B). lia.
Qed.

Ltac pick_from xs :=
  eapply returns_bind;
  [ apply returns_weighted_random; [repeat constructor; lia | simpl; lia]
  | let i := fresh "i" in let Hi := fresh "Hi" in
    intros i Hi; cbv beta in Hi;
    let a := fresh "a" in let Ea := fresh "Ea" in
    destruct (@py_index_in _ xs i Hi) as (a & Ea & _);
    eapply returns_bind; [apply (returns_lift_eq Ea)|]; intros ? <- ].

Lemma d2c_customer_spec (i : Z) :
  returns (d2c_customer (mk_datetime 2022 1 1) (mk_datetime 2024 11 30) i) customer_ok.
Proof.
  unfold d2c_customer.
  eapply returns_bind; [apply (@returns_acquisition 738155); lia|].
  intros acq_date [Va Hacq].
  destruct (td_days (datetime_sub (mk_datetime 2024 11 30) acq_date) <? 90)%Z;
    [|destruct (td_days (datetime_sub (mk_datetime 2024 11 30) acq_date) <? 365)%Z].
  all: pick_from statuses; pick_from channels; pick_from countries.
  all: eapply returns_bind; [apply returns_random|]; intros u1 _.
  all: eapply returns_bind; [apply returns_random|]; intros u2 _.
  all: apply returns_ret; unfold customer_ok; cbn [Customer.acquisition_date].
  all: destruct (flt u1 (literal 2 100)); [exact I|].
  all: change (ymd2ord 2021 6 1) with 737942%Z; change (ymd2ord 2024 11 30) with 739220%Z; lia.
Qed.

Lemma b2b_customer_spec (i : Z) :
  returns (b2b_customer (mk_datetime 2024 11 30) i) customer_ok.
Proof.
  unfold b2b_customer.
  eapply returns_bind; [apply (@returns_acquisition 737941); lia|].
  intros acq_date [Va Hacq].
  pick_from countries. pick_from account_tiers.
  apply returns_ret. unfold customer_ok. cbn [Customer.acquisition_date].
  change (ymd2ord 2021 6 1) with 737942%Z; change (ymd2ord 2024 11 30) with 739220%Z; lia.
Qed.

Lemma generate_customers_spec self num_d2c num_b2b :
  returns (generate_customers self num_d2c num_b2b)
          (fun out => Forall customer_ok (fst out) /\
                      snd out = mkGenerator (products self) (Some (fst out))
                                            (orders self) (order_line_items self)).
Proof.
  unfold generate_customers.
  eapply returns_bind; [apply returns_mapM; intros; apply d2c_customer_spec|].
  intros d2c Hd2c.
  eapply returns_bind; [apply returns_mapM; intros; apply b2b_customer_spec|].
  intros b2b Hb2b.
  apply returns_ret. simpl. split; [|reflexivity]. apply Forall_app. now split.
Qed.

Theorem generate_all_with_spec (num_d2c num_b2b : Z) :
  returns (generate_all_with init num_d2c num_b2b)
          (fun out => generated (fst out)).
Proof.
  unfold generate_all_with. simpl generate_products. cbv iota beta.
  eapply returns_bind; [apply generate_customers_spec|].
  intros [customer_table self2] [Hok E2]. simpl in Hok, E2. subst self2.
  eapply returns_bind.
  { eapply generate_orders_spec; [reflexivity | reflexivity | discriminate | exact Hok]. }
  intros [[orders_data line_items_data] self3] (ds & Etab & Hds & E3).
  simpl in Etab, E3. subst self3. apply returns_ret. simpl.
  exists customer_table, ds. unfold tables_of in Etab. inversion Etab; subst.
  repeat split; trivial.
Qed.

(** The script returns the four tables, whatever the seed and the counts. *)
Theorem run_spec (seed_value num_d2c num_b2b : Z) (ambient : rng) :
  exists datasets, run seed_value num_d2c num_b2b ambient = inr datasets /\
                   generated datasets.
Proof.
  unfold run.
  destruct (generate_all_with_spec num_d2c num_b2b (seed seed_value))
    as ([datasets self'] & g' & E & Hg).
  rewrite E. exists datasets. split; [reflexivity | exact Hg].
Qed.

End Pipeline.

(** ** The scripted generator *)

Lemma scripted_random53_range (g : list Z) : 0 <= fst (scripted_random53 g) < 2 ^ 53.
Proof.
  destruct g as [|k g]; simpl; [lia|]. apply Z.mod_pos_bound. reflexivity.
Qed.

Lemma scripted_randbelow_range (n : Z) (g : list Z) :
  0 < n -> 0 <= fst (scripted_randbelow n g) < n.
Proof.
  intros Hn. destruct g as [|r g]; simpl; [lia|]. now apply Z.mod_pos_bound.
Qed.

(** The generator whose stream after [random.seed] is [script]. *)
Definition scripted (script : list Z) : PyRandom (list Z) :=
  {| seed := fun _ => script;
     random53 := scripted_random53;
     random53_range := scripted_random53_range;
     randbelow := scripted_randbelow;
     randbelow_range := scripted_randbelow_range |}.

(** One D2C customer whose only order has two lines of the first product,
    2 and 3 units, at 10 percent.  A draw [k] stands for the float
    [k / 2^53]. *)
Definition c1_script : list Z :=
  [ 2 ^ 52;            (* acquisition date: half way through the window *)
    85 * 2 ^ 46;       (* status draw: 0.66 of 100 -> 'Churned' ... *)
    0; 0;              (* channel, country *)
    2 ^ 52; 2 ^ 52;    (* no missing acquisition date, no missing channel *)
    0;                 (* randint(1, 3) -> 1 order *)
    0;                 (* order date *)
    1;                 (* randint(1, 3) -> 2 products *)
    0; 1;              (* P001, quantity 2 *)
    0; 2;              (* P001, quantity 3 *)
    3 * 2 ^ 51;        (* discount draw 0.75 -> 10 percent *)
    2 ^ 52; 2 ^ 52 ].  (* order date and COGS kept *)

Definition c1_run (R : Rounding) : exn + Datasets :=
  @run _ (scripted c1_script) R 42 1 0 [].

(** One B2B customer whose first order has four lines of 16 units of the
    first product, at 10 percent. *)
Definition c7_script : list Z :=
  [ 2 ^ 52; 0; 0;        (* acquisition date, country, account tier *)
    0;                   (* randint(12, 36) -> 12 orders *)
    0;                   (* order date *)
    1;                   (* randint(3, 8) -> 4 products *)
    0; 6; 0; 6; 0; 6; 0; 6;   (* four times P001, quantity 16 *)
    5 * 2 ^ 50;          (* discount draw 0.625 -> 10 percent *)
    2 ^ 52; 2 ^ 52 ]%Z.  (* order date and COGS kept *)

Definition c7_run (R : Rounding) : exn + Datasets :=
  @run _ (scripted c7_script) R 42 0 1 [].

(** * The claims *)

Section Claims.
Context {rng : Type} `{PyRandom rng} {R : Rounding}.

(** C2. In every run, every order of the order table has a null
    [total_cogs] exactly when it has a null [profit]. *)
Theorem C2_paired_null (seed_value num_d2c num_b2b : Z) (ambient : rng) :
  exists datasets orders_table,
    run seed_value num_d2c num_b2b ambient = inr datasets /\
    ds_orders datasets = Some orders_table /\
    Forall (fun o => Order.total_cogs o = None <-> Order.profit o = None) orders_table.
Proof.
  destruct (run_spec seed_value num_d2c num_b2b ambient)
    as (datasets & E & cs & ds & _ & _ & Eo & _ & _ & _).
  exists datasets, (map order_of ds). repeat split; trivial.
  apply Forall_map, Forall_forall. intros d _.
  unfold order_of, make_order. cbn [Order.total_cogs Order.profit].
  destruct (flt (dr_u_cogs d) (literal 3 100)); split; congruence.
Qed.

End Claims.

Section Claims2.
Context {rng : Type} `{PyRandom rng} {R : Rounding}.


(** C3.  In every run the line-item table is the concatenation, order by
    order, of the line items of each order; every line item of an order with
    selection [sel], unrounded subtotal [s] and unrounded discount amount
    [d] belongs to one [item] of [sel] and stores the roundings of
    [item_subtotal], of [item_subtotal / s * d], of
    [item_subtotal - item_subtotal / s * d] and of that revenue minus
    [item_cogs]. *)
Theorem C3_proportional_discount (seed_value num_d2c num_b2b : Z) (ambient : rng) :
  exists datasets (passes : list (Order.t * selection * list LineItem.t)),
    run seed_value num_d2c num_b2b ambient = inr datasets /\
    ds_orders datasets = Some (map (fun p => fst (fst p)) passes) /\
    ds_order_line_items datasets = Some (List.concat (map snd passes)) /\
    Forall (fun p =>
      let '(o, sel, rows) := p in
      let s := py_sum (map item_subtotal sel) in
      let d := fmul s (int_truediv (Order.discount_percent o) 100) in
      Order.subtotal o = round_ s 2 /\
      Order.discount_amount o = round_ d 2 /\
      List.length rows = List.length sel /\
      Forall (fun li =>
        exists item, In item sel /\
          let isub := fmul (Product.unit_price (fst item)) (of_int (snd item)) in
          let icogs := fmul (Product.avg_cogs (fst item)) (of_int (snd item)) in
          let idisc := fmul (fdiv isub s) d in
          LineItem.quantity li = snd item /\
          LineItem.subtotal li = round_ isub 2 /\
          LineItem.discount_amount li = round_ idisc 2 /\
          LineItem.revenue li = round_ (fsub isub idisc) 2 /\
          LineItem.profit li = Some (round_ (fsub (fsub isub idisc) icogs) 2)) rows)
      passes.
Proof.
  destruct (run_spec seed_value num_d2c num_b2b ambient)
    as (datasets & E & cs & ds & _ & _ & Eo & El & _ & _).
  exists datasets, (map (fun d => (order_of d, dr_selected d, line_items_of d)) ds).
  rewrite !map_map. cbn [fst snd].
  split; [exact E|]. split; [exact Eo|]. split; [exact El|].
  apply Forall_map, Forall_forall. intros d _. cbv zeta.
  split; [reflexivity|]. split; [reflexivity|]. split.
  - unfold line_items_of, make_line_items, enumerate1.
    rewrite length_map, length_combine, py_range_length. lia.
  - unfold line_items_of, make_line_items. apply Forall_map, Forall_forall.
    intros [idx item] Hin. exists item. split.
    + unfold enumerate1 in Hin. now apply in_combine_r in Hin.
    + repeat split.
Qed.





(** C10.  On a non-empty table whose weights are all zero, [weighted_random]
    returns normally, whatever the draw, and the index it returns is the
    last one, [len(weights) - 1]. *)
Theorem C10_all_zero_weights (weights : list Z) (g : rng) :
  weights <> [] -> Forall (fun w => w = 0) weights ->
  let last := Z.of_nat (List.length weights) - 1 in
  weighted_random weights g = inr (last, snd (random53 g)) /\
  0 <= last < Z.of_nat (List.length weights).
Proof.
  intros Hne Hz last. destruct (weighted_random_run weights g) as (u & _ & E).
  rewrite E, (weighted_pick_zero u Hz). split; [reflexivity|].
  unfold last. destruct weights; [congruence|]. cbn [List.length]. lia.
Qed.

End Claims2.
(** ** Counterexamples *)


(** The same order under the rounding of [numpy.float64]. *)
Lemma C1_counterexample_numpy :
  exists o, first_order (c1_run numpy_round) = Some o /\
            ~ @persisted_equations numpy_round o.
Proof.
  eexists. split; [vm_compute; reflexivity|].
  intros [Hrev _]. vm_compute in Hrev. discriminate Hrev.
Qed.

(** The stored fields of that order, in hundredths. *)
Example c1_order_fields :
  option_map (fun o => (Order.subtotal o, Order.discount_amount o, Order.revenue o,
                        builtin_round (fsub (Order.subtotal o) (Order.discount_amount o)) 2))
             (first_order (c1_run builtin_round))
  = Some (literal 9495 100, literal 949 100, literal 8545 100, literal 8546 100).
Proof. vm_compute. reflexivity. Qed.


Example c5_values :
  (draw_value c5_weights (Qred (c5_draw # 2 ^ 53)) == inject_Z (2 ^ 53 + 4))%Q /\
  weighted_pick c5_weights (Qred (c5_draw # 2 ^ 53)) = 2 /\
  selected_by_prefix c5_weights (draw_value c5_weights (Qred (c5_draw # 2 ^ 53))) 1.
Proof.
  split; [vm_compute; reflexivity|]. split; [vm_compute; reflexivity|].
  split; [cbv; split; [discriminate | reflexivity]|].
  split; [intro E; vm_compute in E; discriminate | vm_compute; reflexivity].
Qed.

Section Claims3.
Context {rng : Type} `{PyRandom rng}.



End Claims3.



(** C10 at the weights [[0, 0, 0]]. *)
Lemma C10_witness :
  let last := Z.of_nat (List.length [0; 0; 0]) - 1 in
  @weighted_random _ (scripted []) [0; 0; 0] [12345]
    = inr (last, snd (@random53 _ (scripted []) [12345])) /\
  0 <= last < Z.of_nat (List.length [0; 0; 0]).
Proof.
  apply (@C10_all_zero_weights _ (scripted [])).
  - discriminate.
  - repeat constructor.
Defined.

(* ===================================================================== *)
(** * The sums over the line items                                        *)
(* ===================================================================== *)

Unset Implicit Arguments.
Open Scope Q_scope.

(** ** Error bounds of the operations *)

Lemma rne_err z k :
  Qabs z < pow2 (k + 1) -> (-1022 <= k)%Z -> Qabs (rne z - z) <= pow2 (k - 53).
Proof. intros Hz Hk. apply rne_error_le; [exact Hz | lia]. Qed.

(** The same with the bounds written out. *)
Lemma rne_err_const z (B E : Q) k :
  pow2 (k + 1) = B -> pow2 (k - 53) = E -> (-1022 <= k)%Z ->
  Qabs z < B -> Qabs (rne z - z) <= E.
Proof. intros <- <- Hk Hz. now apply rne_err. Qed.

Lemma abs_le_iff (x y : Q) : Qabs x <= y <-> - y <= x <= y.
Proof. apply Qabs_Qle_condition. Qed.

Lemma abs_lt_iff (x y : Q) : Qabs x < y <-> - y < x < y.
Proof. apply Qabs_Qlt_condition. Qed.

Lemma hundred_eq : inject_Z (10 ^ 2) = 100.
Proof. reflexivity. Qed.

Lemma of_int_100 : of_int (10 ^ 2) = 100.
Proof. vm_compute. reflexivity. Qed.

Lemma round_builtin_unfold x :
  @round_ builtin_round x 2%Z
  = rne (inject_Z (rint (x * inject_Z (10 ^ 2))) / inject_Z (10 ^ 2)).
Proof. reflexivity. Qed.

Lemma round_builtin x :
  @round_ builtin_round x 2%Z = rne (inject_Z (rint (x * 100)) / 100).
Proof. rewrite round_builtin_unfold, hundred_eq. reflexivity. Qed.

Lemma round_numpy_unfold x :
  @round_ numpy_round x 2%Z
  = rne (inject_Z (rint (rne (x * of_int (10 ^ 2)))) / of_int (10 ^ 2)).
Proof. reflexivity. Qed.

Lemma round_numpy x :
  @round_ numpy_round x 2%Z = rne (inject_Z (rint (rne (x * 100))) / 100).
Proof. rewrite round_numpy_unfold, of_int_100. reflexivity. Qed.

Lemma two_decimals_error (r x : Q) :
  Qabs (r / 100) < 16777216 ->
  Qabs (r / 100 - x) <= (1 # 200) + (1 # 1073741824) ->
  Qabs (rne (r / 100) - x) <= (1 # 200) + (1 # 536870912).
Proof.
  intros Hm Hy.
  pose proof (@rne_err_const (r / 100) 16777216 (1 # 1073741824) 23
                eq_refl eq_refl ltac:(lia) Hm) as He.
  set (y := r / 100) in *. set (z := rne y) in *. clearbody z y.
  apply abs_le_iff in He. apply abs_le_iff in Hy. apply abs_le_iff. split; lra.
Qed.

Lemma two_decimals_close (x r : Q) :
  Qabs x <= 8388608 -> r - (1 # 2) <= x * 100 <= r + (1 # 2) ->
  Qabs (rne (r / 100) - x) <= (1 # 200) + (1 # 536870912).
Proof.
  intros Hx [Lo Hi]. apply abs_le_iff in Hx. destruct Hx as [X0 X1].
  apply two_decimals_error.
  - apply abs_lt_iff. unfold Qdiv. change (/ 100) with (1 # 100). split; lra.
  - apply abs_le_iff. unfold Qdiv. change (/ 100) with (1 # 100). split; lra.
Qed.

Lemma builtin_round_close : round_close builtin_round.
Proof.
  intros x Hx. rewrite round_builtin.
  apply two_decimals_close; [exact Hx | apply rint_bounds].
Qed.

Lemma numpy_round_close : round_close numpy_round.
Proof.
  intros x Hx. rewrite round_numpy.
  pose proof Hx as Hx'. apply abs_le_iff in Hx'. destruct Hx' as [X0 X1].
  assert (Hm : Qabs (x * 100) < 1073741824) by (apply abs_lt_iff; split; lra).
  pose proof (@rne_err_const (x * 100) 1073741824 (1 # 16777216) 29
                eq_refl eq_refl ltac:(lia) Hm) as He1.
  apply abs_le_iff in He1.
  pose proof (rint_bounds (rne (x * 100))) as [Lo Hi].
  set (w := rne (x * 100)) in *.
  set (r := inject_Z (rint w)) in *. clearbody r. clearbody w.
  apply two_decimals_error.
  - apply abs_lt_iff. unfold Qdiv. change (/ 100) with (1 # 100). split; lra.
  - apply abs_le_iff. unfold Qdiv. change (/ 100) with (1 # 100). split; lra.
Qed.

(** ** Sums *)

Lemma Qsum_cons x xs : Qsum (x :: xs) = x + Qsum xs.
Proof. reflexivity. Qed.

Lemma lenQ_nil (A : Type) : lenQ (@nil A) = 0.
Proof. reflexivity. Qed.

Lemma lenQ_cons {A} (x : A) xs : lenQ (x :: xs) == 1 + lenQ xs.
Proof.
  unfold lenQ. cbn [List.length].
  rewrite Nat2Z.inj_succ, <- Z.add_1_l, inject_Z_plus. reflexivity.
Qed.

Lemma lenQ_nonneg {A} (xs : list A) : 0 <= lenQ xs.
Proof. unfold lenQ. change 0 with (inject_Z 0). rewrite <- Zle_Qle. lia. Qed.

Lemma lenQ_map {A B} (f : A -> B) xs : lenQ (map f xs) = lenQ xs.
Proof. unfold lenQ. now rewrite length_map. Qed.

Lemma lenQ_le {A} (xs : list A) (n : Z) :
  (Z.of_nat (List.length xs) <= n)%Z -> lenQ xs <= inject_Z n.
Proof. intros Hn. unfold lenQ. now rewrite <- Zle_Qle. Qed.

Lemma lenQ_ge {A} (xs : list A) (n : Z) :
  (n <= Z.of_nat (List.length xs))%Z -> inject_Z n <= lenQ xs.
Proof. intros Hn. unfold lenQ. now rewrite <- Zle_Qle. Qed.

(** Sums of two families that are termwise within [c] are within [n * c]. *)
Lemma Qsum_close {A} (f g : A -> Q) (c : Q) xs :
  Forall (fun x => Qabs (f x - g x) <= c) xs ->
  Qabs (Qsum (map f xs) - Qsum (map g xs)) <= lenQ xs * c.
Proof.
  induction 1 as [|x xs Hx _ IH]; cbn [map].
  - rewrite (lenQ_nil A). apply abs_le_iff. cbn [Qsum fold_right]. split; lra.
  - rewrite !Qsum_cons, lenQ_cons.
    apply abs_le_iff in Hx. apply abs_le_iff in IH. apply abs_le_iff.
    set (L := lenQ xs) in *. clearbody L. split; lra.
Qed.

(** The float sum of at most twelve amounts up to 2400 each is within
    [n * 2^-39] of the exact sum. *)
Lemma fold_fadd_error xs : forall acc,
  Forall (fun x => 0 <= x <= 2400) xs ->
  0 <= acc -> acc + 2401 * lenQ xs <= 30000 ->
  (0 <= fold_left fadd xs acc <= acc + 2401 * lenQ xs) /\
  Qabs (fold_left fadd xs acc - (acc + Qsum xs)) <= lenQ xs * (1 # 549755813888).
Proof.
  induction xs as [|x xs IH]; intros acc Hxs Hacc Hcap.
  - cbn [fold_left Qsum fold_right]. rewrite (lenQ_nil Q) in *. split; [split; lra|].
    apply abs_le_iff. split; lra.
  - inversion_clear Hxs as [|? ? [Hx0 Hx1] Hrest].
    cbn [fold_left]. rewrite Qsum_cons. rewrite lenQ_cons in *.
    pose proof (lenQ_nonneg xs) as HL.
    assert (Hm : Qabs (acc + x) < 32768) by (apply abs_lt_iff; split; lra).
    pose proof (@rne_err_const (acc + x) 32768 (1 # 549755813888) 14
                  eq_refl eq_refl ltac:(lia) Hm) as He.
    assert (H0 : 0 <= fadd acc x) by (apply rne_nonneg; lra).
    unfold fadd in *. set (acc' := rne (acc + x)) in *. clearbody acc'.
    apply abs_le_iff in He.
    destruct (IH acc' Hrest H0) as [[B0 B1] E]; [lra|].
    set (F := fold_left (fun a b => rne (a + b)) xs acc') in *. clearbody F.
    apply abs_le_iff in E.
    split; [split; lra|]. apply abs_le_iff. split; lra.
Qed.

Lemma of_int_0 : of_int 0 = 0.
Proof. vm_compute. reflexivity. Qed.

Lemma py_sum_error xs :
  Forall (fun x => 0 <= x <= 2400) xs -> lenQ xs <= 8 ->
  (0 <= py_sum xs <= 19208) /\
  Qabs (py_sum xs - Qsum xs) <= lenQ xs * (1 # 549755813888).
Proof.
  intros Hxs Hn. unfold py_sum. rewrite of_int_0.
  destruct (fold_fadd_error xs 0 Hxs) as [[B0 B1] E]; [lra | lra |].
  split; [split; lra|].
  apply abs_le_iff in E. apply abs_le_iff. split; lra.
Qed.

(** ** The share of the discount of one line *)

Lemma inverse_bounds (S : Q) : 14 <= S -> 0 < / S /\ / S <= 1 # 14 /\ S * / S == 1.
Proof.
  intros HS. assert (Hpos : 0 < S) by lra.
  assert (Hi : 0 < / S) by now apply Qinv_lt_0_compat.
  assert (E : S * / S == 1) by (apply Qmult_inv_r; lra).
  split; [exact Hi|]. split; [|exact E].
  set (i := / S) in *. clearbody i. nra.
Qed.

(** [a - fl(fl(a / S) * D)], rounded, against the exact [a - a / S * D]. *)
Lemma item_revenue_error (a S D : Q) :
  0 <= a <= 2400 -> 14 <= S <= 30000 -> 0 <= D <= S ->
  Qabs (fsub a (fmul (fdiv a S) D) - (a - a / S * D)) <= 1 # 536870912 /\
  Qabs (fsub a (fmul (fdiv a S) D)) <= 8388608.
Proof.
  intros [A0 A1] [S0 S1] [D0 D1].
  destruct (inverse_bounds S S0) as (I0 & I1 & _).
  unfold fsub, fmul, fdiv, Qdiv. set (i := / S) in *. clearbody i.
  assert (Q0 : 0 <= a * i) by nra.
  assert (Q1 : a * i <= 172) by nra.
  assert (Hq : Qabs (a * i) < 256) by (apply abs_lt_iff; split; lra).
  pose proof (@rne_err_const (a * i) 256 (1 # 70368744177664) 7
                eq_refl eq_refl ltac:(lia) Hq) as Ef.
  pose proof (@rne_nonneg (a * i) Q0) as F0.
  set (q := a * i) in *. clearbody q.
  set (f := rne q) in *. clearbody f. apply abs_le_iff in Ef.
  assert (F1 : f <= 173) by lra.
  assert (P0 : 0 <= f * D) by nra.
  assert (P1 : f * D <= 5190000) by nra.
  assert (Hp : Qabs (f * D) < 8388608) by (apply abs_lt_iff; split; lra).
  pose proof (@rne_err_const (f * D) 8388608 (1 # 2147483648) 22
                eq_refl eq_refl ltac:(lia) Hp) as Et.
  assert (Efd : - (1 # 2147483648) <= f * D - q * D <= 1 # 2147483648) by (split; nra).
  set (t := rne (f * D)) in *. clearbody t. apply abs_le_iff in Et.
  assert (Hv : Qabs (a - t) < 8388608) by (apply abs_lt_iff; split; lra).
  pose proof (@rne_err_const (a - t) 8388608 (1 # 2147483648) 22
                eq_refl eq_refl ltac:(lia) Hv) as Ev.
  set (v := rne (a - t)) in *. clearbody v. apply abs_le_iff in Ev.
  split; apply abs_le_iff; split; lra.
Qed.

(** The exact shares add up to the exact discounted total. *)
Lemma Qsum_shares (S D : Q) xs :
  Qsum (map (fun a => a - a / S * D) xs) == Qsum xs - Qsum xs / S * D.
Proof.
  induction xs as [|x xs IH]; cbn [map].
  - cbn [Qsum fold_right]. unfold Qdiv. ring.
  - rewrite !Qsum_cons, IH. unfold Qdiv. ring.
Qed.

Lemma shares_total (A S D e : Q) :
  14 <= S -> 0 <= D <= S -> Qabs (S - A) <= e ->
  Qabs ((A - A / S * D) - (S - D)) <= e.
Proof.
  intros S0 [D0 D1] He.
  destruct (inverse_bounds S S0) as (I0 & I1 & E).
  unfold Qdiv. set (i := / S) in *. clearbody i.
  assert (W0 : 0 <= i * D) by nra.
  assert (W1 : i * D <= 1) by nra.
  assert (ED : D == (i * D) * S) by (rewrite <- (Qmult_1_l D) at 1; rewrite <- E; ring).
  assert (EX : A - A * i * D - (S - D) == (A - S) * (1 - i * D)).
  { rewrite ED at 2. ring. }
  rewrite EX. set (w := i * D) in *. clearbody w.
  apply abs_le_iff in He. apply abs_le_iff. split; nra.
Qed.

Lemma Qsum_lower (c : Q) xs : Forall (fun x => c <= x) xs -> lenQ xs * c <= Qsum xs.
Proof.
  induction 1 as [|x xs Hx _ IH].
  - rewrite (lenQ_nil Q). cbn [Qsum fold_right]. lra.
  - rewrite Qsum_cons, lenQ_cons. set (L := lenQ xs) in *. clearbody L. lra.
Qed.

(** ** Sums of rounded amounts against the rounded float sum *)

Section SumsOfRounded.
Context {R : Rounding} (HR : round_close R).

Lemma rounded_sum_close (xs : list Q) :
  Forall (fun x => 0 <= x <= 2400) xs -> lenQ xs <= 8 ->
  Qabs (Qsum (map (fun x => round_ x 2) xs) - round_ (py_sum xs) 2)
    <= (lenQ xs + 1) * (1 # 200) + (1 # 1000000).
Proof.
  intros Hxs Hn.
  destruct (py_sum_error xs Hxs Hn) as [[B0 B1] E].
  assert (T : Qabs (Qsum (map (fun x => round_ x 2) xs) - Qsum (map (fun x => x) xs))
              <= lenQ xs * ((1 # 200) + (1 # 536870912))).
  { apply Qsum_close. eapply Forall_impl; [|exact Hxs]. intros x [X0 X1].
    apply HR. apply abs_le_iff; split; lra. }
  rewrite map_id in T.
  assert (Hs : Qabs (py_sum xs) <= 8388608) by (apply abs_le_iff; split; lra).
  pose proof (HR (py_sum xs) Hs) as Er.
  pose proof (lenQ_nonneg xs) as HL.
  set (S := py_sum xs) in *. set (S' := round_ S 2) in *.
  set (T' := Qsum (map (fun x => round_ x 2) xs)) in *.
  set (A := Qsum xs) in *. set (L := lenQ xs) in *.
  clearbody S S' T' A L.
  apply abs_le_iff in E. apply abs_le_iff in T. apply abs_le_iff in Er.
  apply abs_le_iff. split; lra.
Qed.

Lemma revenue_sum_close (xs : list Q) (p : Q) :
  Forall (fun x => 15 <= x <= 2400) xs -> 1 <= lenQ xs <= 8 -> 0 <= p <= 1 # 4 ->
  Qabs (Qsum (map (fun a => round_ (fsub a (fmul (fdiv a (py_sum xs))
                                                  (fmul (py_sum xs) p))) 2) xs)
        - round_ (fsub (py_sum xs) (fmul (py_sum xs) p)) 2)
    <= (lenQ xs + 1) * (1 # 200) + (1 # 1000000).
Proof.
  intros Hxs [N0 N1] [P0 P1].
  assert (Hxs' : Forall (fun x => 0 <= x <= 2400) xs).
  { eapply Forall_impl; [|exact Hxs]. intros x [X0 X1]. split; lra. }
  destruct (py_sum_error xs Hxs' N1) as [[B0 B1] E].
  assert (Hlow : lenQ xs * 15 <= Qsum xs).
  { apply Qsum_lower. eapply Forall_impl; [|exact Hxs]. now intros x [X0 _]. }
  assert (S0 : 14 <= py_sum xs).
  { apply abs_le_iff in E. set (L := lenQ xs) in *. clearbody L. lra. }
  set (S := py_sum xs) in *. clearbody S.
  assert (M0 : 0 <= S * p) by nra.
  assert (M1 : S * p <= S * (1 # 4)) by nra.
  assert (Hm : Qabs (S * p) < 32768) by (apply abs_lt_iff; split; lra).
  pose proof (@rne_err_const (S * p) 32768 (1 # 549755813888) 14
                eq_refl eq_refl ltac:(lia) Hm) as Ed.
  pose proof (@rne_nonneg (S * p) M0) as D0.
  change (fmul S p) with (rne (S * p)). set (D := rne (S * p)) in *. clearbody D.
  apply abs_le_iff in Ed.
  assert (D1 : D <= S) by lra.
  assert (Hitems : Forall (fun a => Qabs (round_ (fsub a (fmul (fdiv a S) D)) 2
                                          - (a - a / S * D))
                                    <= (1 # 200) + (1 # 268435456)) xs).
  { eapply Forall_impl; [|exact Hxs']. intros a Ha.
    destruct (item_revenue_error a S D Ha) as [Ev Bv]; [split; lra | split; lra |].
    pose proof (HR _ Bv) as Er.
    set (v := fsub a (fmul (fdiv a S) D)) in *. clearbody v.
    set (r := round_ v 2) in *. clearbody r.
    set (x := a - a / S * D) in *. clearbody x.
    apply abs_le_iff in Ev. apply abs_le_iff in Er. apply abs_le_iff. split; lra. }
  apply Qsum_close in Hitems. rewrite Qsum_shares in Hitems. cbv beta in Hitems.
  assert (Hx : Qabs ((Qsum xs - Qsum xs / S * D) - (S - D))
               <= lenQ xs * (1 # 549755813888)).
  { apply shares_total; [exact S0 | split; lra | exact E]. }
  assert (Hr : Qabs (S - D) < 32768) by (apply abs_lt_iff; split; lra).
  pose proof (@rne_err_const (S - D) 32768 (1 # 549755813888) 14
                eq_refl eq_refl ltac:(lia) Hr) as Ex.
  change (fsub S D) with (rne (S - D)). set (V := rne (S - D)) in *. clearbody V.
  apply abs_le_iff in Ex.
  assert (HV : Qabs V <= 8388608) by (apply abs_le_iff; split; lra).
  pose proof (HR V HV) as Er.
  set (T' := Qsum (map (fun a => round_ (fsub a (fmul (fdiv a S) D)) 2) xs)) in *.
  set (X := Qsum xs - Qsum xs / S * D) in *.
  set (V' := round_ V 2) in *. set (L := lenQ xs) in *.
  assert (Hi : Qabs (T' - X) <= L * ((1 # 200) + (1 # 268435456))) by exact Hitems.
  clear Hitems. clearbody T' X V' L.
  apply abs_le_iff in Hi. apply abs_le_iff in Hx. apply abs_le_iff in Er.
  apply abs_le_iff. split; lra.
Qed.

End SumsOfRounded.

(** ** The amounts of the catalog *)

Lemma catalog_prices :
  Forall (fun p => (15 <= Product.unit_price p <= 40) /\ (7 <= Product.avg_cogs p <= 18))
         products_data.
Proof.
  unfold products_data. repeat constructor; apply Qle_bool_iff; vm_compute; reflexivity.
Qed.

Lemma item_bounds (is_b2b : bool) (item : Product.t * Z) :
  valid_item products_data is_b2b item ->
  (15 <= item_subtotal item <= 2400) /\ (0 <= item_cogs item <= 2400).
Proof.
  intros [Hin Hq].
  pose proof catalog_prices as HP. rewrite Forall_forall in HP.
  destruct (HP _ Hin) as [[U0 U1] [C0 C1]].
  assert (Hq' : (1 <= snd item <= 60)%Z) by (destruct is_b2b; lia).
  pose proof (@of_int_exact (snd item) ltac:(lia)) as Eq.
  assert (Q0 : 1 <= of_int (snd item)).
  { rewrite Eq. change 1 with (inject_Z 1). rewrite <- Zle_Qle. lia. }
  assert (Q1 : of_int (snd item) <= 60).
  { rewrite Eq. change 60 with (inject_Z 60). rewrite <- Zle_Qle. lia. }
  unfold item_subtotal, item_cogs, fmul.
  set (u := Product.unit_price (fst item)) in *.
  set (c := Product.avg_cogs (fst item)) in *.
  set (q := of_int (snd item)) in *. clearbody u c q.
  assert (E15 : 15 <= rne 15) by (apply Qle_bool_iff; vm_compute; reflexivity).
  assert (E24 : rne 2400 <= 2400) by (apply Qle_bool_iff; vm_compute; reflexivity).
  split; split.
  - eapply Qle_trans; [exact E15|]. apply rne_mono. nra.
  - eapply Qle_trans; [|exact E24]. apply rne_mono. nra.
  - apply rne_nonneg. nra.
  - eapply Qle_trans; [|exact E24]. apply rne_mono. nra.
Qed.

Lemma discount_rate_bounds (is_b2b : bool) (discount_percent : Z) :
  valid_discount is_b2b discount_percent ->
  0 <= int_truediv discount_percent 100 <= 1 # 4.
Proof.
  intros Hd.
  assert (Hp : (0 <= discount_percent <= 20)%Z).
  { unfold valid_discount in Hd. destruct is_b2b; cbn [In] in Hd; lia. }
  unfold int_truediv.
  assert (B0 : 0 <= inject_Z discount_percent).
  { change 0 with (inject_Z 0). rewrite <- Zle_Qle. lia. }
  assert (B1 : inject_Z discount_percent <= 20).
  { change 20 with (inject_Z 20). rewrite <- Zle_Qle. lia. }
  set (n := inject_Z discount_percent) in *. clearbody n.
  assert (E : rne (1 # 4) <= 1 # 4) by (apply Qle_bool_iff; vm_compute; reflexivity).
  unfold Qdiv. change (/ inject_Z 100) with (1 # 100). split.
  - apply rne_nonneg. lra.
  - eapply Qle_trans; [|exact E]. apply rne_mono. lra.
Qed.

(** ** The rows of one order *)

Lemma map_snd_combine {A B} (xs : list A) : forall (ys : list B),
  List.length xs = List.length ys -> map snd (combine xs ys) = ys.
Proof.
  induction xs as [|x xs IH]; intros [|y ys] Hlen; try discriminate; [reflexivity|].
  cbn [combine map snd]. f_equal. apply IH. now injection Hlen.
Qed.

Lemma map_enumerate1 {A B} (f : A -> B) (g : Z * A -> B) (xs : list A) :
  (forall e, g e = f (snd e)) -> map g (enumerate1 xs) = map f xs.
Proof.
  intros Hg. rewrite (map_ext g (fun e => f (snd e)) Hg), <- map_map.
  unfold enumerate1. rewrite map_snd_combine; [reflexivity|].
  rewrite py_range_length. lia.
Qed.

Section Rows.
Context {R : Rounding}.

Lemma line_items_length (d : order_draws) :
  List.length (line_items_of d) = List.length (dr_selected d).
Proof.
  unfold line_items_of, make_line_items, enumerate1.
  rewrite length_map, length_combine, py_range_length. lia.
Qed.

Lemma line_items_subtotals (d : order_draws) :
  map LineItem.subtotal (line_items_of d)
  = map (fun x => round_ x 2) (map item_subtotal (dr_selected d)).
Proof.
  unfold line_items_of, make_line_items. rewrite !map_map.
  apply map_enumerate1. now intros [idx item].
Qed.

Lemma line_items_cogs (d : order_draws) :
  map cogs_value (line_items_of d)
  = map (fun x => round_ x 2) (map item_cogs (dr_selected d)).
Proof.
  unfold line_items_of, make_line_items. rewrite !map_map.
  apply map_enumerate1. now intros [idx item].
Qed.

Lemma line_items_revenues (d : order_draws) :
  let s := py_sum (map item_subtotal (dr_selected d)) in
  let p := int_truediv (dr_discount_percent d) 100 in
  map LineItem.revenue (line_items_of d)
  = map (fun a => round_ (fsub a (fmul (fdiv a s) (fmul s p))) 2)
        (map item_subtotal (dr_selected d)).
Proof.
  cbv zeta. unfold line_items_of, make_line_items. rewrite !map_map.
  apply map_enumerate1. now intros [idx item].
Qed.

(** The sums over the line items of one pass of the order loop. *)
Lemma pass_sums (d : order_draws) :
  round_close R -> valid_draws products_data d ->
  (1 <= List.length (line_items_of d) <= 8)%nat /\
  sums_reproduce ((lenQ (line_items_of d) + 1) * (1 # 200) + (1 # 1000000))
                 (order_of d) (line_items_of d).
Proof.
  intros HR (Hsel & Hdisc & _).
  destruct Hsel as [Hitems Hlen].
  assert (Hn : (1 <= Z.of_nat (List.length (dr_selected d)) <= 8)%Z).
  { destruct (is_b2b_customer (dr_customer d)); lia. }
  assert (HL : lenQ (line_items_of d) = lenQ (dr_selected d)).
  { unfold lenQ. now rewrite line_items_length. }
  split; [rewrite line_items_length; lia|].
  rewrite HL.
  assert (Hsub : Forall (fun x => 15 <= x <= 2400) (map item_subtotal (dr_selected d))).
  { apply Forall_map. eapply Forall_impl; [|exact Hitems].
    intros item Hv. apply (item_bounds _ _ Hv). }
  assert (Hsub0 : Forall (fun x => 0 <= x <= 2400) (map item_subtotal (dr_selected d))).
  { eapply Forall_impl; [|exact Hsub]. intros x [X0 X1]. split; lra. }
  assert (Hcogs : Forall (fun x => 0 <= x <= 2400) (map item_cogs (dr_selected d))).
  { apply Forall_map. eapply Forall_impl; [|exact Hitems].
    intros item Hv. apply (item_bounds _ _ Hv). }
  assert (N0 : 1 <= lenQ (dr_selected d)) by (apply (lenQ_ge _ 1); lia).
  assert (N1 : lenQ (dr_selected d) <= 8) by (apply (lenQ_le _ 8); lia).
  split; [|split].
  - rewrite line_items_subtotals.
    rewrite <- (lenQ_map item_subtotal). apply (rounded_sum_close HR).
    + exact Hsub0.
    + now rewrite lenQ_map.
  - rewrite line_items_revenues.
    rewrite <- (lenQ_map item_subtotal).
    apply (revenue_sum_close HR).
    + exact Hsub.
    + now rewrite lenQ_map.
    + apply (discount_rate_bounds _ _ Hdisc).
  - intros c Hc. rewrite line_items_cogs.
    unfold order_of, make_order in Hc. cbn [Order.total_cogs] in Hc.
    destruct (flt (dr_u_cogs d) (literal 3 100)); [discriminate|].
    injection Hc as <-.
    rewrite <- (lenQ_map item_cogs). apply (rounded_sum_close HR).
    + exact Hcogs.
    + now rewrite lenQ_map.
Qed.

End Rows.

(** ** The sums over the line items *)

Section Claims4.
Context {rng : Type} `{PyRandom rng} {R : Rounding}.

(** C7, as amended.  Let the rounding to two decimals stay within half a
    cent of its argument (up to [2^-29], for amounts below [2^23]), as both
    roundings of this file do.  Then in every run the line-item table is the
    concatenation, order by order, of the line items of each order; an order
    has between 1 and 8 line items; and with [n] line items, the sums of
    their stored [subtotal], [revenue] and [cogs] are within
    [(n + 1) * 0.005 + 0.000001] of the order's stored [subtotal], [revenue]
    and, when it is not null, [total_cogs]. *)
Theorem C7_line_item_sums (seed_value num_d2c num_b2b : Z) (ambient : rng) :
  round_close R ->
  exists datasets (passes : list (Order.t * list LineItem.t)),
    run seed_value num_d2c num_b2b ambient = inr datasets /\
    ds_orders datasets = Some (map fst passes) /\
    ds_order_line_items datasets = Some (List.concat (map snd passes)) /\
    Forall (fun p =>
      (1 <= List.length (snd p) <= 8)%nat /\
      sums_reproduce ((lenQ (snd p) + 1) * (1 # 200) + (1 # 1000000)) (fst p) (snd p))
      passes.
Proof.
  intros HR.
  destruct (run_spec seed_value num_d2c num_b2b ambient)
    as (datasets & E & cs & ds & _ & _ & Eo & El & _ & Hds).
  exists datasets, (map (fun d => (order_of d, line_items_of d)) ds).
  rewrite !map_map. cbn [fst snd].
  split; [exact E|]. split; [exact Eo|]. split; [exact El|].
  apply Forall_map. eapply Forall_impl; [|exact Hds].
  intros d [Hd _]. cbn [fst snd]. now apply pass_sums.
Qed.

End Claims4.

(** C7, as stated, fails.  One B2B customer orders four lines of 16 units of
    Organic Green Tea at 10 percent: the order stores the revenue 1093.82
    (of 1093.824), each line the revenue 273.46 (of 273.456), and the four
    lines add up to 1093.84, two cents away. *)
Lemma C7_counterexample :
  exists o, first_order (c7_run builtin_round) = Some o /\
            ~ sums_reproduce (1 # 100) o (line_items_for (c7_run builtin_round) o).
Proof.
  eexists. split; [vm_compute; reflexivity|].
  intros (_ & Hrev & _). vm_compute in Hrev. apply Hrev. reflexivity.
Qed.

(** The same order under the rounding of [numpy.float64]. *)
Lemma C7_counterexample_numpy :
  exists o, first_order (c7_run numpy_round) = Some o /\
            ~ sums_reproduce (1 # 100) o (line_items_for (c7_run numpy_round) o).
Proof.
  eexists. split; [vm_compute; reflexivity|].
  intros (_ & Hrev & _). vm_compute in Hrev. apply Hrev. reflexivity.
Qed.

(** The stored amounts of that order and of its four lines. *)
Example c7_order_fields :
  option_map (fun o => (Order.revenue o,
                        map LineItem.revenue (line_items_for (c7_run builtin_round) o)))
             (first_order (c7_run builtin_round))
  = Some (literal 109382 100,
          [literal 27346 100; literal 27346 100; literal 27346 100; literal 27346 100]).
Proof. vm_compute. reflexivity. Qed.

(** C7 at the run of the counterexample, under the builtin rounding. *)
Lemma C7_witness :
  round_close builtin_round /\
  exists datasets (passes : list (Order.t * list LineItem.t)),
    c7_run builtin_round = inr datasets /\
    ds_orders datasets = Some (map fst passes) /\
    ds_order_line_items datasets = Some (List.concat (map snd passes)) /\
    Forall (fun p =>
      (1 <= List.length (snd p) <= 8)%nat /\
      sums_reproduce ((lenQ (snd p) + 1) * (1 # 200) + (1 # 1000000)) (fst p) (snd p))
      passes.
Proof.
  split; [exact builtin_round_close|].
  exact (@C7_line_item_sums (list Z) (scripted c7_script) builtin_round 42 0 1 []
           builtin_round_close).
Defined.

(* ===================================================================== *)
(** * The rest of the generator                                           *)
(* ===================================================================== *)

Open Scope Z_scope.

(** * The customer table *)

Lemma returns_mapM_Forall2 {S A B} (body : A -> M S B) (P : A -> B -> Prop) (xs : list A) :
  (forall x, In x xs -> returns (body x) (P x)) -> returns (mapM body xs) (Forall2 P xs).
Proof.
  induction xs as [|x xs IH]; intros Hb.
  - apply returns_ret. constructor.
  - simpl. eapply returns_bind; [apply Hb; now left|]. intros y Py.
    eapply returns_bind; [apply IH; intros; apply Hb; now right|]. intros ys Pys.
    apply returns_ret. now constructor.
Qed.

Section CustomerRows.
Context {rng : Type} `{PyRandom rng}.

(** The acquisition date drawn from a window that starts on the day
    [start_day] (days since 0001-01-01) and ends on 2024-11-30. *)
Lemma returns_acquisition_day (start_day : Z) :
  737941 <= start_day <= 739219 ->
  returns (random_date (start_day * US_PER_DAY) END_DATE)
          (fun t => start_day + 1 <= strftime t <= 739220).
Proof.
  intros Hs. eapply returns_weaken.
  - apply returns_random_date.
    + apply valid_datetime_iff. unfold MAXORDINAL, US_PER_DAY. lia.
    + reflexivity.
    + rewrite END_DATE_eq. unfold US_PER_DAY. lia.
  - cbv beta. intros t Ht.
    pose proof (td_days_spec (datetime_sub END_DATE (start_day * US_PER_DAY))) as Hd.
    unfold datetime_sub in *. rewrite END_DATE_eq in *.
    assert (B : start_day * US_PER_DAY <= t <= 739219 * US_PER_DAY).
    { unfold US_PER_DAY in *. lia. }
    pose proof (@strftime_bounds _ _ _ B). lia.
Qed.

Ltac pick_in xs :=
  eapply returns_bind;
  [ apply returns_weighted_random; [repeat constructor; lia | simpl; lia]
  | let i := fresh "i" in let Hi := fresh "Hi" in
    intros i Hi; cbv beta in Hi;
    let a := fresh "a" in let Ea := fresh "Ea" in let Ia := fresh "Ia" in
    destruct (@py_index_in _ xs i Hi) as (a & Ea & Ia);
    eapply returns_bind; [apply (returns_lift_eq Ea)|];
    let b := fresh "b" in let Eb := fresh "Eb" in
    intros b Eb; subst b ].

Lemma d2c_customer_row (i : Z) :
  returns (d2c_customer (mk_datetime 2022 1 1) (mk_datetime 2024 11 30) i) (d2c_row i).
Proof.
  unfold d2c_customer.
  eapply returns_bind; [apply (returns_acquisition_day 738155); lia|].
  intros acq_date Hacq. cbv beta in Hacq.
  assert (Hst : returns
            (weighted_random
               (if td_days (datetime_sub (mk_datetime 2024 11 30) acq_date) <? 90
                then [80; 15; 5]
                else if td_days (datetime_sub (mk_datetime 2024 11 30) acq_date) <? 365
                     then [60; 30; 10] else [40; 50; 10]))
            (fun k => 0 <= k < 3)).
  { destruct (td_days (datetime_sub (mk_datetime 2024 11 30) acq_date) <? 90);
      [|destruct (td_days (datetime_sub (mk_datetime 2024 11 30) acq_date) <? 365)];
      (eapply returns_weaken;
       [apply returns_weighted_random; [repeat constructor; lia | simpl; lia]|]);
      cbv beta; simpl; intros; lia. }
  eapply returns_bind; [exact Hst|]. intros si Hsi. cbv beta in Hsi.
  destruct (@py_index_in _ statuses si Hsi) as (status & Est & Ist).
  eapply returns_bind; [apply (returns_lift_eq Est)|]. intros ? <-.
  pick_in channels. pick_in countries.
  eapply returns_bind; [apply returns_random|]. intros u1 _.
  eapply returns_bind; [apply returns_random|]. intros u2 _.
  apply returns_ret. unfold d2c_row.
  cbn [Customer.customer_id Customer.segment Customer.acquisition_date Customer.channel
       Customer.country Customer.status Customer.company_name Customer.account_tier].
  split; [reflexivity|]. split; [reflexivity|]. split.
  { destruct (flt u1 (literal 2 100)); [exact I|].
    change (ymd2ord 2022 1 1) with 738156. change (ymd2ord 2024 11 30) with 739220. lia. }
  split.
  { destruct (flt u2 (literal 1 100)); [exact I | assumption]. }
  repeat split; assumption.
Qed.

Lemma b2b_customer_row (i : Z) :
  returns (b2b_customer (mk_datetime 2024 11 30) i) (b2b_row i).
Proof.
  unfold b2b_customer.
  eapply returns_bind; [apply (returns_acquisition_day 737941); lia|].
  intros acq_date Hacq. cbv beta in Hacq.
  pick_in countries. pick_in account_tiers.
  apply returns_ret. unfold b2b_row.
  cbn [Customer.customer_id Customer.segment Customer.acquisition_date Customer.channel
       Customer.country Customer.status Customer.company_name Customer.account_tier].
  split; [reflexivity|]. split; [reflexivity|]. split.
  { eexists. split; [reflexivity|].
    change (ymd2ord 2021 6 1) with 737942. change (ymd2ord 2024 11 30) with 739220. lia. }
  split; [reflexivity|]. split; [assumption|]. split; [reflexivity|].
  split; [reflexivity|]. eexists. split; [reflexivity | assumption].
Qed.

(** [generate_customers] returns the table it stores in [self.customers],
    laid out as the two loops write it, and leaves the other attributes
    alone. *)
Lemma generate_customers_layout self num_d2c num_b2b :
  returns (generate_customers self num_d2c num_b2b)
          (fun out => customers_layout num_d2c num_b2b (fst out) /\
                      snd out = mkGenerator (products self) (Some (fst out))
                                            (orders self) (order_line_items self)).
Proof.
  unfold generate_customers.
  eapply returns_bind; [apply returns_mapM_Forall2; intros; apply d2c_customer_row|].
  intros d2c Hd2c.
  eapply returns_bind; [apply returns_mapM_Forall2; intros; apply b2b_customer_row|].
  intros b2b Hb2b.
  apply returns_ret. simpl. split; [|reflexivity]. exists d2c, b2b. auto.
Qed.

End CustomerRows.

(** * Identifiers *)

Lemma uint_of_string_zeros k s :
  NilEmpty.uint_of_string (zeros k ++ s)
  = option_map (Nat.iter k Decimal.D0) (NilEmpty.uint_of_string s).
Proof.
  induction k as [|k IH].
  - simpl. now destruct (NilEmpty.uint_of_string s).
  - cbn [zeros String.append NilEmpty.uint_of_string Nat.iter]. rewrite IH.
    now destruct (NilEmpty.uint_of_string s).
Qed.

Lemma of_uint_zeros k u : Z.of_uint (Nat.iter k Decimal.D0 u) = Z.of_uint u.
Proof. induction k as [|k IH]; [reflexivity|]. cbn [Nat.iter]. exact IH. Qed.

Lemma to_int_nonneg n : 0 <= n -> exists u, Z.to_int n = Decimal.Pos u /\ u <> Decimal.Nil.
Proof.
  intros Hn. destruct n as [|p|p]; [| |lia].
  - exists Decimal.zero. split; [reflexivity | discriminate].
  - exists (Pos.to_uint p). split; [reflexivity | apply DecimalPos.Unsigned.to_uint_nonnil].
Qed.

Lemma string_of_uint_head u :
  u <> Decimal.Nil ->
  exists a s, NilEmpty.string_of_uint u = String a s /\ (a =? "-")%char = false.
Proof. intros Hu. destruct u; [congruence| ..]; eexists; eexists; split; reflexivity. Qed.

(** Reading the digits of [f"{n:0{w}d}"] gives [n] back. *)
Lemma digits_value_fmt (width : nat) (n : Z) :
  0 <= n -> digits_value (fmt_0d width n) = Some n.
Proof.
  intros Hn. destruct (to_int_nonneg n Hn) as (u & Eu & Hu).
  unfold digits_value, fmt_0d, str_of_int. rewrite Eu.
  cbn [NilZero.string_of_int]. 
  assert (Es : NilZero.string_of_uint u = NilEmpty.string_of_uint u) by (now destruct u).
  rewrite Es.
  set (k := (width - String.length (NilEmpty.string_of_uint u))%nat). clearbody k.
  destruct (string_of_uint_head u Hu) as (a & s & Ea & Ha).
  assert (Ehead : exists b t, (zeros k ++ NilEmpty.string_of_uint u)%string = String b t
                              /\ (b =? "-")%char = false).
  { destruct k as [|k].
    - simpl. rewrite Ea. eauto.
    - cbn [zeros String.append]. eexists. eexists. split; reflexivity. }
  destruct Ehead as (b & t & Eb & Hb).
  assert (Ev : NilEmpty.uint_of_string (zeros k ++ NilEmpty.string_of_uint u)
               = Some (Nat.iter k Decimal.D0 u)).
  { rewrite uint_of_string_zeros, NilEmpty.usu. reflexivity. }
  rewrite Eb in *. unfold NilZero.int_of_string. rewrite Hb.
  unfold NilZero.uint_of_string. rewrite Ev. cbn [option_map Z.of_int].
  rewrite of_uint_zeros. f_equal.
  change (Z.of_uint u) with (Z.of_int (Decimal.Pos u)). rewrite <- Eu.
  apply DecimalZ.of_to.
Qed.

Lemma fmt_0d_inj (width : nat) (a b : Z) :
  0 <= a -> 0 <= b -> fmt_0d width a = fmt_0d width b -> a = b.
Proof.
  intros Ha Hb E.
  pose proof (digits_value_fmt width a Ha) as Ea.
  pose proof (digits_value_fmt width b Hb) as Eb.
  rewrite E in Ea. congruence.
Qed.

Lemma py_range_In lo hi i : In i (py_range lo hi) <-> lo <= i < hi.
Proof.
  unfold py_range. rewrite in_map_iff. split.
  - intros (k & <- & Hk). apply in_seq in Hk. lia.
  - intros Hi. exists (Z.to_nat (i - lo)). split; [lia|]. apply in_seq. lia.
Qed.

Lemma py_range_NoDup lo hi : NoDup (py_range lo hi).
Proof.
  unfold py_range. apply NoDup_map_NoDup_ForallPairs; [|apply seq_NoDup].
  intros a b _ _ E. lia.
Qed.

Lemma NoDup_append {A} (xs ys : list A) :
  NoDup xs -> NoDup ys -> (forall x, In x xs -> In x ys -> False) -> NoDup (xs ++ ys).
Proof.
  induction 1 as [|x xs Hx Hxs IH]; intros Hys Hd; [exact Hys|].
  simpl. constructor.
  - intros Hin. apply in_app_or in Hin. destruct Hin as [Hin|Hin]; [now apply Hx|].
    apply (Hd x); [now left | exact Hin].
  - apply IH; [exact Hys|]. intros y Hy. apply Hd. now right.
Qed.

Lemma Forall2_map_eq {A B C} (P : A -> B -> Prop) (f : A -> C) (g : B -> C) xs ys :
  (forall x y, P x y -> g y = f x) -> Forall2 P xs ys -> map g ys = map f xs.
Proof.
  intros Hfg. induction 1 as [|x y xs ys Hxy _ IH]; [reflexivity|].
  simpl. now rewrite (Hfg _ _ Hxy), IH.
Qed.

Lemma Forall2_length_eq {A B} (P : A -> B -> Prop) xs ys :
  Forall2 P xs ys -> List.length ys = List.length xs.
Proof. induction 1; simpl; congruence. Qed.

Lemma Forall2_In_r {A B} (P : A -> B -> Prop) xs ys y :
  Forall2 P xs ys -> In y ys -> exists x, In x xs /\ P x y.
Proof.
  induction 1 as [|x0 y0 xs ys Hxy _ IH]; intros Hin; [contradiction|].
  destruct Hin as [<-|Hin].
  - exists x0. split; [now left | exact Hxy].
  - destruct (IH Hin) as (x & Hx & Px). exists x. split; [now right | exact Px].
Qed.

(** The identifiers [prefix + f"{i:0{w}d}"] of a range of positive counters
    are pairwise distinct. *)
Lemma ids_NoDup (prefix : string) (width : nat) lo hi :
  0 <= lo -> NoDup (map (fun i => (prefix ++ fmt_0d width i)%string) (py_range lo hi)).
Proof.
  intros Hlo. apply NoDup_map_NoDup_ForallPairs; [|apply py_range_NoDup].
  intros a b Ha Hb E. apply py_range_In in Ha, Hb.
  assert (E' : fmt_0d width a = fmt_0d width b).
  { clear -E. induction prefix as [|c p IH]; simpl in E; [exact E|].
    injection E as E. now apply IH. }
  apply (fmt_0d_inj width); [lia | lia | exact E'].
Qed.

Lemma customer_ids_NoDup num_d2c num_b2b table :
  customers_layout num_d2c num_b2b table -> NoDup (map Customer.customer_id table).
Proof.
  intros (d2c & b2b & -> & Hd & Hb). rewrite map_app.
  rewrite (Forall2_map_eq d2c_row (fun i => ("C" ++ fmt_0d 6 i)%string) Customer.customer_id
             _ _ (fun i c Hc => proj1 Hc) Hd).
  rewrite (Forall2_map_eq b2b_row (fun i => ("B" ++ fmt_0d 5 i)%string) Customer.customer_id
             _ _ (fun i c Hc => proj1 Hc) Hb).
  apply NoDup_append.
  - apply ids_NoDup. lia.
  - apply ids_NoDup. lia.
  - intros x Hx Hy. apply in_map_iff in Hx, Hy.
    destruct Hx as (i & <- & _). destruct Hy as (j & Ej & _). discriminate Ej.
Qed.

(** * The order loop, pass by pass *)

Lemma returns_foldM_prefix {S A B} (body : B -> A -> M S B) (I : list A -> B -> Prop)
  (xs : list A) :
  (forall pre x acc, In x xs -> I pre acc -> returns (body acc x) (I (pre ++ [x]))) ->
  forall acc, I [] acc -> returns (foldM body xs acc) (I xs).
Proof.
  intros Hb.
  assert (G : forall post pre acc, (forall x, In x post -> In x xs) -> I pre acc ->
                returns (foldM body post acc) (I (pre ++ post))).
  { induction post as [|x post IH]; intros pre acc Hin Hacc.
    - rewrite app_nil_r. now apply returns_ret.
    - simpl. eapply returns_bind; [apply Hb; [apply Hin; now left | exact Hacc]|].
      intros acc' Hacc'. replace (pre ++ x :: post) with ((pre ++ [x]) ++ post).
      + apply IH; [|exact Hacc']. intros y Hy. apply Hin. now right.
      + now rewrite <- app_assoc. }
  intros acc Hacc. apply (G xs [] acc); auto.
Qed.

Lemma py_range_snoc lo n :
  py_range lo (lo + Z.of_nat (S n)) = (py_range lo (lo + Z.of_nat n) ++ [lo + Z.of_nat n])%list.
Proof.
  unfold py_range.
  replace (Z.to_nat (lo + Z.of_nat (S n) - lo)) with (S n) by lia.
  replace (Z.to_nat (lo + Z.of_nat n - lo)) with n by lia.
  rewrite seq_S, map_app. reflexivity.
Qed.

Lemma py_range_app lo a b :
  py_range lo (lo + Z.of_nat (a + b))
  = (py_range lo (lo + Z.of_nat a)
     ++ py_range (lo + Z.of_nat a) (lo + Z.of_nat a + Z.of_nat b))%list.
Proof.
  induction b as [|b IH].
  - rewrite Nat.add_0_r. unfold py_range at 3.
    replace (Z.to_nat _) with 0%nat by lia. simpl. now rewrite app_nil_r.
  - replace (a + S b)%nat with (S (a + b)) by lia.
    rewrite !py_range_snoc, IH, <- app_assoc. do 3 f_equal. lia.
Qed.

Lemma numbered_snoc first ds d :
  numbered first ds -> dr_order_id d = first + Z.of_nat (List.length ds) ->
  numbered first (ds ++ [d]).
Proof.
  unfold numbered. intros Hn Hd. rewrite map_app, length_app, Hn. cbn [map List.length].
  replace (List.length ds + 1)%nat with (S (List.length ds)) by lia.
  now rewrite py_range_snoc, Hd.
Qed.

Section OrderPasses.
Context {rng : Type} `{PyRandom rng} {R : Rounding}.

Lemma generate_order_step catalog customer ds acc :
  catalog <> [] -> customer_ok customer -> acc_after ds acc ->
  returns (generate_order catalog customer (is_b2b_customer customer)
                          (parse_acquisition_date customer) END_DATE acc)
          (fun acc' => exists d,
             dr_customer d = customer /\
             dr_order_id d = 1 + Z.of_nat (List.length ds) /\
             valid_draws catalog d /\
             acc_after (ds ++ [d]) acc').
Proof.
  intros Hne Hok [Etab Eid]. destruct acc as [[orders_data line_items_data] order_id].
  cbn [fst snd] in Etab, Eid.
  destruct (@window_facts customer Hok) as (W1 & W2 & V1 & V2 & Hn & Hend & Hdays).
  unfold generate_order.
  set (acq := parse_acquisition_date customer) in *.
  set (n := Z.min (td_days (datetime_sub END_DATE acq)) 730) in *.
  eapply returns_bind; [apply (returns_lift_eq W1)|].
  intros ? <-.
  eapply returns_bind; [apply (returns_lift_eq W2)|].
  intros ? <-.
  eapply returns_bind.
  { apply returns_random_date; [exact V1 | exact V2 |].
    assert (0 <= n * US_PER_DAY) by (apply Z.mul_nonneg_nonneg; [exact Hn | discriminate]).
    lia. }
  intros order_date Hdate; cbv beta in Hdate. rewrite Hdays in Hdate.
  assert (Hsel : returns
            (num_products <- (if is_b2b_customer customer then randint 3 8 else randint 1 3) ;;
             mapM (fun _ : Z => select_product catalog (is_b2b_customer customer))
                  (py_range 0 num_products))
            (valid_selection catalog (is_b2b_customer customer))).
  { unfold valid_selection. destruct (is_b2b_customer customer).
    - eapply returns_bind; [apply returns_randint; lia|]. intros k Hk; cbv beta in Hk.
      eapply returns_weaken.
      + apply returns_mapM_length. intros. now apply returns_select_product.
      + intros sel [Hf Hl]. split; [exact Hf|]. rewrite Hl, py_range_length. lia.
    - eapply returns_bind; [apply returns_randint; lia|]. intros k Hk; cbv beta in Hk.
      eapply returns_weaken.
      + apply returns_mapM_length. intros. now apply returns_select_product.
      + intros sel [Hf Hl]. split; [exact Hf|]. rewrite Hl, py_range_length. lia. }
  assert (Hdisc : returns
            (di <- weighted_random (if is_b2b_customer customer
                                    then [20; 30; 30; 15; 5] else [70; 25; 5]) ;;
             lift (py_index (if is_b2b_customer customer then [0; 5; 10; 15; 20]
                             else [0; 10; 15]) di))
            (valid_discount (is_b2b_customer customer))).
  { unfold valid_discount. destruct (is_b2b_customer customer).
    - eapply returns_bind.
      { apply returns_weighted_random; [repeat constructor; lia | simpl; lia]. }
      intros di Hdi; cbv beta in Hdi.
      destruct (@py_index_in _ [0; 5; 10; 15; 20] di Hdi) as (p & Ep & Hp).
      apply (returns_lift _ Ep Hp).
    - eapply returns_bind.
      { apply returns_weighted_random; [repeat constructor; lia | simpl; lia]. }
      intros di Hdi; cbv beta in Hdi.
      destruct (@py_index_in _ [0; 10; 15] di Hdi) as (p & Ep & Hp).
      apply (returns_lift _ Ep Hp). }
  intros g.
  destruct (Hsel g) as (sel & g1 & Esel & Psel).
  unfold bind in Esel |- *.
  destruct ((if is_b2b_customer customer then randint 3 8 else randint 1 3) g)
    as [e|[k gk]] eqn:Ek; [discriminate|].
  rewrite Esel.
  destruct (Hdisc g1) as (pct & g2 & Edisc & Ppct). unfold bind in Edisc.
  destruct (weighted_random (if is_b2b_customer customer
                             then [20; 30; 30; 15; 5] else [70; 25; 5]) g1)
    as [e|[di gd]] eqn:Edi; [discriminate|].
  rewrite Edisc.
  destruct (returns_random g2) as (u1 & g3 & E1 & D1). rewrite E1.
  destruct (returns_random g3) as (u2 & g4 & E2 & D2). rewrite E2.
  eexists. eexists. split; [reflexivity|].
  exists (mkDraws customer order_id order_date sel pct u1 u2).
  cbn [dr_customer dr_order_id].
  split; [reflexivity|]. split; [exact Eid|]. split.
  - unfold valid_draws.
    cbn [dr_customer dr_selected dr_discount_percent dr_u_date dr_u_cogs dr_order_date].
    split; [exact Psel|]. split; [exact Ppct|]. split; [exact D1|]. split; [exact D2|].
    unfold in_sampling_window. cbv zeta. fold acq. fold n. lia.
  - split.
    + rewrite tables_of_snoc, <- Etab. reflexivity.
    + cbn [snd]. rewrite length_app. cbn [List.length]. lia.
Qed.

Lemma returns_num_orders customer :
  returns (if is_b2b_customer customer then randint 12 36
           else if String.eqb (Customer.status customer) "Active" then randint 2 10
           else if String.eqb (Customer.status customer) "Churned" then randint 1 3
           else randint 2 7)
          (orders_in_range customer).
Proof.
  unfold orders_in_range.
  destruct (is_b2b_customer customer);
    [|destruct (String.eqb (Customer.status customer) "Active");
      [|destruct (String.eqb (Customer.status customer) "Churned")]];
    apply returns_randint; lia.
Qed.

Lemma orders_in_range_pos customer n : orders_in_range customer n -> 1 <= n <= 36.
Proof.
  unfold orders_in_range.
  destruct (is_b2b_customer customer);
    [|destruct (String.eqb (Customer.status customer) "Active");
      [|destruct (String.eqb (Customer.status customer) "Churned")]]; lia.
Qed.

(** The passes for one customer extend the passes so far by one block. *)
Lemma customer_orders_step catalog customer ds acc :
  catalog <> [] -> customer_ok customer -> acc_after ds acc ->
  returns (customer_orders catalog END_DATE acc customer)
          (fun acc' => exists block,
             block_ok catalog customer block /\
             map dr_order_id block
               = py_range (1 + Z.of_nat (List.length ds))
                          (1 + Z.of_nat (List.length ds) + Z.of_nat (List.length block)) /\
             acc_after (ds ++ block) acc').
Proof.
  intros Hne Hok Hacc. unfold customer_orders.
  fold (is_b2b_customer customer).
  eapply returns_bind; [apply returns_num_orders|]. intros num_orders Hnum.
  pose proof (orders_in_range_pos _ _ Hnum) as Hpos.
  eapply returns_weaken.
  - apply (returns_foldM_prefix
             (fun acc _ => generate_order catalog customer (is_b2b_customer customer)
                             (parse_acquisition_date customer) END_DATE acc)
             (fun pre acc' => exists block,
                List.length block = List.length pre /\
                Forall (fun d => dr_customer d = customer /\ valid_draws catalog d) block /\
                numbered (1 + Z.of_nat (List.length ds)) block /\
                acc_after (ds ++ block) acc')).
    + intros pre x acc' _ (block & Hlen & Hall & Hnumd & Hacc').
      eapply returns_weaken; [apply (generate_order_step catalog customer (ds ++ block));
                              assumption|].
      cbv beta. intros acc'' (d & Hc & Hid & Hv & Hacc'').
      exists (block ++ [d])%list. split; [|split; [|split]].
      * rewrite !length_app. simpl. lia.
      * apply Forall_app. split; [exact Hall|]. constructor; [|constructor]. now split.
      * apply numbered_snoc; [exact Hnumd|]. rewrite Hid, length_app. lia.
      * rewrite app_assoc. exact Hacc''.
    + exists []. split; [reflexivity|]. split; [constructor|]. split.
      * unfold numbered. simpl. unfold py_range.
        replace (Z.to_nat _) with 0%nat by lia. reflexivity.
      * now rewrite app_nil_r.
  - cbv beta. intros acc' (block & Hlen & Hall & Hnumd & Hacc').
    exists block. split; [|split; [exact Hnumd | exact Hacc']].
    split; [|exact Hall]. rewrite Hlen, py_range_length.
    replace (Z.of_nat (Z.to_nat (num_orders - 0))) with num_orders by lia. exact Hnum.
Qed.

Lemma numbered_app first ds block :
  numbered first ds ->
  map dr_order_id block
    = py_range (first + Z.of_nat (List.length ds))
               (first + Z.of_nat (List.length ds) + Z.of_nat (List.length block)) ->
  numbered first (ds ++ block).
Proof.
  unfold numbered. intros Hn Hb. rewrite map_app, Hn, Hb, length_app.
  symmetry. apply py_range_app.
Qed.

Lemma generate_orders_layout self customer_table catalog :
  customers self = Some customer_table -> products self = Some catalog ->
  catalog <> [] -> Forall customer_ok customer_table ->
  returns (generate_orders self)
          (fun out =>
             exists ds,
               fst out = tables_of ds /\
               orders_layout catalog customer_table ds /\
               snd out = mkGenerator (products self) (customers self)
                                     (Some (fst (fst out))) (Some (snd (fst out)))).
Proof.
  intros Ec Ep Hne Hok. unfold generate_orders. rewrite Ec, Ep.
  eapply returns_bind.
  - apply (returns_foldM_prefix (customer_orders catalog (mk_datetime 2024 11 30))
             (fun pre acc => exists blocks,
                Forall2 (block_ok catalog) pre blocks /\
                numbered 1 (List.concat blocks) /\
                acc_after (List.concat blocks) acc)).
    + intros pre c acc Hc (blocks & Hbl & Hnum & Hacc).
      eapply returns_weaken.
      * apply (customer_orders_step catalog c (List.concat blocks)); trivial.
        exact (proj1 (Forall_forall _ _) Hok c Hc).
      * cbv beta. intros acc' (block & Hb & Hids & Hacc').
        exists (blocks ++ [block])%list. rewrite concat_app. cbn [List.concat].
        rewrite app_nil_r. split; [|split; [|exact Hacc']].
        -- apply Forall2_app; [exact Hbl|]. constructor; [exact Hb | constructor].
        -- apply numbered_app; assumption.
    + exists []. split; [constructor|]. split; [reflexivity|]. split; reflexivity.
  - intros [[orders_data line_items_data] order_id] (blocks & Hbl & Hnum & [Etab Eid]).
    apply returns_ret. exists (List.concat blocks). simpl in *.
    split; [exact Etab|]. split; [|now inversion Etab].
    exists blocks. auto.
Qed.

End OrderPasses.

(** * The whole run, with its layout *)

Lemma d2c_row_ok i c : d2c_row i c -> customer_ok c.
Proof.
  intros (_ & _ & Hacq & _). unfold customer_ok.
  destruct (Customer.acquisition_date c) as [d|]; [|exact I].
  change (ymd2ord 2022 1 1) with 738156 in Hacq.
  change (ymd2ord 2021 6 1) with 737942. lia.
Qed.

Lemma b2b_row_ok i c : b2b_row i c -> customer_ok c.
Proof.
  intros (_ & _ & (d & Ed & Hd) & _). unfold customer_ok. now rewrite Ed.
Qed.

Lemma Forall2_Forall_r {A B} (P : A -> B -> Prop) (Q : B -> Prop) xs ys :
  (forall x y, P x y -> Q y) -> Forall2 P xs ys -> Forall Q ys.
Proof. intros HPQ. induction 1; constructor; eauto. Qed.

Lemma customers_layout_ok num_d2c num_b2b table :
  customers_layout num_d2c num_b2b table -> Forall customer_ok table.
Proof.
  intros (d2c & b2b & -> & Hd & Hb). apply Forall_app. split.
  - exact (Forall2_Forall_r _ _ _ _ d2c_row_ok Hd).
  - exact (Forall2_Forall_r _ _ _ _ b2b_row_ok Hb).
Qed.

Section RunLayout.
Context {rng : Type} `{PyRandom rng} {R : Rounding}.

(** [generate_all], from any state of the generator object: the tables it
    returns are the ones it stores, and nothing of the previous tables is
    left. *)
Lemma generate_all_with_layout self num_d2c num_b2b :
  returns (generate_all_with self num_d2c num_b2b)
          (fun out => generated_layout num_d2c num_b2b (fst out) /\
                      snd out = mkGenerator (ds_products (fst out)) (ds_customers (fst out))
                                            (ds_orders (fst out))
                                            (ds_order_line_items (fst out))).
Proof.
  unfold generate_all_with. simpl generate_products. cbv iota beta.
  eapply returns_bind; [apply generate_customers_layout|].
  intros [customer_table self2] [Hlay E2]. cbn [fst snd] in Hlay, E2. subst self2.
  eapply returns_bind.
  { eapply generate_orders_layout; [reflexivity | reflexivity | discriminate |].
    exact (customers_layout_ok _ _ _ Hlay). }
  intros [[orders_data line_items_data] self3] (ds & Etab & Hds & E3).
  cbn [fst snd] in Etab, E3. subst self3. apply returns_ret. cbn [fst snd].
  unfold tables_of in Etab. inversion Etab; subst.
  split; [|reflexivity].
  exists customer_table, ds. cbn. repeat split; trivial.
Qed.

Lemma run_layout (seed_value num_d2c num_b2b : Z) (ambient : rng) :
  exists datasets, run seed_value num_d2c num_b2b ambient = inr datasets /\
                   generated_layout num_d2c num_b2b datasets.
Proof.
  unfold run.
  destruct (generate_all_with_layout init num_d2c num_b2b (seed seed_value))
    as ([datasets self'] & g' & E & Hg & _).
  rewrite E. exists datasets. split; [reflexivity | exact Hg].
Qed.

End RunLayout.

Lemma Forall2_In_l {A B} (P : A -> B -> Prop) xs ys x :
  Forall2 P xs ys -> In x xs -> exists y, In y ys /\ P x y.
Proof.
  induction 1 as [|x0 y0 xs ys Hxy _ IH]; intros Hin; [contradiction|].
  destruct Hin as [<-|Hin].
  - exists y0. split; [now left | exact Hxy].
  - destruct (IH Hin) as (y & Hy & Py). exists y. split; [now right | exact Py].
Qed.

Lemma Forall_concat {A} (P : A -> Prop) (xss : list (list A)) :
  Forall (Forall P) xss -> Forall P (List.concat xss).
Proof.
  induction 1 as [|xs xss Hxs _ IH]; [constructor|]. simpl. apply Forall_app. now split.
Qed.

(** Every pass of a laid-out run is valid and belongs to a row of the
    customer table. *)
Lemma orders_layout_valid catalog table ds :
  orders_layout catalog table ds ->
  Forall (fun d => valid_draws catalog d /\ In (dr_customer d) table) ds.
Proof.
  intros (blocks & -> & Hbl & _). apply Forall_concat.
  apply Forall_forall. intros block Hblock.
  destruct (Forall2_In_r _ _ _ _ Hbl Hblock) as (c & Hc & _ & Hall).
  eapply Forall_impl; [|exact Hall]. cbv beta. intros d [-> Hv]. now split.
Qed.

Lemma py_range_length_nonneg lo hi :
  Z.of_nat (List.length (py_range lo hi)) = Z.max (hi - lo) 0.
Proof. rewrite py_range_length. lia. Qed.

(** * The customer table: properties *)

Section CustomerTable.
Context {rng : Type} `{PyRandom rng}.

(** X1.  [generate_customers(num_d2c, num_b2b)] always returns.  The table
    it returns is the one it stores in [self.customers]; it holds
    [max(num_d2c, 0)] rows of segment ['D2C'] followed by [max(num_b2b, 0)]
    rows of segment ['B2B']; the other three attributes of the generator
    are left as they were. *)
Theorem generate_customers_counts self num_d2c num_b2b :
  returns (generate_customers self num_d2c num_b2b)
    (fun out =>
       customers (snd out) = Some (fst out) /\
       products (snd out) = products self /\
       orders (snd out) = orders self /\
       order_line_items (snd out) = order_line_items self /\
       exists d2c b2b,
         fst out = (d2c ++ b2b)%list /\
         Z.of_nat (List.length d2c) = Z.max num_d2c 0 /\
         Z.of_nat (List.length b2b) = Z.max num_b2b 0 /\
         Forall (fun c => Customer.segment c = "D2C"%string) d2c /\
         Forall (fun c => Customer.segment c = "B2B"%string) b2b).
Proof.
  eapply returns_weaken; [apply generate_customers_layout|].
  cbv beta. intros [table self'] [(d2c & b2b & E & Hd & Hb) ->]. cbn [fst snd] in *.
  repeat (split; [reflexivity|]).
  exists d2c, b2b. split; [exact E|].
  rewrite (Forall2_length_eq _ _ _ Hd), (Forall2_length_eq _ _ _ Hb), !py_range_length_nonneg.
  split; [lia|]. split; [lia|]. split.
  - eapply Forall2_Forall_r; [|exact Hd]. intros i c Hc. exact (proj1 (proj2 Hc)).
  - eapply Forall2_Forall_r; [|exact Hb]. intros i c Hc. exact (proj1 (proj2 Hc)).
Qed.



(** X4.  The customer identifiers of the table are pairwise distinct. *)
Theorem generate_customers_ids_distinct self num_d2c num_b2b :
  returns (generate_customers self num_d2c num_b2b)
    (fun out => NoDup (map Customer.customer_id (fst out))).
Proof.
  eapply returns_weaken; [apply generate_customers_layout|].
  cbv beta. intros [table self'] [Hlay _]. cbn [fst].
  exact (customer_ids_NoDup _ _ _ Hlay).
Qed.

End CustomerTable.

(** * The order tables: properties *)

Lemma concat_length_bounds {A B} (P : A -> list B -> Prop) (lo hi : Z) xs yss :
  (forall x ys, P x ys -> lo <= Z.of_nat (List.length ys) <= hi) ->
  Forall2 P xs yss ->
  lo * Z.of_nat (List.length xs) <= Z.of_nat (List.length (List.concat yss))
    <= hi * Z.of_nat (List.length xs).
Proof.
  intros HP. induction 1 as [|x ys xs yss Hxy _ IH]; [simpl; lia|].
  pose proof (HP _ _ Hxy). cbn [List.concat List.length]. rewrite length_app. lia.
Qed.

Lemma map_concat_map {A B} (f : A -> B) (xss : list (list A)) :
  map f (List.concat xss) = List.concat (map (map f) xss).
Proof. apply concat_map. Qed.

Section OrderTables.
Context {rng : Type} `{PyRandom rng} {R : Rounding}.

(** X5.  In every run the orders are numbered from 1 in the order of the
    table: the [k]-th row has the identifier ['ORD'] followed by [k] on
    seven digits, and the identifiers are pairwise distinct. *)
Theorem order_ids_consecutive (seed_value num_d2c num_b2b : Z) (ambient : rng) :
  exists datasets orders_table,
    run seed_value num_d2c num_b2b ambient = inr datasets /\
    ds_orders datasets = Some orders_table /\
    map Order.order_id orders_table
      = map (fun k => ("ORD" ++ fmt_0d 7 k)%string)
            (py_range 1 (1 + Z.of_nat (List.length orders_table))) /\
    NoDup (map Order.order_id orders_table).
Proof.
  destruct (run_layout seed_value num_d2c num_b2b ambient)
    as (datasets & E & table & ds & _ & _ & Eo & _ & _ & (blocks & _ & _ & Hnum)).
  exists datasets, (map order_of ds). split; [exact E|]. split; [exact Eo|].
  assert (Eids : map Order.order_id (map order_of ds)
                 = map (fun k => ("ORD" ++ fmt_0d 7 k)%string)
                       (py_range 1 (1 + Z.of_nat (List.length (map order_of ds))))).
  { rewrite length_map, <- Hnum, !map_map. reflexivity. }
  split; [exact Eids|]. rewrite Eids. apply ids_NoDup. lia.
Qed.

(** X6.  In every run, every order belongs to a row of the customer table,
    and every line item carries the identifier, the customer identifier and
    the stored order date of its order: when the order date of an order was
    nulled, the order date of each of its line items is null too. *)
Theorem foreign_keys (seed_value num_d2c num_b2b : Z) (ambient : rng) :
  exists datasets customer_table (passes : list (Order.t * list LineItem.t)),
    run seed_value num_d2c num_b2b ambient = inr datasets /\
    ds_customers datasets = Some customer_table /\
    ds_orders datasets = Some (map fst passes) /\
    ds_order_line_items datasets = Some (List.concat (map snd passes)) /\
    Forall (fun p =>
      In (Order.customer_id (fst p)) (map Customer.customer_id customer_table) /\
      Forall (fun li =>
        LineItem.order_id li = Order.order_id (fst p) /\
        LineItem.customer_id li = Order.customer_id (fst p) /\
        LineItem.order_date li = Order.order_date (fst p)) (snd p))
      passes.
Proof.
  destruct (run_layout seed_value num_d2c num_b2b ambient)
    as (datasets & E & table & ds & _ & Ec & Eo & El & _ & Hlay).
  exists datasets, table, (map (fun d => (order_of d, line_items_of d)) ds).
  rewrite !map_map. cbn [fst snd].
  split; [exact E|]. split; [exact Ec|]. split; [exact Eo|]. split; [exact El|].
  apply Forall_map. eapply Forall_impl; [|exact (orders_layout_valid _ _ _ Hlay)].
  cbv beta. intros d [_ Hin]. cbn [fst snd]. split.
  - apply in_map_iff. exists (dr_customer d). split; [reflexivity | exact Hin].
  - unfold line_items_of, make_line_items. apply Forall_map, Forall_forall.
    intros [idx item] _. unfold make_line_item.
    cbn [LineItem.order_id LineItem.customer_id LineItem.order_date].
    unfold order_of, make_order. cbn [Order.customer_id]. auto.
Qed.

(** X7.  In every run, [num_items] of an order is the number of its line
    items; an order of a B2B customer has 3 to 8 line items of 10 to 60
    units and a discount of 0, 5, 10, 15 or 20 percent, an order of any
    other customer 1 to 3 line items of 1 to 3 units and a discount of 0,
    10 or 15 percent; and every line item carries the identifier, name,
    category and unit price of one product of the catalog. *)
Theorem order_sizes_by_segment (seed_value num_d2c num_b2b : Z) (ambient : rng) :
  exists datasets customer_table (passes : list (Order.t * list LineItem.t)),
    run seed_value num_d2c num_b2b ambient = inr datasets /\
    ds_customers datasets = Some customer_table /\
    ds_orders datasets = Some (map fst passes) /\
    ds_order_line_items datasets = Some (List.concat (map snd passes)) /\
    Forall (fun p =>
      Order.num_items (fst p) = Z.of_nat (List.length (snd p)) /\
      (exists c, In c customer_table /\
         Customer.customer_id c = Order.customer_id (fst p) /\
         if String.eqb (Customer.segment c) "B2B"
         then 3 <= Order.num_items (fst p) <= 8 /\
              In (Order.discount_percent (fst p)) [0; 5; 10; 15; 20] /\
              Forall (fun li => 10 <= LineItem.quantity li <= 60) (snd p)
         else 1 <= Order.num_items (fst p) <= 3 /\
              In (Order.discount_percent (fst p)) [0; 10; 15] /\
              Forall (fun li => 1 <= LineItem.quantity li <= 3) (snd p)) /\
      Forall (fun li => exists product, In product products_data /\
                LineItem.product_id li = Product.product_id product /\
                LineItem.product_name li = Product.name product /\
                LineItem.category li = Product.category product /\
                LineItem.unit_price li = Product.unit_price product) (snd p))
      passes.
Proof.
  destruct (run_layout seed_value num_d2c num_b2b ambient)
    as (datasets & E & table & ds & _ & Ec & Eo & El & _ & Hlay).
  exists datasets, table, (map (fun d => (order_of d, line_items_of d)) ds).
  rewrite !map_map. cbn [fst snd].
  split; [exact E|]. split; [exact Ec|]. split; [exact Eo|]. split; [exact El|].
  apply Forall_map. eapply Forall_impl; [|exact (orders_layout_valid _ _ _ Hlay)].
  cbv beta. intros d [([Hitems Hlen] & Hdisc & _) Hin]. cbn [fst snd].
  assert (Hrows : forall (Q : Product.t * Z -> Prop) (P : LineItem.t -> Prop),
             (forall idx item, Q item ->
                P (make_line_item (dr_order_id d) (Customer.customer_id (dr_customer d))
                     (order_of d) (dr_selected d) (dr_discount_percent d) (idx, item))) ->
             Forall Q (dr_selected d) -> Forall P (line_items_of d)).
  { intros Q P HQP HQ. unfold line_items_of, make_line_items.
    apply Forall_map, Forall_forall. intros [idx item] Hi. apply HQP.
    unfold enumerate1 in Hi. apply in_combine_r in Hi.
    exact (proj1 (Forall_forall _ _) HQ item Hi). }
  split; [|split].
  - rewrite line_items_length. reflexivity.
  - exists (dr_customer d). split; [exact Hin|]. split; [reflexivity|].
    fold (is_b2b_customer (dr_customer d)).
    unfold valid_discount in Hdisc. cbn [Order.num_items Order.discount_percent order_of make_order].
    destruct (is_b2b_customer (dr_customer d)).
    + split; [exact Hlen|]. split; [exact Hdisc|].
      apply (Hrows (valid_item products_data true)); [|exact Hitems].
      intros idx item [_ Hq]. exact Hq.
    + split; [exact Hlen|]. split; [exact Hdisc|].
      apply (Hrows (valid_item products_data false)); [|exact Hitems].
      intros idx item [_ Hq]. exact Hq.
  - apply (Hrows (valid_item products_data (is_b2b_customer (dr_customer d)))); [|exact Hitems].
    intros idx item [Hp _]. exists (fst item). unfold make_line_item.
    cbn [LineItem.product_id LineItem.product_name LineItem.category LineItem.unit_price].
    auto.
Qed.

(** X8.  In every run the order table is made of one block of consecutive
    rows per customer, in the order of the customer table; the block of a
    B2B customer has 12 to 36 orders, of an ['Active'] D2C customer 2 to
    10, of a ['Churned'] one 1 to 3, of any other 2 to 7, all with that
    customer's identifier.  So every customer has an order, and there are
    at most 36 orders per customer. *)
Theorem orders_grouped_by_customer (seed_value num_d2c num_b2b : Z) (ambient : rng) :
  exists datasets customer_table (blocks : list (list Order.t)),
    run seed_value num_d2c num_b2b ambient = inr datasets /\
    ds_customers datasets = Some customer_table /\
    ds_orders datasets = Some (List.concat blocks) /\
    Forall2 (fun c block =>
               orders_in_range c (Z.of_nat (List.length block)) /\
               Forall (fun o => Order.customer_id o = Customer.customer_id c) block)
            customer_table blocks /\
    Z.of_nat (List.length customer_table) <= Z.of_nat (List.length (List.concat blocks))
      <= 36 * Z.of_nat (List.length customer_table).
Proof.
  destruct (run_layout seed_value num_d2c num_b2b ambient)
    as (datasets & E & table & ds & _ & Ec & Eo & _ & _ & (dblocks & -> & Hbl & _)).
  exists datasets, table, (map (map order_of) dblocks).
  split; [exact E|]. split; [exact Ec|]. split; [now rewrite <- concat_map|].
  assert (Hblocks : Forall2 (fun c block =>
               orders_in_range c (Z.of_nat (List.length block)) /\
               Forall (fun o => Order.customer_id o = Customer.customer_id c) block)
            table (map (map order_of) dblocks)).
  { clear -Hbl. induction Hbl as [|c b cs bs [Hn Hall] _ IH]; [constructor|].
    cbn [map]. constructor; [|exact IH]. split; [now rewrite length_map|].
    apply Forall_map. eapply Forall_impl; [|exact Hall]. cbv beta. intros d [<- _].
    reflexivity. }
  split; [exact Hblocks|].
  pose proof (concat_length_bounds _ 1 36 _ _
                (fun c b Hcb => orders_in_range_pos c _ (proj1 Hcb)) Hblocks). lia.
Qed.

End OrderTables.

(** * Line-item identifiers *)

Lemma no_separator_app s t : no_separator s -> no_separator t -> no_separator (s ++ t).
Proof. induction s as [|a s IH]; simpl; [auto|]. intros [Ha Hs] Ht. split; auto. Qed.

Lemma no_separator_zeros k : no_separator (zeros k).
Proof. induction k; simpl; [exact I|]. split; [discriminate | assumption]. Qed.

Lemma no_separator_uint u : no_separator (NilEmpty.string_of_uint u).
Proof. induction u; simpl; try exact I; (split; [discriminate | assumption]). Qed.

Lemma no_separator_str n : 0 <= n -> no_separator (str_of_int n).
Proof.
  intros Hn. destruct (to_int_nonneg n Hn) as (u & Eu & Hu).
  unfold str_of_int. rewrite Eu. cbn [NilZero.string_of_int].
  replace (NilZero.string_of_uint u) with (NilEmpty.string_of_uint u) by (now destruct u).
  apply no_separator_uint.
Qed.

Lemma no_separator_fmt w n : 0 <= n -> no_separator (fmt_0d w n).
Proof.
  intros Hn. unfold fmt_0d. apply no_separator_app;
    [apply no_separator_zeros | now apply no_separator_str].
Qed.

(** Two texts split at their first separator in one way only. *)
Lemma separator_split s : forall s' t t',
  no_separator s -> no_separator s' ->
  (s ++ String "_" t)%string = (s' ++ String "_" t')%string -> s = s' /\ t = t'.
Proof.
  induction s as [|a s IH]; intros [|a' s'] t t' Hs Hs' E; simpl in *.
  - injection E as E. now split.
  - injection E as E1 E2. destruct Hs' as [Ha _]. now subst.
  - injection E as E1 E2. destruct Hs as [Ha _]. now subst.
  - injection E as E1 E2. destruct Hs as [_ Hs]. destruct Hs' as [_ Hs'].
    destruct (IH s' t t' Hs Hs' E2) as [-> ->]. now subst.
Qed.

Lemma str_of_int_inj a b : 0 <= a -> 0 <= b -> str_of_int a = str_of_int b -> a = b.
Proof. intros Ha Hb E. apply (fmt_0d_inj 0 a b Ha Hb). unfold fmt_0d. simpl. exact E. Qed.

Lemma line_item_id_inj k j k' j' :
  0 <= k -> 0 <= j -> 0 <= k' -> 0 <= j' ->
  line_item_id_of k j = line_item_id_of k' j' -> k = k' /\ j = j'.
Proof.
  intros Hk Hj Hk' Hj' E. unfold line_item_id_of in E. simpl in E.
  injection E as E.
  destruct (separator_split _ _ _ _ (no_separator_fmt 7 k Hk) (no_separator_fmt 7 k' Hk') E)
    as [E1 E2].
  split; [exact (fmt_0d_inj 7 k k' Hk Hk' E1) | exact (str_of_int_inj j j' Hj Hj' E2)].
Qed.

Lemma map_fst_combine {A B} (xs : list A) : forall (ys : list B),
  List.length xs = List.length ys -> map fst (combine xs ys) = xs.
Proof.
  induction xs as [|x xs IH]; intros [|y ys] Hlen; try discriminate; [reflexivity|].
  cbn [combine map fst]. f_equal. apply IH. now injection Hlen.
Qed.

Lemma map_enumerate1_idx {A B} (f : Z -> B) (g : Z * A -> B) (xs : list A) :
  (forall e, g e = f (fst e)) ->
  map g (enumerate1 xs) = map f (py_range 1 (Z.of_nat (List.length xs) + 1)).
Proof.
  intros Hg. rewrite (map_ext g (fun e => f (fst e)) Hg), <- map_map.
  unfold enumerate1. rewrite map_fst_combine; [reflexivity|].
  rewrite py_range_length. lia.
Qed.

Lemma map_eq_Forall2 {A B} (f : B -> A) xs ys :
  map f ys = xs -> Forall2 (fun x y => f y = x) xs ys.
Proof.
  revert xs. induction ys as [|y ys IH]; intros [|x xs] E; try discriminate; [constructor|].
  injection E as E1 E2. constructor; [exact E1 | now apply IH].
Qed.

(** The identifiers of the line items of orders with distinct numbers. *)
Lemma line_item_ids_NoDup (keys : list (Z * Z)) :
  NoDup (map fst keys) -> Forall (fun kn => 1 <= fst kn) keys ->
  NoDup (List.concat (map (fun kn => map (line_item_id_of (fst kn))
                                         (py_range 1 (snd kn + 1))) keys)).
Proof.
  induction keys as [|[k n] keys IH]; intros Hnd Hpos; [constructor|].
  cbn [map List.concat fst snd] in *.
  inversion_clear Hnd as [|? ? Hk Hrest]. inversion_clear Hpos as [|? ? Hk1 Hpos'].
  cbn [fst] in Hk1.
  apply NoDup_append.
  - apply NoDup_map_NoDup_ForallPairs; [|apply py_range_NoDup].
    intros a b Ha Hb E. apply py_range_In in Ha, Hb.
    apply (line_item_id_inj k a k b); (lia || exact E).
  - now apply IH.
  - intros x Hx Hy. apply in_map_iff in Hx. destruct Hx as (j & <- & Hj).
    apply py_range_In in Hj.
    apply in_concat in Hy. destruct Hy as (l & Hl & Hin).
    apply in_map_iff in Hl. destruct Hl as ([k' n'] & <- & Hkn). cbn [fst snd] in Hin.
    apply in_map_iff in Hin. destruct Hin as (j' & E & Hj'). apply py_range_In in Hj'.
    pose proof (proj1 (Forall_forall _ _) Hpos' _ Hkn) as Hk'. cbn [fst] in Hk'.
    destruct (line_item_id_inj k' j' k j) as [-> _]; try lia; [exact E|].
    apply Hk. apply in_map_iff. exists (k, n'). split; [reflexivity | exact Hkn].
Qed.

Section LineItemIds.
Context {rng : Type} `{PyRandom rng} {R : Rounding}.

Lemma line_items_ids (d : order_draws) :
  map LineItem.line_item_id (line_items_of d)
  = map (line_item_id_of (dr_order_id d))
        (py_range 1 (Z.of_nat (List.length (dr_selected d)) + 1)).
Proof.
  unfold line_items_of, make_line_items. rewrite map_map.
  apply map_enumerate1_idx. now intros [idx item].
Qed.

(** X9.  In every run the line items of the [k]-th order ([k] from 1) are
    numbered from 1: the [j]-th has the identifier ['LI'], [k] on seven
    digits, ['_'], [j]; and the identifiers of the line-item table are
    pairwise distinct. *)
Theorem line_item_ids_distinct (seed_value num_d2c num_b2b : Z) (ambient : rng) :
  exists datasets (passes : list (list LineItem.t)),
    run seed_value num_d2c num_b2b ambient = inr datasets /\
    ds_order_line_items datasets = Some (List.concat passes) /\
    Forall2 (fun k rows =>
               map LineItem.line_item_id rows
               = map (line_item_id_of k) (py_range 1 (Z.of_nat (List.length rows) + 1)))
            (py_range 1 (1 + Z.of_nat (List.length passes))) passes /\
    NoDup (map LineItem.line_item_id (List.concat passes)).
Proof.
  destruct (run_layout seed_value num_d2c num_b2b ambient)
    as (datasets & E & table & ds & _ & _ & _ & El & _ & (blocks & _ & _ & Hnum)).
  exists datasets, (map line_items_of ds). split; [exact E|]. split; [exact El|].
  unfold numbered in Hnum. split.
  - rewrite length_map, <- Hnum. clear. induction ds as [|d ds IH]; [constructor|].
    cbn [map]. constructor; [|exact IH].
    now rewrite line_items_ids, line_items_length.
  - rewrite concat_map, map_map.
    rewrite (map_ext _ (fun d => map (line_item_id_of (dr_order_id d))
                                     (py_range 1 (Z.of_nat (List.length (dr_selected d)) + 1)))
               line_items_ids).
    pose (keys := map (fun d => (dr_order_id d, Z.of_nat (List.length (dr_selected d)))) ds).
    assert (Ek : map (fun d => map (line_item_id_of (dr_order_id d))
                                   (py_range 1 (Z.of_nat (List.length (dr_selected d)) + 1))) ds
                 = map (fun kn => map (line_item_id_of (fst kn)) (py_range 1 (snd kn + 1))) keys).
    { unfold keys. rewrite map_map. reflexivity. }
    rewrite Ek. apply line_item_ids_NoDup.
    + unfold keys. rewrite map_map. change (NoDup (map dr_order_id ds)).
      rewrite Hnum. apply py_range_NoDup.
    + unfold keys. apply Forall_map. apply Forall_forall. intros d Hd. cbn [fst].
      assert (Hin : In (dr_order_id d) (map dr_order_id ds)) by now apply in_map.
      rewrite Hnum in Hin. apply py_range_In in Hin. lia.
Qed.

End LineItemIds.

(** * Statistics, report and files *)

Lemma count_all {A} (f : A -> string) (v : string) xs :
  Forall (fun x => f x = v) xs ->
  List.length (filter (fun s => String.eqb s v) (map f xs)) = List.length xs.
Proof.
  induction 1 as [|x xs Hx _ IH]; [reflexivity|].
  cbn [map filter]. rewrite Hx, String.eqb_refl. cbn [List.length]. now rewrite IH.
Qed.

Lemma count_none {A} (f : A -> string) (v w : string) xs :
  String.eqb w v = false -> Forall (fun x => f x = w) xs ->
  List.length (filter (fun s => String.eqb s v) (map f xs)) = 0%nat.
Proof.
  intros Hwv. induction 1 as [|x xs Hx _ IH]; [reflexivity|].
  cbn [map filter]. rewrite Hx, Hwv. exact IH.
Qed.

Lemma filter_length_le {A} (p : A -> bool) xs :
  (List.length (filter p xs) <= List.length xs)%nat.
Proof. induction xs as [|x xs IH]; simpl; [lia|]. destruct (p x); simpl; lia. Qed.

Lemma isna_sum_bounds {A} (col : list (option A)) :
  0 <= isna_sum col <= Z.of_nat (List.length col).
Proof. unfold isna_sum. pose proof (filter_length_le (fun v : option A => match v with None => true | Some _ => false end) col). lia. Qed.

Lemma isna_sum_app {A} (xs ys : list (option A)) :
  isna_sum (xs ++ ys) = isna_sum xs + isna_sum ys.
Proof. unfold isna_sum. rewrite filter_app, length_app. lia. Qed.

Lemma isna_sum_none {A B} (f : A -> option B) xs :
  Forall (fun x => f x <> None) xs -> isna_sum (map f xs) = 0.
Proof.
  unfold isna_sum. induction 1 as [|x xs Hx _ IH]; [reflexivity|].
  cbn [map filter]. destruct (f x); [exact IH | congruence].
Qed.

(** The two segments of a laid-out customer table. *)
Lemma customers_layout_segments num_d2c num_b2b table :
  customers_layout num_d2c num_b2b table ->
  Z.of_nat (List.length table) = Z.max num_d2c 0 + Z.max num_b2b 0 /\
  Z.of_nat (List.length (filter (fun s => String.eqb s "D2C")
                                (map Customer.segment table))) = Z.max num_d2c 0 /\
  Z.of_nat (List.length (filter (fun s => String.eqb s "B2B")
                                (map Customer.segment table))) = Z.max num_b2b 0 /\
  0 <= isna_sum (map Customer.acquisition_date table) <= Z.max num_d2c 0 /\
  0 <= isna_sum (map Customer.channel table) <= Z.max num_d2c 0.
Proof.
  intros (d2c & b2b & -> & Hd & Hb).
  assert (Ld : Z.of_nat (List.length d2c) = Z.max num_d2c 0).
  { rewrite (Forall2_length_eq _ _ _ Hd), py_range_length_nonneg. lia. }
  assert (Lb : Z.of_nat (List.length b2b) = Z.max num_b2b 0).
  { rewrite (Forall2_length_eq _ _ _ Hb), py_range_length_nonneg. lia. }
  assert (Sd : Forall (fun c => Customer.segment c = "D2C"%string) d2c).
  { eapply Forall2_Forall_r; [|exact Hd]. intros i c Hc. exact (proj1 (proj2 Hc)). }
  assert (Sb : Forall (fun c => Customer.segment c = "B2B"%string) b2b).
  { eapply Forall2_Forall_r; [|exact Hb]. intros i c Hc. exact (proj1 (proj2 Hc)). }
  rewrite !map_app, !filter_app, !length_app, !isna_sum_app.
  rewrite (count_all _ _ _ Sd), (count_all _ _ _ Sb).
  rewrite (count_none _ "D2C" "B2B" _ eq_refl Sb), (count_none _ "B2B" "D2C" _ eq_refl Sd).
  rewrite (isna_sum_none Customer.acquisition_date b2b),
          (isna_sum_none Customer.channel b2b).
  - pose proof (isna_sum_bounds (map Customer.acquisition_date d2c)) as B1.
    pose proof (isna_sum_bounds (map Customer.channel d2c)) as B2.
    rewrite length_map in B1, B2. lia.
  - eapply Forall2_Forall_r; [|exact Hb]. intros i c (_ & _ & _ & Ech & _).
    rewrite Ech. discriminate.
  - eapply Forall2_Forall_r; [|exact Hb]. intros i c (_ & _ & (d & Ed & _) & _).
    rewrite Ed. discriminate.
Qed.

Lemma d2c_row_not_b2b i c : d2c_row i c -> is_b2b_customer c = false.
Proof. intros (_ & Es & _). unfold is_b2b_customer. now rewrite Es. Qed.

Lemma b2b_row_is_b2b i c : b2b_row i c -> is_b2b_customer c = true.
Proof. intros (_ & Es & _). unfold is_b2b_customer. now rewrite Es. Qed.

Lemma orders_in_range_d2c c n : is_b2b_customer c = false -> orders_in_range c n -> 1 <= n <= 10.
Proof.
  unfold orders_in_range. intros ->.
  destruct (String.eqb (Customer.status c) "Active");
    [|destruct (String.eqb (Customer.status c) "Churned")]; lia.
Qed.

Lemma orders_in_range_b2b c n : is_b2b_customer c = true -> orders_in_range c n -> 12 <= n <= 36.
Proof. unfold orders_in_range. now intros ->. Qed.

(** The number of passes of a laid-out run. *)
Lemma orders_layout_count catalog num_d2c num_b2b table ds :
  customers_layout num_d2c num_b2b table -> orders_layout catalog table ds ->
  Z.max num_d2c 0 + 12 * Z.max num_b2b 0 <= Z.of_nat (List.length ds)
    <= 10 * Z.max num_d2c 0 + 36 * Z.max num_b2b 0.
Proof.
  intros (d2c & b2b & -> & Hd & Hb) (blocks & -> & Hbl & _).
  apply Forall2_app_inv_l in Hbl. destruct Hbl as (bl1 & bl2 & H1 & H2 & ->).
  rewrite concat_app, length_app.
  assert (Ld : Z.of_nat (List.length d2c) = Z.max num_d2c 0).
  { rewrite (Forall2_length_eq _ _ _ Hd), py_range_length_nonneg. lia. }
  assert (Lb : Z.of_nat (List.length b2b) = Z.max num_b2b 0).
  { rewrite (Forall2_length_eq _ _ _ Hb), py_range_length_nonneg. lia. }
  assert (B1 : 1 * Z.of_nat (List.length d2c) <= Z.of_nat (List.length (List.concat bl1))
               <= 10 * Z.of_nat (List.length d2c)).
  { apply (concat_length_bounds (fun c b => In c d2c /\ block_ok catalog c b)).
    - intros c b [Hc [Hn _]]. destruct (Forall2_In_r _ _ _ _ Hd Hc) as (i & _ & Hrow).
      exact (orders_in_range_d2c _ _ (d2c_row_not_b2b _ _ Hrow) Hn).
    - clear -H1. induction H1 as [|c b cs bs Hcb _ IH]; [constructor|].
      constructor; [split; [now left | exact Hcb]|].
      eapply Forall2_impl; [|exact IH]. intros x y [Hx Hy]. split; [now right | exact Hy]. }
  assert (B2 : 12 * Z.of_nat (List.length b2b) <= Z.of_nat (List.length (List.concat bl2))
               <= 36 * Z.of_nat (List.length b2b)).
  { apply (concat_length_bounds (fun c b => In c b2b /\ block_ok catalog c b)).
    - intros c b [Hc [Hn _]]. destruct (Forall2_In_r _ _ _ _ Hb Hc) as (i & _ & Hrow).
      exact (orders_in_range_b2b _ _ (b2b_row_is_b2b _ _ Hrow) Hn).
    - clear -H2. induction H2 as [|c b cs bs Hcb _ IH]; [constructor|].
      constructor; [split; [now left | exact Hcb]|].
      eapply Forall2_impl; [|exact IH]. intros x y [Hx Hy]. split; [now right | exact Hy]. }
  lia.
Qed.

Section Statistics.
Context {rng : Type} `{PyRandom rng} {R : Rounding} `{Pandas}.

Lemma line_items_count catalog table ds :
  orders_layout catalog table ds ->
  Z.of_nat (List.length ds) <= Z.of_nat (List.length (List.concat (map line_items_of ds)))
    <= 8 * Z.of_nat (List.length ds).
Proof.
  intros Hlay. pose proof (orders_layout_valid _ _ _ Hlay) as Hv.
  pose proof (concat_length_bounds
                (fun d rows => rows = line_items_of d /\ valid_draws catalog d) 1 8
                ds (map line_items_of ds)) as Hb.
  assert (H1 : 1 * Z.of_nat (List.length ds)
               <= Z.of_nat (List.length (List.concat (map line_items_of ds)))
               <= 8 * Z.of_nat (List.length ds)).
  { apply Hb.
    - intros d rows [-> ([_ Hlen] & _)]. rewrite line_items_length.
      destruct (is_b2b_customer (dr_customer d)); lia.
    - clear -Hv. induction Hv as [|d ds [Hd _] _ IH]; [constructor|].
      cbn [map]. constructor; [now split | exact IH]. }
  lia.
Qed.

(** The statistics of the tables of a run that made at least one customer. *)
Lemma statistics_generated num_d2c num_b2b datasets :
  generated_layout num_d2c num_b2b datasets ->
  1 <= Z.max num_d2c 0 + Z.max num_b2b 0 ->
  exists stats customer_table orders_table line_items_table,
    statistics (mkGenerator (ds_products datasets) (ds_customers datasets)
                            (ds_orders datasets) (ds_order_line_items datasets))
      = inr stats /\
    ds_customers datasets = Some customer_table /\
    ds_orders datasets = Some orders_table /\
    ds_order_line_items datasets = Some line_items_table /\
    total_customers stats = Z.of_nat (List.length customer_table) /\
    total_customers stats = Z.max num_d2c 0 + Z.max num_b2b 0 /\
    d2c_customers stats = Z.max num_d2c 0 /\
    b2b_customers stats = Z.max num_b2b 0 /\
    total_orders stats = Z.of_nat (List.length orders_table) /\
    total_line_items stats = Z.of_nat (List.length line_items_table) /\
    total_revenue stats = series_sum (map Order.revenue orders_table) /\
    Z.max num_d2c 0 + 12 * Z.max num_b2b 0 <= total_orders stats
      <= 10 * Z.max num_d2c 0 + 36 * Z.max num_b2b 0 /\
    total_orders stats <= total_line_items stats <= 8 * total_orders stats.
Proof.
  intros (table & ds & Ep & Ec & Eo & El & Hlay & Hord) Hne.
  destruct (customers_layout_segments _ _ _ Hlay) as (Ln & Cd & Cb & _).
  pose proof (orders_layout_count _ _ _ _ _ Hlay Hord) as Hcount.
  pose proof (line_items_count _ _ _ Hord) as Hitems.
  rewrite Ep, Ec, Eo, El. unfold statistics.
  cbn [customers orders order_line_items]. unfold count_equal, column.
  destruct table as [|c0 table']; [cbn [List.length] in Ln; lia|].
  destruct ds as [|d0 ds']; [cbn [List.length] in Hcount; lia|].
  cbn [map bind_error].
  eexists. exists (c0 :: table'), (order_of d0 :: map order_of ds'),
                  (List.concat (map line_items_of (d0 :: ds'))).
  split; [reflexivity|].
  cbn [total_customers d2c_customers b2b_customers total_orders total_line_items
       total_revenue].
  split; [reflexivity|]. split; [reflexivity|]. split; [reflexivity|].
  split; [reflexivity|]. split; [exact Ln|]. split; [exact Cd|]. split; [exact Cb|].
  split; [reflexivity|]. split; [reflexivity|]. split; [reflexivity|].
  change (order_of d0 :: map order_of ds') with (map order_of (d0 :: ds')).
  rewrite length_map. split; [exact Hcount | exact Hitems].
Qed.

(** [generate_all] returns the tables of a laid-out run with the default
    counts, and their statistics. *)
Lemma generate_all_stats_run (self : KikapuDataGenerator) (g : rng) :
  exists datasets stats g',
    generate_all_stats self g
      = inr (((datasets, stats),
              mkGenerator (ds_products datasets) (ds_customers datasets)
                          (ds_orders datasets) (ds_order_line_items datasets)), g') /\
    generate_all_with self 50000 200 g
      = inr ((datasets,
              mkGenerator (ds_products datasets) (ds_customers datasets)
                          (ds_orders datasets) (ds_order_line_items datasets)), g') /\
    generated_layout 50000 200 datasets /\
    statistics (mkGenerator (ds_products datasets) (ds_customers datasets)
                            (ds_orders datasets) (ds_order_line_items datasets))
      = inr stats.
Proof.
  destruct (generate_all_with_layout self 50000 200 g)
    as ([datasets self'] & g' & E & Hg & Es). cbn [fst snd] in Hg, Es. subst self'.
  destruct (statistics_generated 50000 200 datasets Hg ltac:(lia)) as (stats & _ & _ & _ & Est & _).
  exists datasets, stats, g'. split; [|split; [exact E|split; [exact Hg | exact Est]]].
  unfold generate_all_stats, bindE, of_M, liftE, retE. unfold generate_all.
  rewrite E. cbn [fst snd]. rewrite Est. reflexivity.
Qed.

(** X10.  [generate_all], from any state of the generator object and any
    state of the random generator, returns the four tables and their
    statistics: 50200 customers, of which 50000 D2C and 200 B2B; the
    numbers of rows of the order and line-item tables; between 52400 and
    507200 orders; between one and eight line items per order.  The tables
    returned are the ones the generator object holds afterwards. *)
Theorem generate_all_statistics (self : KikapuDataGenerator) (g : rng) :
  exists datasets stats g' customer_table orders_table line_items_table,
    generate_all_stats self g
      = inr (((datasets, stats),
              mkGenerator (ds_products datasets) (ds_customers datasets)
                          (ds_orders datasets) (ds_order_line_items datasets)), g') /\
    ds_products datasets = Some products_data /\
    ds_customers datasets = Some customer_table /\
    ds_orders datasets = Some orders_table /\
    ds_order_line_items datasets = Some line_items_table /\
    total_customers stats = Z.of_nat (List.length customer_table) /\
    total_customers stats = 50200 /\
    d2c_customers stats = 50000 /\
    b2b_customers stats = 200 /\
    total_orders stats = Z.of_nat (List.length orders_table) /\
    total_line_items stats = Z.of_nat (List.length line_items_table) /\
    total_revenue stats = series_sum (map Order.revenue orders_table) /\
    52400 <= total_orders stats <= 507200 /\
    total_orders stats <= total_line_items stats <= 8 * total_orders stats.
Proof.
  destruct (generate_all_stats_run self g) as (datasets & stats & g' & E & _ & Hg & Est).
  destruct (statistics_generated 50000 200 datasets Hg ltac:(lia))
    as (stats' & ct & ot & lt & Est' & Ec & Eo & El & T1 & T2 & T3 & T4 & T5 & T6 & T7 & T8 & T9).
  rewrite Est in Est'. injection Est' as <-.
  exists datasets, stats, g', ct, ot, lt.
  split; [exact E|].
  destruct Hg as (table & ds & Ep & _).
  repeat (split; [assumption || lia|]). lia.
Qed.

End Statistics.

(** ** The data quality report *)

Lemma percentage_bounds (count n : Z) :
  0 <= count <= n -> 1 <= n -> (0 <= percentage count n <= 100)%Q.
Proof.
  intros [C0 C1] Hn. unfold percentage, fmul, fdiv, of_int.
  assert (E1 : (1 <= rne 1)%Q) by (apply Qle_bool_iff; vm_compute; reflexivity).
  assert (E1' : (rne 1 <= 1)%Q) by (apply Qle_bool_iff; vm_compute; reflexivity).
  assert (E100 : rne (inject_Z 100) = 100%Q) by (vm_compute; reflexivity).
  assert (E100' : (rne 100 <= 100)%Q) by (apply Qle_bool_iff; vm_compute; reflexivity).
  assert (A0 : (0 <= rne (inject_Z count))%Q).
  { apply rne_nonneg. change 0%Q with (inject_Z 0). rewrite <- Zle_Qle. exact C0. }
  assert (AB : (rne (inject_Z count) <= rne (inject_Z n))%Q).
  { apply rne_mono. rewrite <- Zle_Qle. exact C1. }
  assert (B1 : (1 <= rne (inject_Z n))%Q).
  { eapply Qle_trans; [exact E1|]. apply rne_mono.
    change 1%Q with (inject_Z 1). rewrite <- Zle_Qle. exact Hn. }
  set (a := rne (inject_Z count)) in *. set (b := rne (inject_Z n)) in *. clearbody a b.
  rewrite E100.
  assert (Q0 : (0 <= a / b)%Q) by (apply Qle_shift_div_l; lra).
  assert (Q1 : (a / b <= 1)%Q) by (apply Qle_shift_div_r; lra).
  assert (R0 : (0 <= rne (a / b))%Q) by (now apply rne_nonneg).
  assert (R1 : (rne (a / b) <= 1)%Q).
  { eapply Qle_trans; [|exact E1']. now apply rne_mono. }
  set (q := rne (a / b)) in *. clearbody q.
  split.
  - apply rne_nonneg. lra.
  - eapply Qle_trans; [|exact E100']. apply rne_mono. lra.
Qed.

Lemma column_nonempty {Row A : Type} (name : string) (field : Row -> A) (table : list Row) :
  table <> [] -> column name field table = inr (map field table).
Proof. destruct table; [congruence | reflexivity]. Qed.

Section Report.
Context {rng : Type} `{PyRandom rng} {R : Rounding}.

(** X11.  [get_data_quality_report] answers ['No data generated yet'] as
    long as the customers or the orders are missing.  After the three
    generation methods have run with counts that make at least one
    customer, it returns the report: the customers with a null acquisition
    date and those with a null channel are at most the D2C customers, there
    are at least as many orders as customers, and each of the four
    percentages lies between 0 and 100.  With counts that make no customer
    the two tables are empty frames and the method raises [KeyError] on the
    column ['acquisition_date']. *)
Theorem quality_report_after_generation (self : KikapuDataGenerator)
  (num_d2c num_b2b : Z) (g : rng) :
  (customers self = None \/ orders self = None ->
   get_data_quality_report self = inr "No data generated yet"%string) /\
  exists datasets self' g',
    generate_all_with self num_d2c num_b2b g = inr ((datasets, self'), g') /\
    (Z.max num_d2c 0 + Z.max num_b2b 0 = 0 ->
     get_data_quality_report self' = inl (KeyError "acquisition_date")) /\
    (1 <= Z.max num_d2c 0 + Z.max num_b2b 0 ->
     exists missing_acq_dates missing_channels n_customers
            missing_order_dates missing_cogs n_orders,
       get_data_quality_report self'
         = inr (render_report missing_acq_dates missing_channels n_customers
                              missing_order_dates missing_cogs n_orders) /\
       n_customers = Z.max num_d2c 0 + Z.max num_b2b 0 /\
       0 <= missing_acq_dates <= Z.max num_d2c 0 /\
       0 <= missing_channels <= Z.max num_d2c 0 /\
       n_customers <= n_orders /\
       0 <= missing_order_dates <= n_orders /\
       0 <= missing_cogs <= n_orders /\
       (0 <= percentage missing_acq_dates n_customers <= 100)%Q /\
       (0 <= percentage missing_channels n_customers <= 100)%Q /\
       (0 <= percentage missing_order_dates n_orders <= 100)%Q /\
       (0 <= percentage missing_cogs n_orders <= 100)%Q).
Proof.
  split.
  { intros [E|E]; unfold get_data_quality_report; rewrite E; [reflexivity|].
    now destruct (customers self). }
  destruct (generate_all_with_layout self num_d2c num_b2b g)
    as ([datasets self'] & g' & E & Hg & Es). cbn [fst snd] in Hg, Es.
  exists datasets, self', g'. split; [exact E|].
  destruct Hg as (table & ds & Ep & Ec & Eo & El & Hlay & Hord).
  destruct (customers_layout_segments _ _ _ Hlay) as (Ln & _ & _ & Ha & Hc).
  pose proof (orders_layout_count _ _ _ _ _ Hlay Hord) as Hcount.
  subst self'. rewrite Ec, Eo. unfold get_data_quality_report. cbn [customers orders].
  split.
  - intros Hz. destruct table as [|c0 table']; [reflexivity|].
    cbn [List.length] in Ln. lia.
  - intros Hne.
    assert (Tne : table <> []) by (intros ->; cbn [List.length] in Ln; lia).
    assert (One : map order_of ds <> []).
    { destruct ds; [cbn [List.length] in Hcount; lia | discriminate]. }
    rewrite !column_nonempty by assumption. cbn [bind_error].
    do 6 eexists. split; [reflexivity|].
    pose proof (isna_sum_bounds (map Order.order_date (map order_of ds))) as Bd.
    pose proof (isna_sum_bounds (map Order.total_cogs (map order_of ds))) as Bk.
    rewrite !length_map in Bd, Bk. rewrite !length_map.
    assert (Hn : Z.of_nat (List.length table) <= Z.of_nat (List.length ds)) by lia.
    split; [exact Ln|]. split; [exact Ha|]. split; [exact Hc|]. split; [exact Hn|].
    split; [exact Bd|]. split; [exact Bk|].
    split; [apply percentage_bounds; lia|]. split; [apply percentage_bounds; lia|].
    split; apply percentage_bounds; lia.
Qed.

End Report.

(** ** Saving *)

Section Files.
Context {rng : Type} `{PyRandom rng} {R : Rounding} `{Pandas}.


(** X13.  The script seeds the generator with 42, generates and saves: the
    four files written under ['./kikapu_data'] hold the four tables that
    [generate_all] returned, which are the tables of the run of the
    claims; saving does not generate them a second time. *)
Theorem script_writes_generated_tables (ambient : rng) (dir_exists : bool) :
  exists datasets stats products_table customer_table orders_table line_items_table,
    script ambient dir_exists
      = inr ((datasets, stats),
             ((if dir_exists then [] else [Makedirs "./kikapu_data"])
              ++ [ ToCsv "./kikapu_data/kikapu_products.csv" (ProductsTable products_table);
                   ToCsv "./kikapu_data/kikapu_customers.csv" (CustomersTable customer_table);
                   ToCsv "./kikapu_data/kikapu_orders.csv" (OrdersTable orders_table);
                   ToCsv "./kikapu_data/kikapu_order_line_items.csv"
                         (LineItemsTable line_items_table) ])%list) /\
    main ambient = inr datasets /\
    ds_products datasets = Some products_table /\
    ds_customers datasets = Some customer_table /\
    ds_orders datasets = Some orders_table /\
    ds_order_line_items datasets = Some line_items_table.
Proof.
  destruct (generate_all_stats_run init (seed 42)) as (datasets & stats & g' & E & E' & Hg & _).
  destruct Hg as (ct & ds & Ep & Ec & Eo & El & _).
  exists datasets, stats, products_data, ct, (map order_of ds),
         (List.concat (map line_items_of ds)).
  split.
  { unfold script. rewrite E. rewrite Ep, Ec, Eo, El. reflexivity. }
  split.
  { unfold main, run. now rewrite E'. }
  auto.
Qed.

End Files.

(** ** The order of the generation methods *)

Section MethodOrder.
Context {rng : Type} `{PyRandom rng} {R : Rounding}.

(** X14.  [generate_orders] raises [ValueError], drawing nothing, as long
    as the customers or the products are missing; once [generate_products]
    and [generate_customers] have run, in either order and whatever the
    counts, it returns and stores the two order tables, leaving products
    and customers as they are. *)
Theorem generate_orders_needs_tables (self : KikapuDataGenerator)
  (num_d2c num_b2b : Z) (g : rng) :
  (customers self = None \/ products self = None -> generate_orders self g = inl ValueError) /\
  (exists customer_table self1 g1 orders_table line_items_table g2,
     generate_customers (snd (generate_products self)) num_d2c num_b2b g
       = inr ((customer_table, self1), g1) /\
     generate_orders self1 g1
       = inr (((orders_table, line_items_table),
               mkGenerator (Some products_data) (Some customer_table)
                           (Some orders_table) (Some line_items_table)), g2)) /\
  (exists customer_table self1 g1 orders_table line_items_table g2,
     generate_customers self num_d2c num_b2b g = inr ((customer_table, self1), g1) /\
     generate_orders (snd (generate_products self1)) g1
       = inr (((orders_table, line_items_table),
               mkGenerator (Some products_data) (Some customer_table)
                           (Some orders_table) (Some line_items_table)), g2)).
Proof.
  split; [|split].
  - intros [E|E]; unfold generate_orders; rewrite E; [reflexivity|].
    now destruct (customers self).
  - destruct (generate_customers_layout (snd (generate_products self)) num_d2c num_b2b g)
      as ([table self1] & g1 & E1 & Hlay & Es). cbn [fst snd] in Hlay, Es.
    destruct (generate_orders_layout self1 table products_data) with (s := g1)
      as ([[ot lt] self2] & g2 & E2 & ds & Etab & _ & Es2).
    + now subst self1.
    + now subst self1.
    + discriminate.
    + exact (customers_layout_ok _ _ _ Hlay).
    + exists table, self1, g1, ot, lt, g2. split; [exact E1|]. rewrite E2.
      cbn [fst snd] in Es2. subst self2 self1. reflexivity.
  - destruct (generate_customers_layout self num_d2c num_b2b g)
      as ([table self1] & g1 & E1 & Hlay & Es). cbn [fst snd] in Hlay, Es.
    destruct (generate_orders_layout (snd (generate_products self1)) table products_data)
      with (s := g1) as ([[ot lt] self2] & g2 & E2 & ds & Etab & _ & Es2).
    + now subst self1.
    + reflexivity.
    + discriminate.
    + exact (customers_layout_ok _ _ _ Hlay).
    + exists table, self1, g1, ot, lt, g2. split; [exact E1|]. rewrite E2.
      cbn [fst snd] in Es2. subst self2 self1. reflexivity.
Qed.

End MethodOrder.

(** * The two helpers on inputs the generator never passes *)

Lemma weighted_walk_range weights : forall i0 rand i,
  weighted_walk i0 rand weights = Some i ->
  i0 <= i < i0 + Z.of_nat (List.length weights).
Proof.
  induction weights as [|w rest IH]; intros i0 rand i E; [discriminate|].
  cbn [weighted_walk] in E. cbn [List.length].
  destruct (flt rand (inject_Z w)).
  - injection E as <-. lia.
  - apply IH in E. lia.
Qed.

Section Helpers.
Context {rng : Type} `{PyRandom rng}.

(** X15.  Whatever the integer weights (negative ones, a zero or negative
    total), [weighted_random] returns, draws one number and gives a
    position of the table: an index from 0 to [len(weights) - 1].  On an
    empty table it returns [-1].  The weights are taken small enough for
    their total and the running value [rand] to be converted to binary64
    without overflow. *)
Theorem weighted_random_index (weights : list Z) (g : rng) :
  Forall (fun w => Z.abs w <= 2 ^ 1000) weights ->
  Z.of_nat (List.length weights) <= 2 ^ 20 ->
  exists i,
    weighted_random weights g = inr (i, snd (random53 g)) /\
    (weights = [] -> i = -1) /\
    (weights <> [] -> 0 <= i < Z.of_nat (List.length weights)).
Proof.
  intros _ _. destruct (weighted_random_run weights g) as (u & _ & E).
  exists (weighted_pick weights u). split; [exact E|].
  unfold weighted_pick.
  destruct (weighted_walk 0 (fmul u (of_int (fold_left Z.add weights 0))) weights)
    as [i|] eqn:Ew.
  - apply weighted_walk_range in Ew. split; [|intros _; lia].
    intros ->. cbn [List.length] in Ew. lia.
  - split; [now intros -> |]. intros Hne. destruct weights; [congruence|].
    cbn [List.length]. lia.
Qed.

(** X16.  When [end_date] is less than one day after [start_date], the span
    has no whole day and [random_date] returns [start_date] itself, whatever
    the draw: the time of day of [end_date] plays no part. *)
Theorem random_date_within_a_day (start_date end_date : datetime) (g : rng) :
  valid_datetime start_date = true ->
  start_date <= end_date < start_date + US_PER_DAY ->
  random_date start_date end_date g = inr (start_date, snd (random53 g)).
Proof.
  intros Vs Hspan. destruct (random_run g) as (u & Hu & E).
  unfold random_date, bind. rewrite E. unfold lift, random_date_at, datetime_sub.
  assert (Hd : td_days (end_date - start_date) = 0).
  { unfold td_days. apply Z.div_small. lia. }
  rewrite Hd.
  assert (E0 : fmul u (of_int 0) = 0%Q).
  { rewrite of_int_0. unfold fmul.
    rewrite (@rne_comp (u * 0)%Q 0%Q) by ring. vm_compute. reflexivity. }
  rewrite E0. unfold timedelta_of_days.
  assert (Er : rint (0 * inject_Z US_PER_DAY) = 0) by (vm_compute; reflexivity).
  rewrite Er. change (valid_timedelta 0) with true. cbv iota.
  unfold datetime_add. rewrite Z.add_0_r, Vs. reflexivity.
Qed.

End Helpers.

(** [weighted_random_index] at the weights [[-3, 0, 7]] and the draw 0.5. *)
Lemma weighted_random_index_witness :
  exists i,
    @weighted_random _ (scripted []) [-3; 0; 7] [2 ^ 52]
      = inr (i, snd (@random53 _ (scripted []) [2 ^ 52])) /\
    ([-3; 0; 7] = [] -> i = -1) /\
    ([-3; 0; 7] <> [] -> 0 <= i < Z.of_nat (List.length [-3; 0; 7])).
Proof.
  apply (@weighted_random_index _ (scripted []) [-3; 0; 7] [2 ^ 52]).
  - repeat constructor; apply Z.leb_le; vm_compute; reflexivity.
  - apply Z.leb_le. vm_compute. reflexivity.
Defined.

(** [random_date_within_a_day] from 2022-01-01T00:00 to noon of that day. *)
Lemma random_date_within_a_day_witness :
  @random_date _ (scripted []) (mk_datetime 2022 1 1)
               (mk_datetime 2022 1 1 + 43200 * 1000000) [2 ^ 52]
  = inr (mk_datetime 2022 1 1, snd (@random53 _ (scripted []) [2 ^ 52])).
Proof.
  apply (@random_date_within_a_day _ (scripted [])).
  - reflexivity.
  - vm_compute. split; [discriminate | reflexivity].
Defined.

(** * The order of the amounts of an order *)

Open Scope Q_scope.

Lemma builtin_round_steady : round_steady builtin_round.
Proof.
  split; [|split; vm_compute; reflexivity].
  intros x y Hxy. rewrite !round_builtin. apply rne_mono.
  apply Qmult_le_compat_r; [|apply Qle_bool_iff; reflexivity].
  rewrite <- Zle_Qle. apply rint_mono. lra.
Qed.

Lemma numpy_round_steady : round_steady numpy_round.
Proof.
  split; [|split; vm_compute; reflexivity].
  intros x y Hxy. rewrite !round_numpy. apply rne_mono.
  apply Qmult_le_compat_r; [|apply Qle_bool_iff; reflexivity].
  rewrite <- Zle_Qle. apply rint_mono. apply rne_mono. lra.
Qed.

Lemma fold_fadd_is_float xs : forall acc,
  is_float acc -> is_float (fold_left fadd xs acc).
Proof.
  induction xs as [|x xs IH]; intros acc Hacc; [exact Hacc|].
  cbn [fold_left]. apply IH. apply rne_is_float.
Qed.

Lemma py_sum_is_float xs : is_float (py_sum xs).
Proof. unfold py_sum. apply fold_fadd_is_float. apply rne_is_float. Qed.

Lemma Qsum_le_affine {A} (f g : A -> Q) (k e : Q) xs :
  Forall (fun x => f x <= k * g x + e) xs ->
  Qsum (map f xs) <= k * Qsum (map g xs) + lenQ xs * e.
Proof.
  induction 1 as [|x xs Hx _ IH]; cbn [map].
  - rewrite (lenQ_nil A). cbn [Qsum fold_right]. lra.
  - rewrite !Qsum_cons, lenQ_cons. set (L := lenQ xs) in *. clearbody L. lra.
Qed.

Lemma catalog_margin :
  Forall (fun p => Product.avg_cogs p <= (49 # 100) * Product.unit_price p) products_data.
Proof.
  unfold products_data. repeat constructor; apply Qle_bool_iff; vm_compute; reflexivity.
Qed.

(** The cost of a line is at least 7 and at most 49 percent of its
    subtotal, up to the two roundings. *)
Lemma item_cogs_bounds (is_b2b : bool) (item : Product.t * Z) :
  valid_item products_data is_b2b item ->
  7 <= item_cogs item /\
  item_cogs item <= (49 # 100) * item_subtotal item + (1 # 1099511627776).
Proof.
  intros [Hin Hq].
  pose proof catalog_prices as HP. rewrite Forall_forall in HP.
  destruct (HP _ Hin) as [[U0 U1] [C0 C1]].
  pose proof catalog_margin as HM. rewrite Forall_forall in HM.
  pose proof (HM _ Hin) as M. cbv beta in M.
  assert (Hq' : (1 <= snd item <= 60)%Z) by (destruct is_b2b; lia).
  pose proof (@of_int_exact (snd item) ltac:(lia)) as Eq.
  assert (Q0 : 1 <= of_int (snd item)).
  { rewrite Eq. change 1 with (inject_Z 1). rewrite <- Zle_Qle. lia. }
  assert (Q1 : of_int (snd item) <= 60).
  { rewrite Eq. change 60 with (inject_Z 60). rewrite <- Zle_Qle. lia. }
  unfold item_subtotal, item_cogs, fmul.
  set (u := Product.unit_price (fst item)) in *.
  set (c := Product.avg_cogs (fst item)) in *.
  set (q := of_int (snd item)) in *. clearbody u c q.
  assert (E7 : 7 <= rne 7) by (apply Qle_bool_iff; vm_compute; reflexivity).
  assert (Hc : Qabs (c * q) < 4096) by (apply abs_lt_iff; split; nra).
  assert (Hu : Qabs (u * q) < 4096) by (apply abs_lt_iff; split; nra).
  pose proof (@rne_err_const (c * q) 4096 (1 # 4398046511104) 11
                eq_refl eq_refl ltac:(lia) Hc) as Ec.
  pose proof (@rne_err_const (u * q) 4096 (1 # 4398046511104) 11
                eq_refl eq_refl ltac:(lia) Hu) as Eu.
  split.
  - eapply Qle_trans; [exact E7|]. apply rne_mono. nra.
  - assert (Hcu : c * q <= (49 # 100) * (u * q)) by nra.
    set (x := c * q) in *. set (y := u * q) in *.
    set (rx := rne x) in *. set (ry := rne y) in *. clearbody rx ry x y.
    apply abs_le_iff in Ec. apply abs_le_iff in Eu. lra.
Qed.

(** The unrounded amounts of an order of a valid selection. *)
Lemma order_amounts (is_b2b : bool) (sel : selection) (discount_percent : Z) :
  valid_selection products_data is_b2b sel -> valid_discount is_b2b discount_percent ->
  (1 <= order_subtotal sel <= 19208) /\
  (0 <= order_discount_amount sel discount_percent <= order_subtotal sel) /\
  (1 <= order_revenue sel discount_percent <= order_subtotal sel) /\
  (1 <= order_total_cogs sel <= order_revenue sel discount_percent) /\
  (1 <= order_profit sel discount_percent <= order_revenue sel discount_percent).
Proof.
  intros [Hitems Hlen] Hdisc.
  assert (Hn : (1 <= Z.of_nat (List.length sel) <= 8)%Z) by (destruct is_b2b; lia).
  assert (N0 : 1 <= lenQ sel) by (apply (lenQ_ge _ 1); lia).
  assert (N1 : lenQ sel <= 8) by (apply (lenQ_le _ 8); lia).
  assert (Hsub : Forall (fun x => 15 <= x <= 2400) (map item_subtotal sel)).
  { apply Forall_map. eapply Forall_impl; [|exact Hitems].
    intros item Hv. apply (item_bounds _ _ Hv). }
  assert (Hsub0 : Forall (fun x => 0 <= x <= 2400) (map item_subtotal sel)).
  { eapply Forall_impl; [|exact Hsub]. intros x [X0 X1]. split; lra. }
  assert (Hcogs : Forall (fun x => 0 <= x <= 2400) (map item_cogs sel)).
  { apply Forall_map. eapply Forall_impl; [|exact Hitems].
    intros item Hv. apply (item_bounds _ _ Hv). }
  assert (Hc7 : Forall (fun x => 7 <= x) (map item_cogs sel)).
  { apply Forall_map. eapply Forall_impl; [|exact Hitems].
    intros item Hv. apply (item_cogs_bounds _ _ Hv). }
  assert (Hmargin : Qsum (map item_cogs sel)
                    <= (49 # 100) * Qsum (map item_subtotal sel)
                       + lenQ sel * (1 # 1099511627776)).
  { apply Qsum_le_affine. eapply Forall_impl; [|exact Hitems].
    intros item Hv. apply (item_cogs_bounds _ _ Hv). }
  destruct (py_sum_error _ Hsub0 ltac:(now rewrite lenQ_map)) as [[S0 S1] ES].
  destruct (py_sum_error _ Hcogs ltac:(now rewrite lenQ_map)) as [[C0 C1] EC].
  pose proof (Qsum_lower 15 _ (Forall_impl _ (fun x (Hx : 15 <= x <= 2400) => proj1 Hx) Hsub))
    as LS.
  pose proof (Qsum_lower 7 _ Hc7) as LC.
  rewrite !lenQ_map in *.
  pose proof (py_sum_is_float (map item_subtotal sel)) as FS.
  destruct (discount_rate_bounds _ _ Hdisc) as [P0 P1].
  unfold order_profit, order_revenue, order_discount_amount, order_total_cogs, order_subtotal,
         fsub, fmul.
  set (S := py_sum (map item_subtotal sel)) in *.
  set (C := py_sum (map item_cogs sel)) in *.
  set (A := Qsum (map item_subtotal sel)) in *.
  set (K := Qsum (map item_cogs sel)) in *.
  set (p := int_truediv discount_percent 100) in *.
  set (L := lenQ sel) in *.
  clearbody S C A K p L.
  apply abs_le_iff in ES. apply abs_le_iff in EC.
  assert (S14 : 14 <= S) by lra.
  assert (M0 : 0 <= S * p) by nra.
  assert (M1 : S * p <= S * (1 # 4)) by nra.
  assert (Hm : Qabs (S * p) < 32768) by (apply abs_lt_iff; split; lra).
  pose proof (@rne_err_const (S * p) 32768 (1 # 549755813888) 14
                eq_refl eq_refl ltac:(lia) Hm) as Ed.
  pose proof (@rne_nonneg (S * p) M0) as D0.
  set (D := rne (S * p)) in *. clearbody D. apply abs_le_iff in Ed.
  assert (D1 : D <= S) by lra.
  assert (Hr : Qabs (S - D) < 32768) by (apply abs_lt_iff; split; lra).
  pose proof (@rne_err_const (S - D) 32768 (1 # 549755813888) 14
                eq_refl eq_refl ltac:(lia) Hr) as Er.
  assert (RS : rne (S - D) <= S).
  { rewrite <- (rne_id FS) at 2. apply rne_mono. lra. }
  pose proof (rne_is_float (S - D)) as FR.
  set (V := rne (S - D)) in *. clearbody V. apply abs_le_iff in Er.
  assert (V1 : 1 <= V) by lra.
  assert (CV : C <= V) by lra.
  assert (E1 : 1 <= rne 1) by (apply Qle_bool_iff; vm_compute; reflexivity).
  assert (PV : rne (V - C) <= V).
  { rewrite <- (rne_id FR) at 2. apply rne_mono. lra. }
  assert (P1' : 1 <= rne (V - C)).
  { eapply Qle_trans; [exact E1|]. apply rne_mono. lra. }
  repeat split; lra.
Qed.

Section Amounts.
Context {rng : Type} `{PyRandom rng} {R : Rounding}.

Lemma order_of_amounts (d : order_draws) :
  round_steady R -> valid_draws products_data d -> amounts_ordered (order_of d).
Proof.
  intros (Hmono & R0 & R1) (Hsel & Hdisc & _).
  destruct (order_amounts _ _ _ Hsel Hdisc)
    as ([S0 S1] & [D0 D1] & [V0 V1] & [C0 C1] & [P0 P1]).
  unfold amounts_ordered, order_of, make_order.
  cbn [Order.subtotal Order.discount_amount Order.revenue Order.total_cogs Order.profit].
  set (S := order_subtotal (dr_selected d)) in *.
  set (D := order_discount_amount (dr_selected d) (dr_discount_percent d)) in *.
  set (V := order_revenue (dr_selected d) (dr_discount_percent d)) in *.
  set (C := order_total_cogs (dr_selected d)) in *.
  set (P := order_profit (dr_selected d) (dr_discount_percent d)) in *.
  clearbody S D V C P.
  assert (L1 : forall x : float, 1 <= x -> 1 <= round_ x 2).
  { intros x Hx. rewrite <- R1 at 1. now apply Hmono. }
  split; [now apply L1|]. split.
  { split; [rewrite <- R0 at 1|]; now apply Hmono. }
  split.
  { split; [now apply L1 | now apply Hmono]. }
  split.
  - intros c Hc. destruct (flt (dr_u_cogs d) (literal 3 100)); [discriminate|].
    injection Hc as <-. split; [now apply L1 | now apply Hmono].
  - intros p Hp. destruct (flt (dr_u_cogs d) (literal 3 100)); [discriminate|].
    injection Hp as <-. split; [now apply L1 | now apply Hmono].
Qed.

(** X17.  Let the rounding to two decimals be monotone and leave 0 and 1
    unchanged, as both roundings of this file do.  Then in every run every
    order has a stored subtotal of at least 1, a stored discount amount
    between 0 and the subtotal, a stored revenue between 1 and the subtotal
    and, when they are not null, a stored cost between 1 and the revenue and
    a stored profit between 1 and the revenue: no order is sold at a
    loss. *)
Theorem order_amounts_ordered (seed_value num_d2c num_b2b : Z) (ambient : rng) :
  round_steady R ->
  exists datasets orders_table,
    run seed_value num_d2c num_b2b ambient = inr datasets /\
    ds_orders datasets = Some orders_table /\
    Forall amounts_ordered orders_table.
Proof.
  intros HR.
  destruct (run_layout seed_value num_d2c num_b2b ambient)
    as (datasets & E & table & ds & _ & _ & Eo & _ & _ & Hlay).
  exists datasets, (map order_of ds). split; [exact E|]. split; [exact Eo|].
  apply Forall_map. eapply Forall_impl; [|exact (orders_layout_valid _ _ _ Hlay)].
  cbv beta. intros d [Hd _]. now apply order_of_amounts.
Qed.

End Amounts.

(** [order_amounts_ordered] at the run of one B2B customer, under the
    builtin rounding. *)
Lemma order_amounts_ordered_witness :
  round_steady builtin_round /\
  exists datasets orders_table,
    c7_run builtin_round = inr datasets /\
    ds_orders datasets = Some orders_table /\
    Forall amounts_ordered orders_table.
Proof.
  split; [exact builtin_round_steady|].
  exact (@order_amounts_ordered (list Z) (scripted c7_script) builtin_round 42 0 1 []
           builtin_round_steady).
Defined.

Open Scope Z_scope.

(** * The allocated discounts and the profits of the line items *)

Open Scope Q_scope.

Lemma Qsum_sub {A} (f g : A -> Q) xs :
  Qsum (map (fun x => f x - g x) xs) == Qsum (map f xs) - Qsum (map g xs).
Proof.
  induction xs as [|x xs IH]; cbn [map].
  - cbn [Qsum fold_right]. ring.
  - rewrite !Qsum_cons, IH. ring.
Qed.

Lemma Qsum_scaled (S D : Q) xs :
  Qsum (map (fun a => a / S * D) xs) == Qsum xs / S * D.
Proof.
  induction xs as [|x xs IH]; cbn [map].
  - cbn [Qsum fold_right]. unfold Qdiv. ring.
  - rewrite !Qsum_cons, IH. unfold Qdiv. ring.
Qed.

(** The share [fl(fl(a / S) * D)] of the discount and the profit
    [fl(fl(a - share) - c)] of a line, against their exact values. *)
Lemma item_allocation_error (a c S D : Q) :
  0 <= a <= 2400 -> 0 <= c <= 2400 -> 14 <= S <= 30000 -> 0 <= D <= S ->
  Qabs (fmul (fdiv a S) D - a / S * D) <= 1 # 1073741824 /\
  Qabs (fmul (fdiv a S) D) <= 8388608 /\
  Qabs (fsub (fsub a (fmul (fdiv a S) D)) c - ((a - a / S * D) - c)) <= 1 # 536870912 /\
  Qabs (fsub (fsub a (fmul (fdiv a S) D)) c) <= 8388608.
Proof.
  intros [A0 A1] [C0 C1] [S0 S1] [D0 D1].
  destruct (inverse_bounds S S0) as (I0 & I1 & E).
  unfold fsub, fmul, fdiv, Qdiv. set (i := / S) in *. clearbody i.
  assert (W0 : 0 <= i * D) by nra.
  assert (W1 : i * D <= 1) by nra.
  assert (X0 : 0 <= a * i * D).
  { rewrite <- Qmult_assoc. set (w := i * D) in *. clearbody w. nra. }
  assert (X1 : a * i * D <= 2400).
  { rewrite <- Qmult_assoc. set (w := i * D) in *. clearbody w. nra. }
  assert (Q0 : 0 <= a * i) by nra.
  assert (Q1 : a * i <= 172) by nra.
  assert (Hq : Qabs (a * i) < 256) by (apply abs_lt_iff; split; lra).
  pose proof (@rne_err_const (a * i) 256 (1 # 70368744177664) 7
                eq_refl eq_refl ltac:(lia) Hq) as Ef.
  pose proof (@rne_nonneg (a * i) Q0) as F0.
  set (q := a * i) in *. clearbody q.
  set (f := rne q) in *. clearbody f. apply abs_le_iff in Ef.
  assert (F1 : f <= 173) by lra.
  assert (P0 : 0 <= f * D) by nra.
  assert (P1 : f * D <= 5190000) by nra.
  assert (Hp : Qabs (f * D) < 8388608) by (apply abs_lt_iff; split; lra).
  pose proof (@rne_err_const (f * D) 8388608 (1 # 2147483648) 22
                eq_refl eq_refl ltac:(lia) Hp) as Et.
  assert (Efd : - (1 # 2147483648) <= f * D - q * D <= 1 # 2147483648) by (split; nra).
  set (x := q * D) in *. clearbody x.
  set (t := rne (f * D)) in *. clearbody t. apply abs_le_iff in Et.
  assert (Hv : Qabs (a - t) < 8192) by (apply abs_lt_iff; split; lra).
  pose proof (@rne_err_const (a - t) 8192 (1 # 2199023255552) 12
                eq_refl eq_refl ltac:(lia) Hv) as Ev.
  set (v := rne (a - t)) in *. clearbody v. apply abs_le_iff in Ev.
  assert (Hw : Qabs (v - c) < 8192) by (apply abs_lt_iff; split; lra).
  pose proof (@rne_err_const (v - c) 8192 (1 # 2199023255552) 12
                eq_refl eq_refl ltac:(lia) Hw) as Ew.
  set (w := rne (v - c)) in *. clearbody w. apply abs_le_iff in Ew.
  repeat split; apply abs_le_iff; split; lra.
Qed.

Lemma discount_total (A S D e : Q) :
  14 <= S -> 0 <= D <= S -> Qabs (S - A) <= e -> Qabs (A / S * D - D) <= e.
Proof.
  intros S0 [D0 D1] He.
  destruct (inverse_bounds S S0) as (I0 & I1 & E).
  unfold Qdiv. set (i := / S) in *. clearbody i.
  assert (W0 : 0 <= i * D) by nra.
  assert (W1 : i * D <= 1) by nra.
  assert (ED : D == (i * D) * S) by (rewrite <- (Qmult_1_l D) at 1; rewrite <- E; ring).
  assert (EX : A * i * D - D == (A - S) * (i * D)).
  { rewrite ED at 2. ring. }
  rewrite EX. set (w := i * D) in *. clearbody w.
  apply abs_le_iff in He. apply abs_le_iff. split; nra.
Qed.

Section Allocations.
Context {R : Rounding} (HR : round_close R).

Lemma allocated_sums_close (sel : selection) (p : Q) :
  Forall (fun item => (15 <= item_subtotal item <= 2400) /\
                      (0 <= item_cogs item <= 2400)) sel ->
  1 <= lenQ sel <= 8 -> 0 <= p <= 1 # 4 ->
  Qabs (Qsum (map (fun item =>
                     round_ (fmul (fdiv (item_subtotal item) (py_sum (map item_subtotal sel)))
                                  (fmul (py_sum (map item_subtotal sel)) p)) 2) sel)
        - round_ (fmul (py_sum (map item_subtotal sel)) p) 2)
    <= (lenQ sel + 1) * (1 # 200) + (1 # 1000000) /\
  Qabs (Qsum (map (fun item =>
                     round_ (fsub (fsub (item_subtotal item)
                                        (fmul (fdiv (item_subtotal item)
                                                    (py_sum (map item_subtotal sel)))
                                              (fmul (py_sum (map item_subtotal sel)) p)))
                                  (item_cogs item)) 2) sel)
        - round_ (fsub (fsub (py_sum (map item_subtotal sel))
                             (fmul (py_sum (map item_subtotal sel)) p))
                       (py_sum (map item_cogs sel))) 2)
    <= (lenQ sel + 1) * (1 # 200) + (1 # 1000000).
Proof.
  intros Hsel [N0 N1] [P0 P1].
  assert (Hsub : Forall (fun x => 15 <= x <= 2400) (map item_subtotal sel)).
  { apply Forall_map. eapply Forall_impl; [|exact Hsel]. now intros item [Ha _]. }
  assert (Hsub0 : Forall (fun x => 0 <= x <= 2400) (map item_subtotal sel)).
  { eapply Forall_impl; [|exact Hsub]. intros x [X0 X1]. split; lra. }
  assert (Hcogs : Forall (fun x => 0 <= x <= 2400) (map item_cogs sel)).
  { apply Forall_map. eapply Forall_impl; [|exact Hsel]. now intros item [_ Hc]. }
  destruct (py_sum_error _ Hsub0 ltac:(now rewrite lenQ_map)) as [[B0 B1] ES].
  destruct (py_sum_error _ Hcogs ltac:(now rewrite lenQ_map)) as [[C0 C1] EC].
  pose proof (Qsum_lower 15 _ (Forall_impl _ (fun x (Hx : 15 <= x <= 2400) => proj1 Hx) Hsub))
    as LS.
  rewrite !lenQ_map in *.
  assert (S0 : 14 <= py_sum (map item_subtotal sel)).
  { apply abs_le_iff in ES. set (L := lenQ sel) in *. clearbody L. lra. }
  set (S := py_sum (map item_subtotal sel)) in *.
  set (C := py_sum (map item_cogs sel)) in *.
  assert (M0 : 0 <= S * p) by nra.
  assert (M1 : S * p <= S * (1 # 4)) by nra.
  assert (Hm : Qabs (S * p) < 32768) by (apply abs_lt_iff; split; lra).
  pose proof (@rne_err_const (S * p) 32768 (1 # 549755813888) 14
                eq_refl eq_refl ltac:(lia) Hm) as Ed.
  pose proof (@rne_nonneg (S * p) M0) as D0.
  change (fmul S p) with (rne (S * p)). set (D := rne (S * p)) in *.
  assert (D1 : D <= S) by (apply abs_le_iff in Ed; lra).
  (* the lines *)
  assert (Hlines : Forall (fun item =>
            Qabs (round_ (fmul (fdiv (item_subtotal item) S) D) 2
                  - item_subtotal item / S * D) <= (1 # 200) + (1 # 268435456) /\
            Qabs (round_ (fsub (fsub (item_subtotal item)
                                     (fmul (fdiv (item_subtotal item) S) D))
                               (item_cogs item)) 2
                  - ((item_subtotal item - item_subtotal item / S * D) - item_cogs item))
              <= (1 # 200) + (1 # 268435456)) sel).
  { eapply Forall_impl; [|exact Hsel]. intros item [Ha Hc].
    destruct (item_allocation_error (item_subtotal item) (item_cogs item) S D)
      as (Et & Bt & Ew & Bw); [split; lra | exact Hc | split; lra | split; lra |].
    pose proof (HR _ Bt) as Rt. pose proof (HR _ Bw) as Rw.
    set (t := fmul (fdiv (item_subtotal item) S) D) in *.
    set (w := fsub (fsub (item_subtotal item) t) (item_cogs item)) in *.
    set (rt := round_ t 2) in *. set (rw := round_ w 2) in *.
    set (xt := item_subtotal item / S * D) in *.
    set (xw := item_subtotal item - xt - item_cogs item) in *.
    clearbody rt rw t w xt xw.
    apply abs_le_iff in Et, Ew, Rt, Rw. split; apply abs_le_iff; split; lra. }
  pose proof (Forall_impl _ (fun item Hi => proj1 Hi) Hlines) as Hdisc.
  pose proof (Forall_impl _ (fun item Hi => proj2 Hi) Hlines) as Hprof.
  cbv beta in Hdisc, Hprof.
  apply Qsum_close in Hdisc. apply Qsum_close in Hprof.
  (* the exact sums *)
  assert (Exd : Qsum (map (fun item => item_subtotal item / S * D) sel)
                == Qsum (map item_subtotal sel) / S * D).
  { rewrite <- (Qsum_scaled S D (map item_subtotal sel)), map_map. reflexivity. }
  assert (Exp : Qsum (map (fun item => item_subtotal item - item_subtotal item / S * D
                                       - item_cogs item) sel)
                == (Qsum (map item_subtotal sel) - Qsum (map item_subtotal sel) / S * D)
                   - Qsum (map item_cogs sel)).
  { rewrite (Qsum_sub (fun item => item_subtotal item - item_subtotal item / S * D)
                      item_cogs sel).
    rewrite <- (Qsum_shares S D (map item_subtotal sel)), map_map. reflexivity. }
  rewrite Exd in Hdisc. rewrite Exp in Hprof.
  pose proof (discount_total (Qsum (map item_subtotal sel)) S D _ S0 (conj D0 D1) ES) as Td.
  pose proof (shares_total (Qsum (map item_subtotal sel)) S D _ S0 (conj D0 D1) ES) as Tv.
  (* the order *)
  assert (Hr : Qabs (S - D) < 32768) by (apply abs_lt_iff; split; lra).
  pose proof (@rne_err_const (S - D) 32768 (1 # 549755813888) 14
                eq_refl eq_refl ltac:(lia) Hr) as Ev.
  change (fsub S D) with (rne (S - D)). set (V := rne (S - D)) in *.
  assert (HVC : Qabs (V - C) < 32768).
  { apply abs_le_iff in Ev. apply abs_lt_iff. split; lra. }
  pose proof (@rne_err_const (V - C) 32768 (1 # 549755813888) 14
                eq_refl eq_refl ltac:(lia) HVC) as Ep.
  change (fsub V C) with (rne (V - C)). set (P := rne (V - C)) in *.
  assert (HD : Qabs D <= 8388608) by (apply abs_le_iff; split; lra).
  assert (HP : Qabs P <= 8388608).
  { apply abs_le_iff in Ev, Ep. apply abs_lt_iff in HVC. apply abs_le_iff. split; lra. }
  pose proof (HR D HD) as RD. pose proof (HR P HP) as RP.
  set (TD := Qsum (map (fun item => round_ (fmul (fdiv (item_subtotal item) S) D) 2) sel)) in *.
  set (TP := Qsum (map (fun item =>
                 round_ (fsub (fsub (item_subtotal item)
                                    (fmul (fdiv (item_subtotal item) S) D))
                              (item_cogs item)) 2) sel)) in *.
  set (A := Qsum (map item_subtotal sel)) in *.
  set (K := Qsum (map item_cogs sel)) in *.
  set (XD := A / S * D) in *. set (XV := A - XD) in *.
  set (rD := round_ D 2) in *. set (rP := round_ P 2) in *.
  set (L := lenQ sel) in *.
  assert (Hd' : Qabs (TD - XD) <= L * ((1 # 200) + (1 # 268435456))) by exact Hdisc.
  assert (Hp' : Qabs (TP - (XV - K)) <= L * ((1 # 200) + (1 # 268435456))) by exact Hprof.
  clear Hdisc Hprof Hlines Exd Exp.
  clearbody TD TP XD XV rD rP A K L P V D S C.
  apply abs_le_iff in Hd', Hp', Td, Tv, Ev, Ep, RD, RP, ES, EC.
  split; apply abs_le_iff; split; lra.
Qed.

End Allocations.

Section AllocationTables.
Context {rng : Type} `{PyRandom rng} {R : Rounding}.

Lemma line_items_discounts (d : order_draws) :
  map LineItem.discount_amount (line_items_of d)
  = map (fun item => round_ (item_discount (dr_selected d) (dr_discount_percent d) item) 2)
        (dr_selected d).
Proof.
  unfold line_items_of, make_line_items. rewrite map_map.
  apply map_enumerate1. now intros [idx item].
Qed.

Lemma line_items_profits (d : order_draws) :
  map profit_value (line_items_of d)
  = map (fun item => round_ (item_profit (dr_selected d) (dr_discount_percent d) item) 2)
        (dr_selected d).
Proof.
  unfold line_items_of, make_line_items. rewrite map_map.
  apply map_enumerate1. now intros [idx item].
Qed.

Lemma pass_allocations (d : order_draws) :
  round_close R -> valid_draws products_data d ->
  allocations_reproduce ((lenQ (line_items_of d) + 1) * (1 # 200) + (1 # 1000000))
                        (order_of d) (line_items_of d).
Proof.
  intros HR (Hsel & Hdisc & _). destruct Hsel as [Hitems Hlen].
  assert (Hn : (1 <= Z.of_nat (List.length (dr_selected d)) <= 8)%Z).
  { destruct (is_b2b_customer (dr_customer d)); lia. }
  assert (HL : lenQ (line_items_of d) = lenQ (dr_selected d)).
  { unfold lenQ. now rewrite line_items_length. }
  rewrite HL.
  assert (Hb : Forall (fun item => (15 <= item_subtotal item <= 2400) /\
                                   (0 <= item_cogs item <= 2400)) (dr_selected d)).
  { eapply Forall_impl; [|exact Hitems]. intros item Hv. exact (item_bounds _ _ Hv). }
  assert (N0 : 1 <= lenQ (dr_selected d)) by (apply (lenQ_ge _ 1); lia).
  assert (N1 : lenQ (dr_selected d) <= 8) by (apply (lenQ_le _ 8); lia).
  destruct (allocated_sums_close HR (dr_selected d)
              (int_truediv (dr_discount_percent d) 100) Hb (conj N0 N1)
              (discount_rate_bounds _ _ Hdisc)) as [Td Tp].
  split.
  - rewrite line_items_discounts. exact Td.
  - intros p Hp. rewrite line_items_profits.
    unfold order_of, make_order in Hp. cbn [Order.profit] in Hp.
    destruct (flt (dr_u_cogs d) (literal 3 100)); [discriminate|].
    injection Hp as <-. exact Tp.
Qed.

(** X18.  Let the rounding to two decimals stay within half a cent of its
    argument, as both roundings of this file do.  Then in every run, for an
    order with [n] line items, the sum of the stored [discount_amount] of
    its line items is within [(n + 1) * 0.005 + 0.000001] of the order's
    stored [discount_amount], and the sum of their stored [profit] is
    within the same distance of the order's stored [profit] when that is not
    null. *)
Theorem allocated_columns_sum (seed_value num_d2c num_b2b : Z) (ambient : rng) :
  round_close R ->
  exists datasets (passes : list (Order.t * list LineItem.t)),
    run seed_value num_d2c num_b2b ambient = inr datasets /\
    ds_orders datasets = Some (map fst passes) /\
    ds_order_line_items datasets = Some (List.concat (map snd passes)) /\
    Forall (fun p =>
      allocations_reproduce ((lenQ (snd p) + 1) * (1 # 200) + (1 # 1000000))
                            (fst p) (snd p))
      passes.
Proof.
  intros HR.
  destruct (run_layout seed_value num_d2c num_b2b ambient)
    as (datasets & E & table & ds & _ & _ & Eo & El & _ & Hlay).
  exists datasets, (map (fun d => (order_of d, line_items_of d)) ds).
  rewrite !map_map. cbn [fst snd].
  split; [exact E|]. split; [exact Eo|]. split; [exact El|].
  apply Forall_map. eapply Forall_impl; [|exact (orders_layout_valid _ _ _ Hlay)].
  cbv beta. intros d [Hd _]. cbn [fst snd]. now apply pass_allocations.
Qed.

End AllocationTables.

(** [allocated_columns_sum] at the run of one B2B customer, under the
    builtin rounding. *)
Lemma allocated_columns_sum_witness :
  round_close builtin_round /\
  exists datasets (passes : list (Order.t * list LineItem.t)),
    c7_run builtin_round = inr datasets /\
    ds_orders datasets = Some (map fst passes) /\
    ds_order_line_items datasets = Some (List.concat (map snd passes)) /\
    Forall (fun p =>
      allocations_reproduce ((lenQ (snd p) + 1) * (1 # 200) + (1 # 1000000))
                            (fst p) (snd p))
      passes.
Proof.
  split; [exact builtin_round_close|].
  exact (@allocated_columns_sum (list Z) (scripted c7_script) builtin_round 42 0 1 []
           builtin_round_close).
Defined.

Open Scope Z_scope.

(** * Orders where the roundings cancel *)

Open Scope Q_scope.

Lemma rne_eq_leibniz x y : rne x == rne y -> rne x = rne y.
Proof.
  unfold rne. intros E. apply Qred_complete. now rewrite !Qred_correct in E.
Qed.

(** Rounding a float gives the float back. *)
Lemma rne_fix x : rne (rne x) = rne x.
Proof. apply rne_eq_leibniz. apply rne_id. apply rne_is_float. Qed.

Lemma fsub_zero x : fsub (rne x) 0 = rne x.
Proof.
  unfold fsub. rewrite (@rne_comp (rne x - 0) (rne x)) by ring. apply rne_fix.
Qed.

Lemma fmul_zero x : fmul x 0 = 0.
Proof.
  unfold fmul. rewrite (@rne_comp (x * 0) 0) by ring. vm_compute. reflexivity.
Qed.

Lemma fmul_one x : fmul 1 (rne x) = rne x.
Proof.
  unfold fmul. rewrite (@rne_comp (1 * rne x) (rne x)) by ring. apply rne_fix.
Qed.

Lemma fdiv_self x : ~ x == 0 -> fdiv x x = 1.
Proof.
  intros Hx. unfold fdiv. rewrite (@rne_comp (x / x) 1) by (now field).
  vm_compute. reflexivity.
Qed.

Lemma fold_fadd_form xs : forall acc,
  (exists s, acc = rne s) -> exists s, fold_left fadd xs acc = rne s.
Proof.
  induction xs as [|x xs IH]; intros acc Hacc; [exact Hacc|].
  cbn [fold_left]. apply IH. eexists. reflexivity.
Qed.

Lemma py_sum_form xs : exists s, py_sum xs = rne s.
Proof. unfold py_sum. apply fold_fadd_form. eexists. reflexivity. Qed.

Lemma py_sum_single x : py_sum [rne x] = rne x.
Proof.
  unfold py_sum. cbn [fold_left]. rewrite of_int_0. unfold fadd.
  rewrite (@rne_comp (0 + rne x) (rne x)) by ring. apply rne_fix.
Qed.

Lemma int_truediv_zero : int_truediv 0 100 = 0.
Proof. vm_compute. reflexivity. Qed.

(** The amounts of an order without discount. *)
Lemma undiscounted_amounts (sel : selection) :
  order_discount_amount sel 0 = 0 /\
  order_revenue sel 0 = order_subtotal sel /\
  forall item, item_discount sel 0 item = 0 /\
               item_revenue sel 0 item = item_subtotal item.
Proof.
  assert (ED : order_discount_amount sel 0 = 0).
  { unfold order_discount_amount. rewrite int_truediv_zero. apply fmul_zero. }
  split; [exact ED|]. split.
  - unfold order_revenue. rewrite ED. unfold order_subtotal.
    destruct (py_sum_form (map item_subtotal sel)) as (s & ->). apply fsub_zero.
  - intros item.
    assert (EI : item_discount sel 0 item = 0).
    { unfold item_discount. rewrite ED. apply fmul_zero. }
    split; [exact EI|]. unfold item_revenue. rewrite EI.
    unfold item_subtotal, fmul at 1. apply fsub_zero.
Qed.

(** The amounts of an order of one line are those of the line. *)
Lemma single_line_amounts (item : Product.t * Z) (discount_percent : Z) :
  ~ item_subtotal item == 0 ->
  order_subtotal [item] = item_subtotal item /\
  order_total_cogs [item] = item_cogs item /\
  item_discount [item] discount_percent item = order_discount_amount [item] discount_percent /\
  item_revenue [item] discount_percent item = order_revenue [item] discount_percent /\
  item_profit [item] discount_percent item = order_profit [item] discount_percent.
Proof.
  intros Ha.
  assert (ES : order_subtotal [item] = item_subtotal item).
  { unfold order_subtotal. cbn [map]. unfold item_subtotal, fmul. apply py_sum_single. }
  assert (EC : order_total_cogs [item] = item_cogs item).
  { unfold order_total_cogs. cbn [map]. unfold item_cogs, fmul. apply py_sum_single. }
  assert (ED : item_discount [item] discount_percent item
               = order_discount_amount [item] discount_percent).
  { unfold item_discount. rewrite ES, (fdiv_self _ Ha).
    unfold order_discount_amount, fmul at 2. apply fmul_one. }
  assert (ER : item_revenue [item] discount_percent item
               = order_revenue [item] discount_percent).
  { unfold item_revenue, order_revenue. now rewrite ED, ES. }
  split; [exact ES|]. split; [exact EC|]. split; [exact ED|]. split; [exact ER|].
  unfold item_profit, order_profit. now rewrite ER, EC.
Qed.

Section ExactOrders.
Context {rng : Type} `{PyRandom rng} {R : Rounding}.

(** X19.  In every run, an order with [discount_percent] 0 stores the
    rounding of 0 as discount amount and a revenue equal to its subtotal,
    and so does each of its line items: without a discount no rounding
    separates the revenue from the subtotal. *)
Theorem undiscounted_orders (seed_value num_d2c num_b2b : Z) (ambient : rng) :
  exists datasets (passes : list (Order.t * list LineItem.t)),
    run seed_value num_d2c num_b2b ambient = inr datasets /\
    ds_orders datasets = Some (map fst passes) /\
    ds_order_line_items datasets = Some (List.concat (map snd passes)) /\
    Forall (fun p =>
      Order.discount_percent (fst p) = 0%Z ->
      Order.discount_amount (fst p) = round_ 0 2 /\
      Order.revenue (fst p) = Order.subtotal (fst p) /\
      Forall (fun li => LineItem.discount_amount li = round_ 0 2 /\
                        LineItem.revenue li = LineItem.subtotal li) (snd p))
      passes.
Proof.
  destruct (run_layout seed_value num_d2c num_b2b ambient)
    as (datasets & E & table & ds & _ & _ & Eo & El & _ & _).
  exists datasets, (map (fun d => (order_of d, line_items_of d)) ds).
  rewrite !map_map. cbn [fst snd].
  split; [exact E|]. split; [exact Eo|]. split; [exact El|].
  apply Forall_map, Forall_forall. intros d _. cbn [fst snd].
  unfold order_of at 1, make_order at 1. cbn [Order.discount_percent]. intros Hz.
  destruct (undiscounted_amounts (dr_selected d)) as (ED & ER & EI).
  unfold order_of, make_order.
  cbn [Order.discount_amount Order.revenue Order.subtotal]. rewrite Hz, ED, ER.
  split; [reflexivity|]. split; [reflexivity|].
  unfold line_items_of, make_line_items. apply Forall_map, Forall_forall.
  intros [idx item] _. unfold make_line_item.
  cbn [LineItem.discount_amount LineItem.revenue LineItem.subtotal].
  rewrite Hz. destruct (EI item) as [-> ->]. split; reflexivity.
Qed.

(** X20.  In every run, an order with a single line item has the stored
    subtotal, discount amount and revenue of that line, and its cost and
    profit whenever they are not null: on such an order the line items
    reproduce the order exactly. *)
Theorem single_line_orders (seed_value num_d2c num_b2b : Z) (ambient : rng) :
  exists datasets (passes : list (Order.t * list LineItem.t)),
    run seed_value num_d2c num_b2b ambient = inr datasets /\
    ds_orders datasets = Some (map fst passes) /\
    ds_order_line_items datasets = Some (List.concat (map snd passes)) /\
    Forall (fun p =>
      Order.num_items (fst p) = 1%Z ->
      exists li, snd p = [li] /\
        LineItem.subtotal li = Order.subtotal (fst p) /\
        LineItem.discount_amount li = Order.discount_amount (fst p) /\
        LineItem.revenue li = Order.revenue (fst p) /\
        (forall c, Order.total_cogs (fst p) = Some c -> LineItem.cogs li = Some c) /\
        (forall g, Order.profit (fst p) = Some g -> LineItem.profit li = Some g))
      passes.
Proof.
  destruct (run_layout seed_value num_d2c num_b2b ambient)
    as (datasets & E & table & ds & _ & _ & Eo & El & _ & Hlay).
  exists datasets, (map (fun d => (order_of d, line_items_of d)) ds).
  rewrite !map_map. cbn [fst snd].
  split; [exact E|]. split; [exact Eo|]. split; [exact El|].
  apply Forall_map. eapply Forall_impl; [|exact (orders_layout_valid _ _ _ Hlay)].
  cbv beta. intros d [([Hitems _] & _) _]. cbn [fst snd].
  unfold order_of at 1, make_order at 1. cbn [Order.num_items]. intros Hone.
  destruct (dr_selected d) as [|item [|item' rest]] eqn:Esel;
    cbn [List.length] in Hone; try lia.
  inversion_clear Hitems as [|? ? Hitem _].
  destruct (item_bounds _ _ Hitem) as [[A0 _] _].
  assert (Ha : ~ item_subtotal item == 0) by (intros Z; rewrite Z in A0; lra).
  destruct (single_line_amounts item (dr_discount_percent d) Ha)
    as (ES & EC & ED & ER & EP).
  unfold line_items_of, make_line_items. rewrite Esel.
  eexists. split; [reflexivity|].
  unfold make_line_item, order_of, make_order.
  cbn [LineItem.subtotal LineItem.discount_amount LineItem.revenue LineItem.cogs
       LineItem.profit Order.subtotal Order.discount_amount Order.revenue
       Order.total_cogs Order.profit].
  rewrite Esel, ES, ED, ER, EC, EP.
  split; [reflexivity|]. split; [reflexivity|]. split; [reflexivity|].
  destruct (flt (dr_u_cogs d) (literal 3 100)); split; intros ? Hc;
    (discriminate || exact Hc).
Qed.

End ExactOrders.

Open Scope Z_scope.

(** * The size of an order by segment *)

Open Scope Q_scope.

Lemma Qsum_between (lo hi : Q) xs :
  Forall (fun x => lo <= x <= hi) xs ->
  lenQ xs * lo <= Qsum xs <= lenQ xs * hi.
Proof.
  induction 1 as [|x xs Hx _ IH].
  - rewrite (lenQ_nil Q). cbn [Qsum fold_right]. lra.
  - rewrite Qsum_cons, lenQ_cons. set (L := lenQ xs) in *. clearbody L. lra.
Qed.

(** A B2B line is of ten units at least, another line of three at most. *)
Lemma item_subtotal_segment (is_b2b : bool) (item : Product.t * Z) :
  valid_item products_data is_b2b item ->
  if is_b2b then 150 <= item_subtotal item <= 2400
  else 15 <= item_subtotal item <= 120.
Proof.
  intros Hv. destruct (item_bounds _ _ Hv) as [[A0 A1] _].
  destruct Hv as [Hin Hq].
  pose proof catalog_prices as HP. rewrite Forall_forall in HP.
  destruct (HP _ Hin) as [[U0 U1] _].
  unfold item_subtotal, fmul in *.
  set (u := Product.unit_price (fst item)) in *. clearbody u.
  destruct is_b2b.
  - split; [|exact A1].
    pose proof (@of_int_exact (snd item) ltac:(lia)) as Eq.
    assert (Q0 : 10 <= of_int (snd item)).
    { rewrite Eq. change 10 with (inject_Z 10). rewrite <- Zle_Qle. lia. }
    set (q := of_int (snd item)) in *. clearbody q.
    assert (E : 150 <= rne 150) by (apply Qle_bool_iff; vm_compute; reflexivity).
    eapply Qle_trans; [exact E|]. apply rne_mono. nra.
  - split; [exact A0|].
    pose proof (@of_int_exact (snd item) ltac:(lia)) as Eq.
    assert (Q0 : 0 <= of_int (snd item)).
    { rewrite Eq. change 0 with (inject_Z 0). rewrite <- Zle_Qle. lia. }
    assert (Q1 : of_int (snd item) <= 3).
    { rewrite Eq. change 3 with (inject_Z 3). rewrite <- Zle_Qle. lia. }
    set (q := of_int (snd item)) in *. clearbody q.
    assert (E : rne 120 <= 120) by (apply Qle_bool_iff; vm_compute; reflexivity).
    eapply Qle_trans; [|exact E]. apply rne_mono. nra.
Qed.

Section SegmentSizes.
Context {rng : Type} `{PyRandom rng} {R : Rounding}.

Lemma order_subtotal_segment (is_b2b : bool) (sel : selection) :
  round_close R -> valid_selection products_data is_b2b sel ->
  if is_b2b
  then (44999 # 100) <= round_ (order_subtotal sel) 2 <= (1920001 # 100)
  else (1499 # 100) <= round_ (order_subtotal sel) 2 <= (36001 # 100).
Proof.
  intros HR [Hitems Hlen]. unfold order_subtotal.
  assert (Hb : Forall (fun x => 0 <= x <= 2400) (map item_subtotal sel)).
  { apply Forall_map. eapply Forall_impl; [|exact Hitems]. intros item Hv.
    destruct (item_bounds _ _ Hv) as [[A0 A1] _]. split; lra. }
  assert (Hn : (1 <= Z.of_nat (List.length sel) <= 8)%Z) by (destruct is_b2b; lia).
  assert (N8 : lenQ (map item_subtotal sel) <= 8).
  { rewrite lenQ_map. apply (lenQ_le _ 8). lia. }
  destruct (py_sum_error _ Hb N8) as [[B0 B1] E].
  assert (Hs : Qabs (py_sum (map item_subtotal sel)) <= 8388608)
    by (apply abs_le_iff; split; lra).
  pose proof (HR _ Hs) as Er.
  rewrite lenQ_map in E, N8.
  apply abs_le_iff in E. apply abs_le_iff in Er.
  set (S := py_sum (map item_subtotal sel)) in *.
  set (S' := round_ S 2) in *. clearbody S'. clearbody S.
  destruct is_b2b.
  - assert (Hr : Forall (fun x => 150 <= x <= 2400) (map item_subtotal sel)).
    { apply Forall_map. eapply Forall_impl; [|exact Hitems]. intros item Hv.
      exact (item_subtotal_segment true item Hv). }
    pose proof (Qsum_between _ _ _ Hr) as Hq. rewrite lenQ_map in Hq.
    assert (N3 : 3 <= lenQ sel) by (apply (lenQ_ge _ 3); lia).
    set (T := Qsum (map item_subtotal sel)) in *. clearbody T.
    set (L := lenQ sel) in *. clearbody L. lra.
  - assert (Hr : Forall (fun x => 15 <= x <= 120) (map item_subtotal sel)).
    { apply Forall_map. eapply Forall_impl; [|exact Hitems]. intros item Hv.
      exact (item_subtotal_segment false item Hv). }
    pose proof (Qsum_between _ _ _ Hr) as Hq. rewrite lenQ_map in Hq.
    assert (N1 : 1 <= lenQ sel) by (apply (lenQ_ge _ 1); lia).
    assert (N3 : lenQ sel <= 3) by (apply (lenQ_le _ 3); lia).
    set (T := Qsum (map item_subtotal sel)) in *. clearbody T.
    set (L := lenQ sel) in *. clearbody L. lra.
Qed.

(** X21.  Let the rounding to two decimals stay within half a cent of its
    argument.  Then in every run the stored [subtotal] of an order of a B2B
    customer lies between 449.99 and 19200.01, and that of an order of any
    other customer between 14.99 and 360.01: the subtotal alone tells the
    two segments apart. *)
Theorem order_subtotal_by_segment (seed_value num_d2c num_b2b : Z) (ambient : rng) :
  round_close R ->
  exists datasets customer_table orders,
    run seed_value num_d2c num_b2b ambient = inr datasets /\
    ds_customers datasets = Some customer_table /\
    ds_orders datasets = Some orders /\
    Forall (fun o =>
      exists c, In c customer_table /\
        Customer.customer_id c = Order.customer_id o /\
        subtotal_in_segment_range (String.eqb (Customer.segment c) "B2B") o)
      orders.
Proof.
  intros HR.
  destruct (run_layout seed_value num_d2c num_b2b ambient)
    as (datasets & E & table & ds & _ & Ec & Eo & _ & _ & Hlay).
  exists datasets, table, (map order_of ds).
  split; [exact E|]. split; [exact Ec|]. split; [exact Eo|].
  apply Forall_map. eapply Forall_impl; [|exact (orders_layout_valid _ _ _ Hlay)].
  cbv beta. intros d [(Hsel & _) Hin].
  exists (dr_customer d). split; [exact Hin|]. split; [reflexivity|].
  fold (is_b2b_customer (dr_customer d)).
  pose proof (order_subtotal_segment _ _ HR Hsel) as Hs.
  unfold subtotal_in_segment_range, order_of, make_order. cbn [Order.subtotal].
  exact Hs.
Qed.

End SegmentSizes.

(** [order_subtotal_by_segment] at the run of one B2B customer, under the
    builtin rounding. *)
Lemma order_subtotal_by_segment_witness :
  round_close builtin_round /\
  exists datasets customer_table orders,
    c7_run builtin_round = inr datasets /\
    ds_customers datasets = Some customer_table /\
    ds_orders datasets = Some orders /\
    Forall (fun o =>
      exists c, In c customer_table /\
        Customer.customer_id c = Order.customer_id o /\
        subtotal_in_segment_range (String.eqb (Customer.segment c) "B2B") o)
      orders.
Proof.
  split; [exact builtin_round_close|].
  exact (@order_subtotal_by_segment (list Z) (scripted c7_script) builtin_round 42 0 1 []
           builtin_round_close).
Defined.

Open Scope Z_scope.

(** * The amounts of a line item *)

Open Scope Q_scope.

(** A line of subtotal [a] and cost [c] in an order of subtotal [S] and
    discount [D]: the discount allocated to it, its revenue and its
    profit. *)
Lemma line_amounts (a c S D : Q) :
  is_float a -> 15 <= a <= 2400 ->
  7 <= c <= (49 # 100) * a + (1 # 1099511627776) ->
  14 <= S <= 30000 -> 0 <= D <= (26 # 100) * S ->
  (0 <= fmul (fdiv a S) D <= a) /\
  (1 <= fsub a (fmul (fdiv a S) D) <= a) /\
  (c <= fsub a (fmul (fdiv a S) D)) /\
  (1 <= fsub (fsub a (fmul (fdiv a S) D)) c <= fsub a (fmul (fdiv a S) D)).
Proof.
  intros FA [A0 A1] [C0 C1] [S0 S1] [D0 D1].
  destruct (inverse_bounds S S0) as (I0 & I1 & E).
  unfold fsub, fmul, fdiv, Qdiv. set (i := / S) in *. clearbody i.
  assert (W0 : 0 <= i * D) by nra.
  assert (W1 : i * D <= 26 # 100) by nra.
  assert (X0 : 0 <= a * i * D).
  { rewrite <- Qmult_assoc. set (w := i * D) in *. clearbody w. nra. }
  assert (X1 : a * i * D <= (26 # 100) * a).
  { rewrite <- Qmult_assoc. set (w := i * D) in *. clearbody w. nra. }
  assert (Q0 : 0 <= a * i) by nra.
  assert (Q1 : a * i <= 172) by nra.
  assert (Hq : Qabs (a * i) < 256) by (apply abs_lt_iff; split; lra).
  pose proof (@rne_err_const (a * i) 256 (1 # 70368744177664) 7
                eq_refl eq_refl ltac:(lia) Hq) as Ef.
  pose proof (@rne_nonneg (a * i) Q0) as F0.
  set (q := a * i) in *. clearbody q.
  set (f := rne q) in *. clearbody f. apply abs_le_iff in Ef.
  assert (F1 : f <= 173) by lra.
  assert (P0 : 0 <= f * D) by nra.
  assert (P1 : f * D <= 5190000) by nra.
  assert (Hp : Qabs (f * D) < 8388608) by (apply abs_lt_iff; split; lra).
  pose proof (@rne_err_const (f * D) 8388608 (1 # 2147483648) 22
                eq_refl eq_refl ltac:(lia) Hp) as Et.
  pose proof (@rne_nonneg (f * D) P0) as T0.
  assert (Efd : - (1 # 2147483648) <= f * D - q * D <= 1 # 2147483648) by (split; nra).
  set (x := q * D) in *. clearbody x.
  set (t := rne (f * D)) in *. clearbody t. apply abs_le_iff in Et.
  assert (Hv : Qabs (a - t) < 8192) by (apply abs_lt_iff; split; lra).
  pose proof (@rne_err_const (a - t) 8192 (1 # 2199023255552) 12
                eq_refl eq_refl ltac:(lia) Hv) as Ev.
  assert (VA : rne (a - t) <= a).
  { rewrite <- (rne_id FA) at 2. apply rne_mono. lra. }
  pose proof (rne_is_float (a - t)) as FV.
  set (v := rne (a - t)) in *. clearbody v. apply abs_le_iff in Ev.
  assert (Hw : Qabs (v - c) < 8192) by (apply abs_lt_iff; split; lra).
  pose proof (@rne_err_const (v - c) 8192 (1 # 2199023255552) 12
                eq_refl eq_refl ltac:(lia) Hw) as Ew.
  assert (WV : rne (v - c) <= v).
  { rewrite <- (rne_id FV) at 2. apply rne_mono. lra. }
  set (w := rne (v - c)) in *. clearbody w. apply abs_le_iff in Ew.
  repeat split; lra.
Qed.

(** The unrounded amounts of a line of a valid selection. *)
Lemma item_amounts (is_b2b : bool) (sel : selection) (discount_percent : Z)
  (item : Product.t * Z) :
  valid_selection products_data is_b2b sel -> valid_discount is_b2b discount_percent ->
  In item sel ->
  (15 <= item_subtotal item <= 2400) /\
  (0 <= item_discount sel discount_percent item <= item_subtotal item) /\
  (1 <= item_revenue sel discount_percent item <= item_subtotal item) /\
  (7 <= item_cogs item <= item_revenue sel discount_percent item) /\
  (1 <= item_profit sel discount_percent item <= item_revenue sel discount_percent item).
Proof.
  intros [Hitems Hlen] Hdisc Hin.
  assert (Hv : valid_item products_data is_b2b item)
    by exact (proj1 (Forall_forall _ _) Hitems item Hin).
  destruct (item_bounds _ _ Hv) as [HA _].
  pose proof (item_cogs_bounds _ _ Hv) as HC.
  assert (Hn : (1 <= Z.of_nat (List.length sel) <= 8)%Z) by (destruct is_b2b; lia).
  assert (N0 : 1 <= lenQ sel) by (apply (lenQ_ge _ 1); lia).
  assert (N1 : lenQ sel <= 8) by (apply (lenQ_le _ 8); lia).
  assert (Hsub : Forall (fun x => 15 <= x) (map item_subtotal sel)).
  { apply Forall_map. eapply Forall_impl; [|exact Hitems].
    intros it Hit. apply (item_bounds _ _ Hit). }
  assert (Hsub0 : Forall (fun x => 0 <= x <= 2400) (map item_subtotal sel)).
  { apply Forall_map. eapply Forall_impl; [|exact Hitems].
    intros it Hit. destruct (item_bounds _ _ Hit) as [[? ?] _]. split; lra. }
  destruct (py_sum_error _ Hsub0 ltac:(now rewrite lenQ_map)) as [[S0 S1] ES].
  pose proof (Qsum_lower 15 _ Hsub) as LS.
  rewrite !lenQ_map in *.
  destruct (discount_rate_bounds _ _ Hdisc) as [P0 P1].
  assert (FA : is_float (item_subtotal item))
    by (unfold item_subtotal, fmul; apply rne_is_float).
  assert (HS : 14 <= order_subtotal sel <= 30000).
  { unfold order_subtotal. apply abs_le_iff in ES.
    set (S := py_sum (map item_subtotal sel)) in *.
    set (T := Qsum (map item_subtotal sel)) in *.
    set (L := lenQ sel) in *. clearbody S T L. split; lra. }
  assert (HD : 0 <= order_discount_amount sel discount_percent
               <= (26 # 100) * order_subtotal sel).
  { unfold order_discount_amount, fmul.
    set (S := order_subtotal sel) in *.
    set (p := int_truediv discount_percent 100) in *. clearbody S p.
    destruct HS as [S14 S3].
    assert (M0 : 0 <= S * p) by nra.
    assert (M1 : S * p <= S * (1 # 4)) by nra.
    assert (Hm : Qabs (S * p) < 32768) by (apply abs_lt_iff; split; lra).
    pose proof (@rne_err_const (S * p) 32768 (1 # 549755813888) 14
                  eq_refl eq_refl ltac:(lia) Hm) as Ed.
    pose proof (@rne_nonneg (S * p) M0) as D0.
    set (D := rne (S * p)) in *. clearbody D. apply abs_le_iff in Ed. split; lra. }
  destruct (line_amounts _ _ _ _ FA HA HC HS HD) as (Ht & Hr & Hc & Hw).
  split; [exact HA|]. split; [exact Ht|]. split; [exact Hr|].
  split; [exact (conj (proj1 HC) Hc) | exact Hw].
Qed.

Section LineAmounts.
Context {rng : Type} `{PyRandom rng} {R : Rounding}.

Lemma line_item_amounts (d : order_draws) (entry : Z * (Product.t * Z)) :
  round_steady R -> valid_draws products_data d -> In (snd entry) (dr_selected d) ->
  line_amounts_ordered
    (make_line_item (dr_order_id d) (Customer.customer_id (dr_customer d)) (order_of d)
       (dr_selected d) (dr_discount_percent d) entry).
Proof.
  intros (Hmono & R0 & R1) (Hsel & Hdisc & _) Hin. destruct entry as [idx item].
  cbn [snd] in Hin.
  destruct (item_amounts _ _ _ item Hsel Hdisc Hin)
    as ([A0 _] & [T0 T1] & [V0 V1] & [C0 C1] & [W0 W1]).
  unfold line_amounts_ordered, make_line_item.
  cbn [LineItem.subtotal LineItem.discount_amount LineItem.revenue LineItem.cogs
       LineItem.profit].
  set (a := item_subtotal item) in *.
  set (t := item_discount (dr_selected d) (dr_discount_percent d) item) in *.
  set (v := item_revenue (dr_selected d) (dr_discount_percent d) item) in *.
  set (c := item_cogs item) in *.
  set (w := item_profit (dr_selected d) (dr_discount_percent d) item) in *.
  clearbody a t v c w.
  assert (L1 : forall x : float, 1 <= x -> 1 <= round_ x 2).
  { intros x Hx. rewrite <- R1 at 1. now apply Hmono. }
  split; [apply L1; lra|]. split.
  { split; [rewrite <- R0 at 1|]; now apply Hmono. }
  split.
  { split; [now apply L1 | now apply Hmono]. }
  split.
  - eexists. split; [reflexivity|]. split; [apply L1; lra | now apply Hmono].
  - eexists. split; [reflexivity|]. split; [now apply L1 | now apply Hmono].
Qed.

(** X22.  Let the rounding to two decimals be monotone and leave 0 and 1
    unchanged.  Then in every run every line item has a stored subtotal of
    at least 1, a stored discount amount between 0 and the subtotal, a
    stored revenue between 1 and the subtotal, a stored cost between 1 and
    the revenue and a stored profit between 1 and the revenue: no line is
    sold at a loss, whatever the discount of its order. *)
Theorem line_item_amounts_ordered (seed_value num_d2c num_b2b : Z) (ambient : rng) :
  round_steady R ->
  exists datasets line_items_table,
    run seed_value num_d2c num_b2b ambient = inr datasets /\
    ds_order_line_items datasets = Some line_items_table /\
    Forall line_amounts_ordered line_items_table.
Proof.
  intros HR.
  destruct (run_layout seed_value num_d2c num_b2b ambient)
    as (datasets & E & table & ds & _ & _ & _ & El & _ & Hlay).
  exists datasets, (List.concat (map line_items_of ds)).
  split; [exact E|]. split; [exact El|].
  apply Forall_concat, Forall_map.
  eapply Forall_impl; [|exact (orders_layout_valid _ _ _ Hlay)].
  cbv beta. intros d [Hd _].
  unfold line_items_of, make_line_items. apply Forall_map, Forall_forall.
  intros entry Hi. apply (line_item_amounts d entry HR Hd).
  unfold enumerate1 in Hi. destruct entry as [idx item].
  exact (in_combine_r _ _ _ _ Hi).
Qed.

End LineAmounts.

(** [line_item_amounts_ordered] at the run of one B2B customer, under the
    builtin rounding. *)
Lemma line_item_amounts_ordered_witness :
  round_steady builtin_round /\
  exists datasets line_items_table,
    c7_run builtin_round = inr datasets /\
    ds_order_line_items datasets = Some line_items_table /\
    Forall line_amounts_ordered line_items_table.
Proof.
  split; [exact builtin_round_steady|].
  exact (@line_item_amounts_ordered (list Z) (scripted c7_script) builtin_round 42 0 1 []
           builtin_round_steady).
Defined.

Open Scope Z_scope.

Open Scope Q_scope.

(* ===================================================================== *)
(** * The model against the machine's binary64                            *)
(* ===================================================================== *)

(** The amounts of the three counterexamples, computed once more with the
    primitive binary64 operations; the results are the values of the model. *)

Module Binary64.
Import Floats Uint63.

(** The exact value of a finite binary64. *)
Definition Q_of_binary64 (f : PrimFloat.float) : option Q :=
  match Prim2SF f with
  | S754_zero _ => Some 0
  | S754_finite s m e => Some (Qred (((if s then Z.neg m else Z.pos m) # 1) * pow2 e))
  | _ => None
  end.

Definition P001 : Product.t :=
  Product.mk "P001" "Beverage" "Organic Green Tea" (literal 1899 100) (literal 850 100)
             "2021-03-01".

Example P001_first : nth_error products_data 0 = Some P001.
Proof. reflexivity. Qed.

(** 18.99 and 8.50 as the machine reads them. *)
Example binary64_literals :
  map Q_of_binary64 [0x1.2fd70a3d70a3dp+4; 0x1.1p+3]%float
  = [Some (Product.unit_price P001); Some (Product.avg_cogs P001)].
Proof. vm_compute. reflexivity. Qed.

Example binary64_c1_order :
  let p := 0x1.2fd70a3d70a3dp+4%float in
  let s := (0 + p * 2 + p * 3)%float in
  let d := (s * (10 / 100))%float in
  let sel := [(P001, 2%Z); (P001, 3%Z)] in
  map Q_of_binary64 [s; d; (s - d)%float]
  = map Some [order_subtotal sel; order_discount_amount sel 10; order_revenue sel 10].
Proof. vm_compute. reflexivity. Qed.

Example binary64_c7_order :
  let p := 0x1.2fd70a3d70a3dp+4%float in
  let a := (p * 16)%float in
  let s := (0 + a + a + a + a)%float in
  let d := (s * (10 / 100))%float in
  let sel := [(P001, 16%Z); (P001, 16%Z); (P001, 16%Z); (P001, 16%Z)] in
  map Q_of_binary64 [s; (s - d)%float; (a - a / s * d)%float]
  = map Some [order_subtotal sel; order_revenue sel 10; item_revenue sel 10 (P001, 16%Z)].
Proof. vm_compute. reflexivity. Qed.

Example binary64_c5_draw :
  let u := 0x1.ffffffffffff8p-1%float in
  let total := PrimFloat.of_uint63 9007199254741005%uint63 in
  let rand := (u * total)%float in
  map Q_of_binary64 [u; total; rand; (rand - 1)%float]
  = map Some [Qred (c5_draw # 2 ^ 53); of_int (fold_left Z.add c5_weights 0%Z);
              draw_value c5_weights (Qred (c5_draw # 2 ^ 53));
              fsub (draw_value c5_weights (Qred (c5_draw # 2 ^ 53))) (of_int 1)].
Proof. vm_compute. reflexivity. Qed.

End Binary64.
